(** * Build queue of web2apk: admission, slots, watchdog, persistence

    Shallow embedding of [src/utils/buildQueue.js] (class [BuildQueue]) and
    the properties of its admission queue, slot registry and statistics.

    Modelling conventions.
    - The object [this] is a record [BuildQueue] passed explicitly; a method
      that returns a value returns a pair (value, new state).
    - [this.activeBuilds] is a JavaScript [Map]: an association list kept in
      insertion order, because the watchdog iterates it in that order.
    - [Date.now()] is read once per top-level call and passed as [now].
    - [console.log]/[warn]/[error] lines and the invocations of the two
      registered callbacks are recorded, oldest first, in the field [trace].
    - JavaScript numbers are integers [Z]; [Math.round] and [Math.ceil] are
      taken over exact rationals [Q].
    - The file [data/queue.json] is the field [queueFile], in a typed view:
      missing, unreadable, or a document with a queue and statistics. The
      text itself, with [JSON.stringify] and [JSON.parse], is the subject of
      the part on persistence, which relates the two. Reads of an existing
      file and writes are taken to succeed. *)

From Stdlib Require Import ZArith List String Ascii Bool Lia QArith Qround.
From Stdlib Require Import DecimalString Wellfounded Arith Permutation.
From Stdlib Require DecimalFacts DecimalPos DecimalZ.
From Equations Require Import Equations.
Import ListNotations.

Open Scope Z_scope.

(* ------------------------------------------------------------------ *)
(** ** Values *)

(** A submitter identity: Telegram chat ids are numbers, the web front end
    uses strings such as ['web-' + Date.now()], and a call that leaves the
    argument out passes [undefined]. *)
Inductive ChatId : Type :=
| IdNum (n : Z)
| IdStr (s : string)
| IdUndefined.

(** [===] on identities (also the key equality of [Map]). *)
Definition chatId_eqb (a b : ChatId) : bool :=
  match a, b with
  | IdNum x, IdNum y => Z.eqb x y
  | IdStr x, IdStr y => String.eqb x y
  | IdUndefined, IdUndefined => true
  | _, _ => false
  end.

(** JavaScript [String(n)] for an integer. *)
Definition string_of_Z (n : Z) : string := NilZero.string_of_int (Z.to_int n).

(** JavaScript [String(chatId)]. *)
Definition String_ (c : ChatId) : string :=
  match c with
  | IdNum n => string_of_Z n
  | IdStr s => s
  | IdUndefined => "undefined"
  end.

(** Truthiness of an identity: [0], [''] and [undefined] are falsy. *)
Definition truthy (c : ChatId) : bool :=
  match c with
  | IdNum n => negb (Z.eqb n 0)
  | IdStr s => negb (String.eqb s EmptyString)
  | IdUndefined => false
  end.

Inductive BuildType : Type := TypeUrl | TypeZip.

(** The payload handed to the executor; the queue never inspects it.
    [None] is JavaScript [null]. *)
Definition BuildData : Type := option string.

Module QueueItem.
  (** A pending request, as built in [addToQueue]. *)
Record t : Type := mk {
    id : string;
    chatId : ChatId;
    userName : string;
    buildData : BuildData;
    type : BuildType;
    priority : bool;
    addedAt : Z;
    status : string
  }.
End QueueItem.

Module BuildInfo.
  (** An entry of [activeBuilds], as built in [acquire]. *)
Record t : Type := mk {
    startTime : Z;
    lastActivity : Z;
    buildData : BuildData;
    type : BuildType;
    userName : string
  }.
End BuildInfo.

Record Stats : Type := mkStats {
  success : Z;
  failed : Z;
  total : Z;
  totalTime : Z
}.

(** The document written by [save]. A field read back by [load] may be
    absent (or falsy), hence the options. *)
Record Document : Type := mkDocument {
  doc_queue : option (list QueueItem.t);
  doc_stats : option Stats;
  lastSaved : option Z
}.

(** What [fs.existsSync]/[readFileSync]/[JSON.parse] find at [queueFile]. *)
Inductive File : Type :=
| FileMissing
| FileCorrupt
| FileDoc (d : Document).

(** Console lines and callback invocations. *)
Inductive Event : Type :=
| LogConfig (max : Z)
| LogStats (s : Stats)
| LogAdmins (n : nat)
| LogLoaded (n : nat)
| LogLoadFailed
| LogBuildTimeout (c : ChatId)
| LogBuildInactive (c : ChatId)
| LogPriorityQueued (c : ChatId) (position : Z)
| LogQueued (c : ChatId) (position : Z)
| LogRemoved (c : ChatId)
| LogAlreadyBuilding (c : ChatId)
| LogFull (size max : Z)
| LogStarted (c : ChatId) (userName : string) (size max : Z)
| LogReleaseNonExistent (c : ChatId)
| LogCompleted (c : ChatId) (ok : bool) (durationSec : Z)
| LogNoPending
| LogStillBusy (size max : Z)
| LogAutoStarting (c : ChatId) (userName : string)
| LogAcquireFailed (c : ChatId)
| LogCallbackNotSet
| LogForceRelease (c : ChatId)
| LogForceReleaseAll
| CallBuildStart (c : ChatId) (d : BuildData) (t : BuildType) (userName : string)
| CallQueueUpdate (c : ChatId) (position total estimatedWait : Z).

(* ------------------------------------------------------------------ *)
(** ** JavaScript [Map], in insertion order *)

Module JsMap.
  Section Ops.
    Context {V : Type}.

Definition t : Type := list (ChatId * V).

Definition keys (m : t) : list ChatId := List.map fst m.

Definition size (m : t) : Z := Z.of_nat (List.length m).

Fixpoint get (k : ChatId) (m : t) : option V :=
      match m with
      | [] => None
      | (k', v) :: rest => if chatId_eqb k' k then Some v else get k rest
      end.

Definition has (k : ChatId) (m : t) : bool :=
      match get k m with Some _ => true | None => false end.

    (** [set] keeps the position of an existing key and appends a new one. *)
Fixpoint set (k : ChatId) (v : V) (m : t) : t :=
      match m with
      | [] => [(k, v)]
      | (k', v') :: rest =>
          if chatId_eqb k' k then (k', v) :: rest else (k', v') :: set k v rest
      end.

Definition delete (k : ChatId) (m : t) : t :=
      List.filter (fun kv => negb (chatId_eqb (fst kv) k)) m.

Definition clear (m : t) : t := [].
  End Ops.
  Arguments t : clear implicits.
End JsMap.

(* ------------------------------------------------------------------ *)
(** ** Numbers *)

(** [Math.round(x)]: nearest integer, halves towards +infinity. *)
Definition Math_round (x : Q) : Z := Qfloor (x + (1 # 2))%Q.

(** [Math.ceil(x)]. *)
Definition Math_ceil (x : Q) : Z := Qceiling x.

(** [Array.prototype.findIndex]: the first index whose element satisfies
    the predicate, or [-1]. *)
Fixpoint findIndex_from {A : Type} (p : A -> bool) (l : list A) (i : Z) : Z :=
  match l with
  | [] => -1
  | x :: rest => if p x then i else findIndex_from p rest (i + 1)
  end.

Definition findIndex {A : Type} (p : A -> bool) (l : list A) : Z :=
  findIndex_from p l 0.

(** [arr.splice(index, 1)] for an index inside the array. *)
Definition splice_remove {A : Type} (index : Z) (l : list A) : list A :=
  firstn (Z.to_nat index) l ++ skipn (S (Z.to_nat index)) l.

(** [arr.splice(index, 0, x)] for [0 <= index <= length]. *)
Definition splice_insert {A : Type} (index : nat) (x : A) (l : list A) : list A :=
  firstn index l ++ x :: skipn index l.

(* ------------------------------------------------------------------ *)
(** ** The object *)

Record BuildQueue : Type := mkBuildQueue {
  maxConcurrent : Z;
  adminIds : list string;
  queue : list QueueItem.t;
  activeBuilds : JsMap.t BuildInfo.t;
  stats : Stats;
  onBuildStart : bool;      (* is a start callback registered? *)
  onQueueUpdate : bool;     (* is a position callback registered? *)
  queueFile : File;
  trace : list Event
}.

Definition with_queue (q : list QueueItem.t) (this : BuildQueue) : BuildQueue :=
  mkBuildQueue (maxConcurrent this) (adminIds this) q (activeBuilds this)
    (stats this) (onBuildStart this) (onQueueUpdate this) (queueFile this)
    (trace this).

Definition with_activeBuilds (m : JsMap.t BuildInfo.t) (this : BuildQueue) : BuildQueue :=
  mkBuildQueue (maxConcurrent this) (adminIds this) (queue this) m
    (stats this) (onBuildStart this) (onQueueUpdate this) (queueFile this)
    (trace this).

Definition with_stats (st : Stats) (this : BuildQueue) : BuildQueue :=
  mkBuildQueue (maxConcurrent this) (adminIds this) (queue this)
    (activeBuilds this) st (onBuildStart this) (onQueueUpdate this)
    (queueFile this) (trace this).

Definition with_onBuildStart (b : bool) (this : BuildQueue) : BuildQueue :=
  mkBuildQueue (maxConcurrent this) (adminIds this) (queue this)
    (activeBuilds this) (stats this) b (onQueueUpdate this) (queueFile this)
    (trace this).

Definition with_onQueueUpdate (b : bool) (this : BuildQueue) : BuildQueue :=
  mkBuildQueue (maxConcurrent this) (adminIds this) (queue this)
    (activeBuilds this) (stats this) (onBuildStart this) b (queueFile this)
    (trace this).

Definition with_queueFile (f : File) (this : BuildQueue) : BuildQueue :=
  mkBuildQueue (maxConcurrent this) (adminIds this) (queue this)
    (activeBuilds this) (stats this) (onBuildStart this) (onQueueUpdate this)
    f (trace this).

(** One console line or callback invocation. *)
Definition emit (e : Event) (this : BuildQueue) : BuildQueue :=
  mkBuildQueue (maxConcurrent this) (adminIds this) (queue this)
    (activeBuilds this) (stats this) (onBuildStart this) (onQueueUpdate this)
    (queueFile this) (trace this ++ [e]).

(** Several of them, in order. *)
Definition emitAll (events : list Event) (this : BuildQueue) : BuildQueue :=
  mkBuildQueue (maxConcurrent this) (adminIds this) (queue this)
    (activeBuilds this) (stats this) (onBuildStart this) (onQueueUpdate this)
    (queueFile this) (trace this ++ events).

Definition MAX_BUILD_TIME : Z := 45 * 60 * 1000.
Definition INACTIVITY_TIMEOUT : Z := 10 * 60 * 1000.

Definition initialStats : Stats := mkStats 0 0 0 0.

(* ------------------------------------------------------------------ *)
(** ** Methods *)

(** [isAdmin(chatId)] *)
Definition isAdmin (chatId : ChatId) (this : BuildQueue) : bool :=
  existsb (String.eqb (String_ chatId)) (adminIds this).

(** [load()]: a missing file leaves the object as it is; a file that does
    not parse (or parses to [null]) throws inside the [try] and is logged. *)
Definition load (this : BuildQueue) : BuildQueue :=
  match queueFile this with
  | FileMissing => this
  | FileCorrupt => emit LogLoadFailed this
  | FileDoc data =>
      let this := with_queue (match doc_queue data with
                              | Some q => q
                              | None => []
                              end) this in
      let this := with_stats (match doc_stats data with
                              | Some st => st
                              | None => stats this
                              end) this in
      emit (LogLoaded (List.length (queue this))) this
  end.

(** [save()] *)
Definition save (now : Z) (this : BuildQueue) : BuildQueue :=
  with_queueFile
    (FileDoc (mkDocument (Some (queue this)) (Some (stats this)) (Some now)))
    this.

(** [parseInt(process.env.MAX_CONCURRENT_BUILDS) || 1], then the clamp.
    [parsed] is the result of [parseInt]; [None] is [NaN]. *)
Definition configuredMax (parsed : option Z) : Z :=
  let maxConcurrent := match parsed with
                       | Some n => if n =? 0 then 1 else n
                       | None => 1
                       end in
  Z.max 1 (Z.min maxConcurrent 4).

(** [constructor()]. [admins] is [ADMIN_IDS] after [split] and [trim];
    [file] is what lies on disk when the process starts. The watchdog timer
    started at the end is the operation [checkStuckBuilds] below. *)
Definition constructor (parsed : option Z) (admins : list string) (file : File)
  : BuildQueue :=
  let this := mkBuildQueue (configuredMax parsed) admins [] [] initialStats
                false false file [] in
  let this := load this in
  let this := emit (LogConfig (maxConcurrent this)) this in
  let this := emit (LogStats (stats this)) this in
  emit (LogAdmins (List.length (adminIds this))) this.

(** [updateActivity(chatId = null)] *)
Definition updateActivity (now : Z) (chatId : option ChatId) (this : BuildQueue)
  : BuildQueue :=
  let touch (b : BuildInfo.t) :=
    BuildInfo.mk (BuildInfo.startTime b) now (BuildInfo.buildData b)
      (BuildInfo.type b) (BuildInfo.userName b) in
  match chatId with
  | Some c =>
      if truthy c && JsMap.has c (activeBuilds this) then
        with_activeBuilds
          (List.map (fun kv => if chatId_eqb (fst kv) c
                               then (fst kv, touch (snd kv)) else kv)
             (activeBuilds this)) this
      else
        with_activeBuilds
          (List.map (fun kv => (fst kv, touch (snd kv))) (activeBuilds this)) this
  | None =>
      with_activeBuilds
        (List.map (fun kv => (fst kv, touch (snd kv))) (activeBuilds this)) this
  end.

(** [isBusy()] *)
Definition isBusy (this : BuildQueue) : bool :=
  JsMap.size (activeBuilds this) >=? maxConcurrent this.

(** [getStats()] *)
Definition getStats (this : BuildQueue) : Stats :=
  let avgTime :=
    if success (stats this) >? 0
    then Math_round (inject_Z (totalTime (stats this))
                     / inject_Z (success (stats this)) / 1000)%Q
    else 0 in
  mkStats (success (stats this)) (failed (stats this)) (total (stats this)) avgTime.

(** [getUserPosition(chatId)] *)
Definition getUserPosition (chatId : ChatId) (this : BuildQueue) : Z :=
  let index := findIndex (fun item => chatId_eqb (QueueItem.chatId item) chatId)
                 (queue this) in
  if index >=? 0 then index + 1 else 0.

(** [getEstimatedWait(position)] *)
Definition getEstimatedWait (position : Z) (this : BuildQueue) : Z :=
  let avgTime :=
    if success (stats this) >? 0
    then Math_round (inject_Z (totalTime (stats this))
                     / inject_Z (success (stats this)) / 1000 / 60)%Q
    else 3 in
  let waitPosition :=
    Z.max 0 (position - (maxConcurrent this - JsMap.size (activeBuilds this))) in
  Z.max 1 (Math_ceil (inject_Z waitPosition * inject_Z avgTime
                      / inject_Z (maxConcurrent this))%Q).

(** [hasPendingBuild(chatId)] *)
Definition hasPendingBuild (chatId : ChatId) (this : BuildQueue) : bool :=
  existsb (fun item => chatId_eqb (QueueItem.chatId item) chatId) (queue this).

(** [hasActiveBuild(chatId)] *)
Definition hasActiveBuild (chatId : ChatId) (this : BuildQueue) : bool :=
  JsMap.has chatId (activeBuilds this).

(** The calls of the position callback that [notifyQueueUpdates] makes
    before it first awaits: the one for the first request,
    [onQueueUpdate(item.chatId, 1, this.queue.length, this.getEstimatedWait(1))],
    and none on an empty queue. The calls for the requests behind the first
    come after the [await], from the queue as it is by then. *)
Definition queueUpdates (this : BuildQueue) : list Event :=
  match queue this with
  | [] => []
  | item :: _ =>
      [CallQueueUpdate (QueueItem.chatId item) 1
         (Z.of_nat (List.length (queue this))) (getEstimatedWait 1 this)]
  end.

(** [notifyQueueUpdates()], up to its first [await]: fire-and-forget; it
    reads the queue and calls the position callback, and changes nothing in
    the object. *)
Definition notifyQueueUpdates (this : BuildQueue) : BuildQueue :=
  if onQueueUpdate this then emitAll (queueUpdates this) this else this.

(** [removeFromQueue(chatId)] *)
Definition removeFromQueue (now : Z) (chatId : ChatId) (this : BuildQueue)
  : bool * BuildQueue :=
  let index := findIndex (fun item => chatId_eqb (QueueItem.chatId item) chatId)
                 (queue this) in
  if index >=? 0 then
    let this := with_queue (splice_remove index (queue this)) this in
    let this := save now this in
    let this := emit (LogRemoved chatId) this in
    let this := notifyQueueUpdates this in
    (true, this)
  else (false, this).

(** [acquire(chatId, buildData, type, userName)] *)
Definition acquire (now : Z) (chatId : ChatId) (buildData : BuildData)
  (type : BuildType) (userName : string) (this : BuildQueue)
  : bool * BuildQueue :=
  if JsMap.has chatId (activeBuilds this) then
    (false, emit (LogAlreadyBuilding chatId) this)
  else if JsMap.size (activeBuilds this) >=? maxConcurrent this then
    (false, emit (LogFull (JsMap.size (activeBuilds this)) (maxConcurrent this)) this)
  else
    let this :=
      with_activeBuilds
        (JsMap.set chatId (BuildInfo.mk now now buildData type userName)
           (activeBuilds this)) this in
    (true, emit (LogStarted chatId userName (JsMap.size (activeBuilds this))
                   (maxConcurrent this)) this).

(** [release(chatId, success)] up to, and without, its last statement
    [this.processNext()]; [None] is the early return for an identity that
    has no active build. *)
Definition release_begin (now : Z) (chatId : ChatId) (ok : bool)
  (this : BuildQueue) : option BuildQueue :=
  match JsMap.get chatId (activeBuilds this) with
  | None => None
  | Some build =>
      let duration := now - BuildInfo.startTime build in
      let st := stats this in
      let this :=
        if ok
        then with_stats (mkStats (success st + 1) (failed st) (total st)
                           (totalTime st + duration)) this
        else with_stats (mkStats (success st) (failed st + 1) (total st)
                           (totalTime st)) this in
      let durationSec := Math_round (inject_Z duration / 1000)%Q in
      let this := emit (LogCompleted chatId ok durationSec) this in
      let this := with_activeBuilds (JsMap.delete chatId (activeBuilds this)) this in
      Some (save now this)
  end.

Definition inspect {A : Type} (a : A) : {b : A | a = b} := exist _ a eq_refl.

(** [processNext()], the synchronous part. With no start callback the
    [else] branch runs [release(nextBuild.chatId, false)] at once, which
    ends in [processNext()] again: the recursion is on the queue, which the
    call has just shortened. With a callback, what the callback does, and
    the [catch] that releases after a rejected start, happen later and are
    operations of their own. *)
Equations? processNext (now : Z) (this : BuildQueue) : BuildQueue
  by wf (List.length (queue this)) lt :=
processNext now this with inspect (queue this) := {
  | exist _ [] _ => emit LogNoPending this
  | exist _ (nextBuild :: rest) Hq with isBusy this := {
    | true =>
        emit (LogStillBusy (JsMap.size (activeBuilds this)) (maxConcurrent this)) this
    | false with inspect
        (acquire now (QueueItem.chatId nextBuild) (QueueItem.buildData nextBuild)
           (QueueItem.type nextBuild) (QueueItem.userName nextBuild)
           (emit (LogAutoStarting (QueueItem.chatId nextBuild)
                    (QueueItem.userName nextBuild))
              (with_queue rest this))) := {
      | exist _ (false, this1) _ =>
          let this1 := emit (LogAcquireFailed (QueueItem.chatId nextBuild)) this1 in
          let this1 := with_queue (nextBuild :: queue this1) this1 in
          save now this1
      | exist _ (true, this1) Hacq with inspect (onBuildStart this1) := {
        | exist _ true _ =>
            emit (CallBuildStart (QueueItem.chatId nextBuild)
                    (QueueItem.buildData nextBuild) (QueueItem.type nextBuild)
                    (QueueItem.userName nextBuild))
              (notifyQueueUpdates (save now this1))
        | exist _ false _ with inspect
            (release_begin now (QueueItem.chatId nextBuild) false
               (emit LogCallbackNotSet (notifyQueueUpdates (save now this1)))) := {
          | exist _ None _ =>
              emit (LogReleaseNonExistent (QueueItem.chatId nextBuild))
                (emit LogCallbackNotSet (notifyQueueUpdates (save now this1)))
          | exist _ (Some this2) Hrel => processNext now this2 } } } } }.
Proof.
  assert (Hq1 : queue this1 = rest).
  { unfold acquire in Hacq.
    destruct (JsMap.has _ _); [discriminate|].
    destruct (_ >=? _); [discriminate|].
    inversion Hacq; reflexivity. }
  assert (Hq2 : queue this2 = rest).
  { unfold release_begin in Hrel.
    destruct (JsMap.get _ _); [|discriminate].
    inversion Hrel; subst this2; clear Hrel.
    unfold notifyQueueUpdates.
    destruct (onQueueUpdate _); simpl; assumption. }
  rewrite Hq2, Hq. simpl. lia.
Qed.

(** [release(chatId, success = true)] *)
Definition release (now : Z) (chatId : ChatId) (ok : bool) (this : BuildQueue)
  : BuildQueue :=
  match release_begin now chatId ok this with
  | None => emit (LogReleaseNonExistent chatId) this
  | Some this => processNext now this
  end.

(** The scan of [checkStuckBuilds]: which timeout, if any, a build has hit.
    [build.lastActivity || build.startTime] falls back on a falsy (zero)
    [lastActivity]. *)
Inductive StuckReason : Type := ReasonTimeout | ReasonInactive.

Definition stuckReason (now : Z) (build : BuildInfo.t) : option StuckReason :=
  let totalTime := now - BuildInfo.startTime build in
  let inactiveTime :=
    now - (if BuildInfo.lastActivity build =? 0
           then BuildInfo.startTime build
           else BuildInfo.lastActivity build) in
  if totalTime >? MAX_BUILD_TIME then Some ReasonTimeout
  else if inactiveTime >? INACTIVITY_TIMEOUT then Some ReasonInactive
  else None.

(** The first loop of [checkStuckBuilds], over the entries in [Map] order. *)
Fixpoint scanStuck (now : Z) (entries : list (ChatId * BuildInfo.t))
  (toRelease : list (ChatId * StuckReason)) (this : BuildQueue)
  : list (ChatId * StuckReason) * BuildQueue :=
  match entries with
  | [] => (toRelease, this)
  | (chatId, build) :: rest =>
      match stuckReason now build with
      | Some ReasonTimeout =>
          scanStuck now rest (toRelease ++ [(chatId, ReasonTimeout)])
            (emit (LogBuildTimeout chatId) this)
      | Some ReasonInactive =>
          scanStuck now rest (toRelease ++ [(chatId, ReasonInactive)])
            (emit (LogBuildInactive chatId) this)
      | None => scanStuck now rest toRelease this
      end
  end.

(** The second loop of [checkStuckBuilds]. *)
Fixpoint releaseAll (now : Z) (toRelease : list (ChatId * StuckReason))
  (this : BuildQueue) : BuildQueue :=
  match toRelease with
  | [] => this
  | (chatId, _) :: rest => releaseAll now rest (release now chatId false this)
  end.

(** [checkStuckBuilds()] *)
Definition checkStuckBuilds (now : Z) (this : BuildQueue) : BuildQueue :=
  if JsMap.size (activeBuilds this) =? 0 then this
  else
    let '(toRelease, this) := scanStuck now (activeBuilds this) [] this in
    releaseAll now toRelease this.

(** The loop of [addToQueue] that finds where a priority request goes. *)
Fixpoint insertIndex_from (q : list QueueItem.t) (i : nat) : nat :=
  match q with
  | [] => i
  | item :: rest =>
      if negb (QueueItem.priority item) then i else insertIndex_from rest (S i)
  end.

(** What [addToQueue] returns (the message text left out). *)
Record AddResult : Type := mkAddResult {
  queued : bool;
  position : Z;
  immediate : bool;
  buildId : option string;
  estimatedWait : option Z;
  isPriority : option bool
}.

(** [addToQueue(chatId, buildData, type, userName)] *)
Definition addToQueue (now : Z) (chatId : ChatId) (buildData : BuildData)
  (type : BuildType) (userName : string) (this : BuildQueue)
  : AddResult * BuildQueue :=
  let '(_, this) := removeFromQueue now chatId this in
  let st := stats this in
  let this := with_stats (mkStats (success st) (failed st) (total st + 1)
                            (totalTime st)) this in
  let isPriority := isAdmin chatId this in
  let '(started, this) :=
    if negb (isBusy this) && negb (JsMap.has chatId (activeBuilds this))
    then acquire now chatId buildData type userName this
    else (false, this) in
  if started then
    (mkAddResult true 0 true None None None, save now this)
  else
    let queueItem :=
      QueueItem.mk ("build_" ++ string_of_Z now ++ "_" ++ String_ chatId)
        chatId userName buildData type isPriority now "waiting" in
    let this :=
      if isPriority then
        let insertIndex := insertIndex_from (queue this) 0 in
        let this := with_queue (splice_insert insertIndex queueItem (queue this))
                      this in
        emit (LogPriorityQueued chatId (Z.of_nat insertIndex + 1)) this
      else
        let this := with_queue (queue this ++ [queueItem]) this in
        emit (LogQueued chatId (Z.of_nat (List.length (queue this)))) this in
    let this := save now this in
    let position := getUserPosition chatId this in
    let estimatedWait := getEstimatedWait position this in
    (mkAddResult true position false (Some (QueueItem.id queueItem))
       (Some estimatedWait) (Some isPriority), this).

(** [forceRelease(chatId = null)]; a falsy identity takes the [else]. *)
Definition forceRelease (now : Z) (chatId : option ChatId) (this : BuildQueue)
  : BuildQueue :=
  let releaseAllSlots (this : BuildQueue) :=
    let this := emit LogForceReleaseAll this in
    let this := with_activeBuilds (JsMap.clear (activeBuilds this)) this in
    processNext now this in
  let this :=
    match chatId with
    | Some c =>
        if truthy c then
          if JsMap.has c (activeBuilds this) then
            let this := emit (LogForceRelease c) this in
            let this := with_activeBuilds (JsMap.delete c (activeBuilds this))
                          this in
            processNext now this
          else this
        else releaseAllSlots this
    | None => releaseAllSlots this
    end in
  save now this.

(** [resetStats()] *)
Definition resetStats (now : Z) (this : BuildQueue) : bool * BuildQueue :=
  (true, save now (with_stats (mkStats 0 0 0 0) this)).

(** [clearQueue()] *)
Definition clearQueue (now : Z) (this : BuildQueue) : Z * BuildQueue :=
  let count := Z.of_nat (List.length (queue this)) in
  (count, save now (with_queue [] this)).

(* ------------------------------------------------------------------ *)
(** ** Sequences of calls *)

(** One call on the singleton, by a front end, by the executor or by the
    watchdog timer. *)
Inductive Op : Type :=
| OpSetOnBuildStart (registered : bool)
| OpSetOnQueueUpdate (registered : bool)
| OpAddToQueue (now : Z) (chatId : ChatId) (buildData : BuildData)
    (type : BuildType) (userName : string)
| OpRemoveFromQueue (now : Z) (chatId : ChatId)
| OpAcquire (now : Z) (chatId : ChatId) (buildData : BuildData)
    (type : BuildType) (userName : string)
| OpRelease (now : Z) (chatId : ChatId) (ok : bool)
| OpProcessNext (now : Z)
| OpCheckStuckBuilds (now : Z)
| OpUpdateActivity (now : Z) (chatId : option ChatId)
| OpForceRelease (now : Z) (chatId : option ChatId)
| OpResetStats (now : Z)
| OpClearQueue (now : Z).

Definition step (this : BuildQueue) (op : Op) : BuildQueue :=
  match op with
  | OpSetOnBuildStart b => with_onBuildStart b this
  | OpSetOnQueueUpdate b => with_onQueueUpdate b this
  | OpAddToQueue now c d t u => snd (addToQueue now c d t u this)
  | OpRemoveFromQueue now c => snd (removeFromQueue now c this)
  | OpAcquire now c d t u => snd (acquire now c d t u this)
  | OpRelease now c ok => release now c ok this
  | OpProcessNext now => processNext now this
  | OpCheckStuckBuilds now => checkStuckBuilds now this
  | OpUpdateActivity now c => updateActivity now c this
  | OpForceRelease now c => forceRelease now c this
  | OpResetStats now => snd (resetStats now this)
  | OpClearQueue now => snd (clearQueue now this)
  end.

Definition run (ops : list Op) (this : BuildQueue) : BuildQueue :=
  fold_left step ops this.

(** Every state the object goes through, the first one included. *)
Fixpoint states (ops : list Op) (this : BuildQueue) : list BuildQueue :=
  match ops with
  | [] => [this]
  | op :: rest => this :: states rest (step this op)
  end.

(* ------------------------------------------------------------------ *)
(** ** Vocabulary of the properties *)

(** Identities that have a pending request, in queue order. *)
Definition queueIds (this : BuildQueue) : list ChatId :=
  List.map QueueItem.chatId (queue this).

(** Identities that occupy a slot, in [Map] order. *)
Definition activeIds (this : BuildQueue) : list ChatId :=
  JsMap.keys (activeBuilds this).

(** "No identity is at once in the queue and in the registry, nor twice in
    the queue." *)
Definition noDuplicateOccupancy (this : BuildQueue) : Prop :=
  (forall c, ~ (In c (queueIds this) /\ In c (activeIds this)))
  /\ NoDup (queueIds this).

(** The capacity bound. *)
Definition withinCapacity (this : BuildQueue) : Prop :=
  JsMap.size (activeBuilds this) <= maxConcurrent this.

(** The two buckets of a queue, each in queue order. *)
Definition priorityBucket (q : list QueueItem.t) : list QueueItem.t :=
  List.filter QueueItem.priority q.

Definition normalBucket (q : list QueueItem.t) : list QueueItem.t :=
  List.filter (fun item => negb (QueueItem.priority item)) q.

(** All priority entries, then all the others. *)
Definition twoBuckets (q : list QueueItem.t) : Prop :=
  q = priorityBucket q ++ normalBucket q.

(** Every call of [processNext] prints exactly one of three lines before it
    does anything else; counting them counts the calls. *)
Definition opensProcessNext (e : Event) : bool :=
  match e with
  | LogNoPending | LogStillBusy _ _ | LogAutoStarting _ _ => true
  | _ => false
  end.

Definition processNextCalls (tr : list Event) : nat :=
  List.length (List.filter opensProcessNext tr).

(** The document that [save] writes for a given queue and statistics. *)
Definition persisted (this : BuildQueue) : option (list QueueItem.t * Stats) :=
  match queueFile this with
  | FileDoc (mkDocument (Some q) (Some st) _) => Some (q, st)
  | _ => None
  end.

(** The wait estimate as the specification words it: the average is the
    cumulative duration of the successes divided by their number, taken as
    minutes, with a fallback when there is no success yet. Two readings of
    the unit are given: the quotient converted from milliseconds to minutes,
    and the quotient as it stands. *)
Definition spec_estimatedWait (fallback : Q) (minutesOf : Q -> Q)
  (position : Z) (this : BuildQueue) : Z :=
  let avgMinutes : Q :=
    if success (stats this) >? 0
    then minutesOf (inject_Z (totalTime (stats this))
                    / inject_Z (success (stats this)))%Q
    else fallback in
  let effectivePositionAhead :=
    Z.max 0 (position - (maxConcurrent this - JsMap.size (activeBuilds this))) in
  Z.max 1 (Math_ceil (inject_Z effectivePositionAhead * avgMinutes
                      / inject_Z (maxConcurrent this))%Q).

Definition msToMinutes (x : Q) : Q := (x / 60000)%Q.
Definition asItStands (x : Q) : Q := x.

(** A build is flagged by the watchdog when either budget is exceeded. *)
Definition overBudget (now : Z) (build : BuildInfo.t) : bool :=
  (now - BuildInfo.startTime build >? MAX_BUILD_TIME)
  || (now - BuildInfo.lastActivity build >? INACTIVITY_TIMEOUT).

(* ------------------------------------------------------------------ *)
(** ** Reading fields through the setters *)

Lemma notify_fields this :
  queue (notifyQueueUpdates this) = queue this
  /\ activeBuilds (notifyQueueUpdates this) = activeBuilds this
  /\ stats (notifyQueueUpdates this) = stats this
  /\ maxConcurrent (notifyQueueUpdates this) = maxConcurrent this
  /\ onBuildStart (notifyQueueUpdates this) = onBuildStart this
  /\ queueFile (notifyQueueUpdates this) = queueFile this
  /\ adminIds (notifyQueueUpdates this) = adminIds this
  /\ onQueueUpdate (notifyQueueUpdates this) = onQueueUpdate this.
Proof.
  unfold notifyQueueUpdates. destruct (onQueueUpdate this) eqn:E; simpl; auto 10.
Qed.

Lemma notify_queue this : queue (notifyQueueUpdates this) = queue this.
Proof. apply notify_fields. Qed.

Lemma notify_active this : activeBuilds (notifyQueueUpdates this) = activeBuilds this.
Proof. apply notify_fields. Qed.

Lemma notify_stats this : stats (notifyQueueUpdates this) = stats this.
Proof. apply notify_fields. Qed.

Lemma notify_max this : maxConcurrent (notifyQueueUpdates this) = maxConcurrent this.
Proof. apply notify_fields. Qed.

Lemma notify_onBuildStart this : onBuildStart (notifyQueueUpdates this) = onBuildStart this.
Proof. apply notify_fields. Qed.

Lemma notify_file this : queueFile (notifyQueueUpdates this) = queueFile this.
Proof. apply notify_fields. Qed.

Lemma notify_admins this : adminIds (notifyQueueUpdates this) = adminIds this.
Proof. apply notify_fields. Qed.

Lemma notify_onQueueUpdate this :
  onQueueUpdate (notifyQueueUpdates this) = onQueueUpdate this.
Proof. apply notify_fields. Qed.

Create Rewrite HintDb fields.

#[local] Hint Rewrite notify_queue notify_active notify_stats notify_max
  notify_onBuildStart notify_file notify_admins notify_onQueueUpdate : fields.

Ltac fields := repeat (progress (autorewrite with fields in *; cbn [
  queue activeBuilds stats maxConcurrent onBuildStart onQueueUpdate queueFile
  adminIds trace with_queue with_activeBuilds with_stats with_onBuildStart
  with_onQueueUpdate with_queueFile emit emitAll save fst snd
  success failed total totalTime] in *)).

(* ------------------------------------------------------------------ *)
(** ** [JsMap] *)

Lemma chatId_eqb_eq a b : chatId_eqb a b = true <-> a = b.
Proof.
  destruct a, b; simpl; split; intros H; try discriminate; try reflexivity.
  - apply Z.eqb_eq in H. congruence.
  - inversion H. apply Z.eqb_refl.
  - apply String.eqb_eq in H. congruence.
  - inversion H. apply String.eqb_refl.
Qed.

Lemma chatId_eqb_refl a : chatId_eqb a a = true.
Proof. apply chatId_eqb_eq. reflexivity. Qed.

Lemma chatId_eqb_neq a b : chatId_eqb a b = false <-> a <> b.
Proof.
  split.
  - intros H E. apply chatId_eqb_eq in E. congruence.
  - intros H. destruct (chatId_eqb a b) eqn:E; [|reflexivity].
    apply chatId_eqb_eq in E. contradiction.
Qed.

Lemma chatId_eqb_sym a b : chatId_eqb a b = chatId_eqb b a.
Proof.
  destruct (chatId_eqb a b) eqn:E.
  - apply chatId_eqb_eq in E. subst. symmetry. apply chatId_eqb_refl.
  - apply chatId_eqb_neq in E. symmetry. apply chatId_eqb_neq. congruence.
Qed.

Section JsMapFacts.
  Context {V : Type}.
  Implicit Types (m : JsMap.t V) (k : ChatId) (v : V).

Lemma has_In_keys k m : JsMap.has k m = true <-> In k (JsMap.keys m).
  Proof.
    unfold JsMap.has. induction m as [|[k' v'] m IH]; simpl.
    - split; [discriminate | tauto].
    - destruct (chatId_eqb k' k) eqn:E.
      + apply chatId_eqb_eq in E. subst. tauto.
      + apply chatId_eqb_neq in E. rewrite IH. tauto.
  Qed.

Lemma has_false_not_In k m : JsMap.has k m = false <-> ~ In k (JsMap.keys m).
  Proof.
    rewrite <- has_In_keys. destruct (JsMap.has k m); split; congruence.
  Qed.

Lemma get_None_has k m : JsMap.get k m = None <-> JsMap.has k m = false.
  Proof. unfold JsMap.has. destruct (JsMap.get k m); split; congruence. Qed.

Lemma set_fresh k v m : JsMap.has k m = false -> JsMap.set k v m = m ++ [(k, v)].
  Proof.
    unfold JsMap.has. induction m as [|[k' v'] m IH]; simpl; [reflexivity|].
    destruct (chatId_eqb k' k); [discriminate|].
    intros H. rewrite IH by assumption. reflexivity.
  Qed.

Lemma delete_absent k m : JsMap.has k m = false -> JsMap.delete k m = m.
  Proof.
    unfold JsMap.has, JsMap.delete.
    induction m as [|[k' v'] m IH]; simpl; [reflexivity|].
    destruct (chatId_eqb k' k); [discriminate|].
    intros H. simpl. rewrite IH by assumption. reflexivity.
  Qed.

Lemma delete_app k m1 m2 :
    JsMap.delete k (m1 ++ m2) = JsMap.delete k m1 ++ JsMap.delete k m2.
  Proof. unfold JsMap.delete. apply filter_app. Qed.

Lemma delete_length k m : (List.length (JsMap.delete k m) <= List.length m)%nat.
  Proof. unfold JsMap.delete. apply filter_length_le. Qed.

Lemma delete_has k k' m :
    JsMap.has k' (JsMap.delete k m) = negb (chatId_eqb k' k) && JsMap.has k' m.
  Proof.
    unfold JsMap.has, JsMap.delete.
    induction m as [|[k0 v0] m IH]; simpl.
    - rewrite andb_false_r. reflexivity.
    - destruct (chatId_eqb k0 k) eqn:E0; simpl.
      + apply chatId_eqb_eq in E0. subst k0.
        destruct (chatId_eqb k k') eqn:E1.
        * apply chatId_eqb_eq in E1. subst. rewrite IH, chatId_eqb_refl. reflexivity.
        * exact IH.
      + destruct (chatId_eqb k0 k') eqn:E1.
        * apply chatId_eqb_eq in E1. subst k0. rewrite E0. reflexivity.
        * exact IH.
  Qed.

Lemma delete_In kv k m :
    In kv (JsMap.delete k m) <-> In kv m /\ fst kv <> k.
  Proof.
    unfold JsMap.delete. rewrite filter_In, negb_true_iff, chatId_eqb_neq.
    tauto.
  Qed.
End JsMapFacts.

(* ------------------------------------------------------------------ *)
(** ** [processNext]: its equation and its cases *)

(** The body of [processNext] as the source has it, with the call of
    [release] in the branch without a start callback. *)
Lemma processNext_eq now this :
  processNext now this =
  match queue this with
  | [] => emit LogNoPending this
  | nextBuild :: rest =>
      if isBusy this then
        emit (LogStillBusy (JsMap.size (activeBuilds this)) (maxConcurrent this)) this
      else
        let this0 := emit (LogAutoStarting (QueueItem.chatId nextBuild)
                             (QueueItem.userName nextBuild)) (with_queue rest this) in
        let '(acquired, this1) :=
          acquire now (QueueItem.chatId nextBuild) (QueueItem.buildData nextBuild)
            (QueueItem.type nextBuild) (QueueItem.userName nextBuild) this0 in
        if negb acquired then
          let this1 := emit (LogAcquireFailed (QueueItem.chatId nextBuild)) this1 in
          let this1 := with_queue (nextBuild :: queue this1) this1 in
          save now this1
        else
          let this1 := save now this1 in
          let this1 := notifyQueueUpdates this1 in
          if onBuildStart this1 then
            emit (CallBuildStart (QueueItem.chatId nextBuild)
                    (QueueItem.buildData nextBuild) (QueueItem.type nextBuild)
                    (QueueItem.userName nextBuild)) this1
          else
            release now (QueueItem.chatId nextBuild) false
              (emit LogCallbackNotSet this1)
  end.
Proof.
  funelim (processNext now this).
  all: rewrite <- ?Heqcall; clear Heqcall.
  all: repeat match goal with
         | H : queue _ = _ :: _ |- _ => rewrite H
         | H : queue _ = [] |- _ => rewrite H
         | H : isBusy _ = _ |- _ => rewrite H
         | H : acquire _ _ _ _ _ _ = _ |- _ => cbv zeta; rewrite H
         end.
  all: cbn [negb]; try reflexivity.
  all: match goal with
       | H : onBuildStart ?x = _ |- _ =>
           replace (onBuildStart (notifyQueueUpdates (save now x)))
             with (onBuildStart x)
             by (unfold notifyQueueUpdates; destruct (onQueueUpdate _); reflexivity);
           rewrite H
       end.
  all: try reflexivity.
  all: unfold release;
       match goal with H : release_begin _ _ _ _ = _ |- _ => rewrite H end;
       reflexivity.
Qed.

(** The states [processNext] goes through when it pops [nextBuild]. *)
Definition autoStarting (nextBuild : QueueItem.t) (rest : list QueueItem.t)
  (this : BuildQueue) : BuildQueue :=
  emit (LogAutoStarting (QueueItem.chatId nextBuild) (QueueItem.userName nextBuild))
    (with_queue rest this).

Definition freshBuild (now : Z) (item : QueueItem.t) : BuildInfo.t :=
  BuildInfo.mk now now (QueueItem.buildData item) (QueueItem.type item)
    (QueueItem.userName item).

(** After a successful [acquire] for the popped head, saved and notified. *)
Definition promoted (now : Z) (nextBuild : QueueItem.t) (rest : list QueueItem.t)
  (this : BuildQueue) : BuildQueue :=
  notifyQueueUpdates
    (save now
       (emit (LogStarted (QueueItem.chatId nextBuild) (QueueItem.userName nextBuild)
                (JsMap.size (activeBuilds this) + 1) (maxConcurrent this))
          (with_activeBuilds
             (activeBuilds this ++ [(QueueItem.chatId nextBuild, freshBuild now nextBuild)])
             (autoStarting nextBuild rest this)))).

(** After the promoted head was released as failed for want of a start
    callback, just before the nested [processNext]. *)
Definition startFailed (now : Z) (nextBuild : QueueItem.t) (rest : list QueueItem.t)
  (this : BuildQueue) : BuildQueue :=
  let p := promoted now nextBuild rest this in
  save now
    (with_activeBuilds (activeBuilds this)
       (emit (LogCompleted (QueueItem.chatId nextBuild) false 0)
          (with_stats (mkStats (success (stats this)) (failed (stats this) + 1)
                         (total (stats this)) (totalTime (stats this)))
             (emit LogCallbackNotSet p)))).

Lemma size_app1 {V} (m : JsMap.t V) kv : JsMap.size (m ++ [kv]) = JsMap.size m + 1.
Proof. unfold JsMap.size. rewrite length_app. simpl. lia. Qed.

Lemma acquire_ok now c d t u this :
  JsMap.has c (activeBuilds this) = false ->
  isBusy this = false ->
  acquire now c d t u this =
  (true, emit (LogStarted c u (JsMap.size (activeBuilds this) + 1) (maxConcurrent this))
           (with_activeBuilds (activeBuilds this ++ [(c, BuildInfo.mk now now d t u)])
              this)).
Proof.
  intros Hhas Hbusy. unfold acquire, isBusy in *. rewrite Hhas, Hbusy.
  rewrite set_fresh by assumption. cbn [activeBuilds with_activeBuilds].
  rewrite size_app1. reflexivity.
Qed.

Lemma acquire_already now c d t u this :
  JsMap.has c (activeBuilds this) = true ->
  acquire now c d t u this = (false, emit (LogAlreadyBuilding c) this).
Proof. intros H. unfold acquire. rewrite H. reflexivity. Qed.

Lemma acquire_full now c d t u this :
  JsMap.has c (activeBuilds this) = false ->
  isBusy this = true ->
  acquire now c d t u this =
  (false, emit (LogFull (JsMap.size (activeBuilds this)) (maxConcurrent this)) this).
Proof. intros H B. unfold acquire, isBusy in *. rewrite H, B. reflexivity. Qed.

Lemma get_app_fresh {V} k (v : V) m :
  JsMap.has k m = false -> JsMap.get k (m ++ [(k, v)]) = Some v.
Proof.
  unfold JsMap.has. induction m as [|[k' v'] m IH]; simpl.
  - rewrite chatId_eqb_refl. reflexivity.
  - destruct (chatId_eqb k' k); [discriminate | exact IH].
Qed.

Lemma delete_app_fresh {V} k (v : V) m :
  JsMap.has k m = false -> JsMap.delete k (m ++ [(k, v)]) = m.
Proof.
  intros H. rewrite delete_app, delete_absent by assumption.
  unfold JsMap.delete. simpl. rewrite chatId_eqb_refl. simpl. apply app_nil_r.
Qed.

Lemma Math_round_zero : Math_round (inject_Z 0 / 1000)%Q = 0.
Proof. reflexivity. Qed.

Lemma processNext_empty now this :
  queue this = [] -> processNext now this = emit LogNoPending this.
Proof. intros H. rewrite processNext_eq, H. reflexivity. Qed.

Lemma processNext_busy now this :
  queue this <> [] -> isBusy this = true ->
  processNext now this =
  emit (LogStillBusy (JsMap.size (activeBuilds this)) (maxConcurrent this)) this.
Proof.
  intros H B. rewrite processNext_eq, B. destruct (queue this); congruence.
Qed.

Lemma processNext_pushback now this nextBuild rest :
  queue this = nextBuild :: rest -> isBusy this = false ->
  JsMap.has (QueueItem.chatId nextBuild) (activeBuilds this) = true ->
  processNext now this =
  save now
    (with_queue (nextBuild :: rest)
       (emit (LogAcquireFailed (QueueItem.chatId nextBuild))
          (emit (LogAlreadyBuilding (QueueItem.chatId nextBuild))
             (autoStarting nextBuild rest this)))).
Proof.
  intros Hq B Hhas. rewrite processNext_eq, Hq, B. cbv zeta.
  rewrite acquire_already by exact Hhas. reflexivity.
Qed.

Lemma processNext_start now this nextBuild rest :
  queue this = nextBuild :: rest -> isBusy this = false ->
  JsMap.has (QueueItem.chatId nextBuild) (activeBuilds this) = false ->
  onBuildStart this = true ->
  processNext now this =
  emit (CallBuildStart (QueueItem.chatId nextBuild) (QueueItem.buildData nextBuild)
          (QueueItem.type nextBuild) (QueueItem.userName nextBuild))
    (promoted now nextBuild rest this).
Proof.
  intros Hq B Hhas Hcb. rewrite processNext_eq, Hq, B. cbv zeta.
  rewrite acquire_ok by assumption. cbn [negb].
  rewrite notify_onBuildStart. cbn [onBuildStart save emit with_activeBuilds
    with_queue with_queueFile]. rewrite Hcb. reflexivity.
Qed.

Lemma processNext_unset now this nextBuild rest :
  queue this = nextBuild :: rest -> isBusy this = false ->
  JsMap.has (QueueItem.chatId nextBuild) (activeBuilds this) = false ->
  onBuildStart this = false ->
  processNext now this = processNext now (startFailed now nextBuild rest this).
Proof.
  intros Hq B Hhas Hcb. rewrite processNext_eq, Hq, B. cbv zeta.
  rewrite acquire_ok by assumption. cbn [negb].
  rewrite notify_onBuildStart. cbn [onBuildStart save emit with_activeBuilds
    with_queue with_queueFile]. rewrite Hcb.
  unfold release, release_begin.
  cbn [activeBuilds emit]. rewrite notify_active.
  cbn [activeBuilds save emit with_activeBuilds with_queue with_queueFile].
  rewrite get_app_fresh by assumption.
  cbv zeta. cbn [BuildInfo.startTime]. rewrite Z.sub_diag, Math_round_zero.
  f_equal. unfold startFailed, promoted, autoStarting, freshBuild.
  cbn [activeBuilds stats emit with_stats with_activeBuilds].
  rewrite notify_active, notify_stats.
  cbn [activeBuilds stats save emit with_stats with_activeBuilds with_queue
         with_queueFile].
  rewrite delete_app_fresh by assumption. reflexivity.
Qed.

Lemma startFailed_queue now nextBuild rest this :
  queue (startFailed now nextBuild rest this) = rest.
Proof. unfold startFailed, promoted, autoStarting. fields. reflexivity. Qed.

(** Induction over the calls of [processNext]: four ways to return, and the
    nested call after a start without callback. *)
Lemma processNext_induction now (P : BuildQueue -> BuildQueue -> Prop) :
  (forall this, queue this = [] -> P this (emit LogNoPending this)) ->
  (forall this, queue this <> [] -> isBusy this = true ->
     P this (emit (LogStillBusy (JsMap.size (activeBuilds this))
                     (maxConcurrent this)) this)) ->
  (forall this nextBuild rest,
     queue this = nextBuild :: rest -> isBusy this = false ->
     JsMap.has (QueueItem.chatId nextBuild) (activeBuilds this) = true ->
     P this (save now
               (with_queue (nextBuild :: rest)
                  (emit (LogAcquireFailed (QueueItem.chatId nextBuild))
                     (emit (LogAlreadyBuilding (QueueItem.chatId nextBuild))
                        (autoStarting nextBuild rest this)))))) ->
  (forall this nextBuild rest,
     queue this = nextBuild :: rest -> isBusy this = false ->
     JsMap.has (QueueItem.chatId nextBuild) (activeBuilds this) = false ->
     onBuildStart this = true ->
     P this (emit (CallBuildStart (QueueItem.chatId nextBuild)
                     (QueueItem.buildData nextBuild) (QueueItem.type nextBuild)
                     (QueueItem.userName nextBuild))
               (promoted now nextBuild rest this))) ->
  (forall this nextBuild rest,
     queue this = nextBuild :: rest -> isBusy this = false ->
     JsMap.has (QueueItem.chatId nextBuild) (activeBuilds this) = false ->
     onBuildStart this = false ->
     P (startFailed now nextBuild rest this)
       (processNext now (startFailed now nextBuild rest this)) ->
     P this (processNext now (startFailed now nextBuild rest this))) ->
  forall this, P this (processNext now this).
Proof.
  intros Hempty Hbusy Hpush Hstart Hrec this.
  remember (List.length (queue this)) as n eqn:Hn.
  revert this Hn. induction n as [n IH] using lt_wf_ind. intros this Hn.
  destruct (queue this) as [|nextBuild rest] eqn:Hq.
  - rewrite processNext_empty by assumption. auto.
  - destruct (isBusy this) eqn:B.
    + rewrite processNext_busy by congruence. apply Hbusy; congruence.
    + destruct (JsMap.has (QueueItem.chatId nextBuild) (activeBuilds this)) eqn:Hhas.
      * rewrite (processNext_pushback now this nextBuild rest) by assumption.
        auto.
      * destruct (onBuildStart this) eqn:Hcb.
        -- rewrite (processNext_start now this nextBuild rest) by assumption.
           auto.
        -- rewrite (processNext_unset now this nextBuild rest) by assumption.
           apply Hrec; try assumption.
           apply (IH (List.length rest)).
           ++ subst n. simpl. lia.
           ++ rewrite startFailed_queue. reflexivity.
Qed.

Lemma promoted_fields now nb rest this :
  queue (promoted now nb rest this) = rest
  /\ activeBuilds (promoted now nb rest this)
     = activeBuilds this ++ [(QueueItem.chatId nb, freshBuild now nb)]
  /\ stats (promoted now nb rest this) = stats this
  /\ maxConcurrent (promoted now nb rest this) = maxConcurrent this
  /\ adminIds (promoted now nb rest this) = adminIds this
  /\ onBuildStart (promoted now nb rest this) = onBuildStart this
  /\ onQueueUpdate (promoted now nb rest this) = onQueueUpdate this
  /\ persisted (promoted now nb rest this) = Some (rest, stats this).
Proof.
  unfold promoted, autoStarting, persisted. fields. auto 10.
Qed.

Lemma promoted_queue now nb rest this : queue (promoted now nb rest this) = rest.
Proof. apply promoted_fields. Qed.

Lemma promoted_active now nb rest this :
  activeBuilds (promoted now nb rest this)
  = activeBuilds this ++ [(QueueItem.chatId nb, freshBuild now nb)].
Proof. apply promoted_fields. Qed.

Lemma promoted_stats now nb rest this : stats (promoted now nb rest this) = stats this.
Proof. apply promoted_fields. Qed.

Lemma promoted_max now nb rest this :
  maxConcurrent (promoted now nb rest this) = maxConcurrent this.
Proof. apply promoted_fields. Qed.

Lemma promoted_admins now nb rest this :
  adminIds (promoted now nb rest this) = adminIds this.
Proof. apply promoted_fields. Qed.

Lemma promoted_onBuildStart now nb rest this :
  onBuildStart (promoted now nb rest this) = onBuildStart this.
Proof. apply promoted_fields. Qed.

Lemma promoted_onQueueUpdate now nb rest this :
  onQueueUpdate (promoted now nb rest this) = onQueueUpdate this.
Proof. apply promoted_fields. Qed.

Lemma startFailed_fields now nb rest this :
  activeBuilds (startFailed now nb rest this) = activeBuilds this
  /\ stats (startFailed now nb rest this)
     = mkStats (success (stats this)) (failed (stats this) + 1)
         (total (stats this)) (totalTime (stats this))
  /\ maxConcurrent (startFailed now nb rest this) = maxConcurrent this
  /\ adminIds (startFailed now nb rest this) = adminIds this
  /\ onBuildStart (startFailed now nb rest this) = onBuildStart this
  /\ onQueueUpdate (startFailed now nb rest this) = onQueueUpdate this.
Proof.
  unfold startFailed, promoted, autoStarting. cbv zeta. fields. auto 10.
Qed.

Lemma startFailed_active now nb rest this :
  activeBuilds (startFailed now nb rest this) = activeBuilds this.
Proof. apply startFailed_fields. Qed.

Lemma startFailed_stats now nb rest this :
  stats (startFailed now nb rest this)
  = mkStats (success (stats this)) (failed (stats this) + 1)
      (total (stats this)) (totalTime (stats this)).
Proof. apply startFailed_fields. Qed.

Lemma startFailed_max now nb rest this :
  maxConcurrent (startFailed now nb rest this) = maxConcurrent this.
Proof. apply startFailed_fields. Qed.

Lemma startFailed_admins now nb rest this :
  adminIds (startFailed now nb rest this) = adminIds this.
Proof. apply startFailed_fields. Qed.

Lemma startFailed_onBuildStart now nb rest this :
  onBuildStart (startFailed now nb rest this) = onBuildStart this.
Proof. apply startFailed_fields. Qed.

Lemma startFailed_onQueueUpdate now nb rest this :
  onQueueUpdate (startFailed now nb rest this) = onQueueUpdate this.
Proof. apply startFailed_fields. Qed.

#[local] Hint Rewrite promoted_queue promoted_active promoted_stats promoted_max
  promoted_admins promoted_onBuildStart promoted_onQueueUpdate
  startFailed_queue startFailed_active startFailed_stats startFailed_max
  startFailed_admins startFailed_onBuildStart startFailed_onQueueUpdate : fields.

(** [processNext] never touches the configuration or the callbacks. *)
Lemma processNext_config now this :
  maxConcurrent (processNext now this) = maxConcurrent this
  /\ adminIds (processNext now this) = adminIds this
  /\ onBuildStart (processNext now this) = onBuildStart this
  /\ onQueueUpdate (processNext now this) = onQueueUpdate this.
Proof.
  apply (processNext_induction now (fun this r =>
    maxConcurrent r = maxConcurrent this /\ adminIds r = adminIds this
    /\ onBuildStart r = onBuildStart this /\ onQueueUpdate r = onQueueUpdate this)).
  - intros; fields; auto.
  - intros; fields; auto.
  - intros; unfold autoStarting; fields; auto.
  - intros; unfold autoStarting; fields; auto.
  - intros this0 nb rest _ _ _ _ IH. unfold autoStarting. fields. exact IH.
Qed.

(** What [processNext] does to the statistics: it can only count failed
    starts, and none when a start callback is registered. *)
Lemma processNext_stats now this :
  success (stats (processNext now this)) = success (stats this)
  /\ total (stats (processNext now this)) = total (stats this)
  /\ totalTime (stats (processNext now this)) = totalTime (stats this)
  /\ failed (stats this) <= failed (stats (processNext now this))
  /\ (onBuildStart this = true -> stats (processNext now this) = stats this).
Proof.
  apply (processNext_induction now (fun this r =>
    success (stats r) = success (stats this)
    /\ total (stats r) = total (stats this)
    /\ totalTime (stats r) = totalTime (stats this)
    /\ failed (stats this) <= failed (stats r)
    /\ (onBuildStart this = true -> stats r = stats this))).
  - intros; fields; repeat split; auto; lia.
  - intros; fields; repeat split; auto; lia.
  - intros; unfold autoStarting; fields; repeat split; auto; lia.
  - intros; unfold autoStarting; fields; repeat split; auto; lia.
  - intros this0 nb rest _ _ _ Hcb IH. unfold autoStarting. fields.
    destruct IH as (H1 & H2 & H3 & H4 & _).
    repeat split; try assumption; try lia. congruence.
Qed.

(** The queue after [processNext] is what is left of the queue before. *)
Lemma processNext_queue now this :
  exists popped, queue this = popped ++ queue (processNext now this).
Proof.
  apply (processNext_induction now (fun this r =>
    exists popped, queue this = popped ++ queue r)).
  - intros. exists []. fields. reflexivity.
  - intros. exists []. fields. reflexivity.
  - intros this0 nb rest Hq _ _. exists []. unfold autoStarting. fields. exact Hq.
  - intros this0 nb rest Hq _ _ _. exists [nb]. unfold autoStarting. fields. exact Hq.
  - intros this0 nb rest Hq _ _ _ [popped IH]. exists (nb :: popped).
    rewrite startFailed_queue in IH. rewrite Hq. simpl. f_equal. exact IH.
Qed.

(** The registry after [processNext]: the entries before, in their order,
    and at most one new entry, for the head of the queue, started [now]. *)
Lemma processNext_active now this :
  exists added,
    activeBuilds (processNext now this) = activeBuilds this ++ added
    /\ (List.length added <= 1)%nat
    /\ (added <> [] -> isBusy this = false /\ onBuildStart this = true)
    /\ (forall c b, In (c, b) added ->
          In c (queueIds this)
          /\ JsMap.has c (activeBuilds this) = false
          /\ BuildInfo.startTime b = now /\ BuildInfo.lastActivity b = now).
Proof.
  apply (processNext_induction now (fun this r =>
    exists added,
      activeBuilds r = activeBuilds this ++ added
      /\ (List.length added <= 1)%nat
      /\ (added <> [] -> isBusy this = false /\ onBuildStart this = true)
      /\ (forall c b, In (c, b) added ->
            In c (queueIds this)
            /\ JsMap.has c (activeBuilds this) = false
            /\ BuildInfo.startTime b = now /\ BuildInfo.lastActivity b = now))).
  - intros. exists []. fields. rewrite app_nil_r.
    repeat split; simpl; auto; try contradiction.
  - intros. exists []. fields. rewrite app_nil_r.
    repeat split; simpl; auto; try contradiction.
  - intros. exists []. unfold autoStarting. fields. rewrite app_nil_r.
    repeat split; simpl; auto; try contradiction.
  - intros this0 nb rest Hq B Hhas Hcb.
    exists [(QueueItem.chatId nb, freshBuild now nb)].
    unfold autoStarting. fields. split; [reflexivity|]. split; [simpl; lia|].
    split; [auto|].
    intros c b [E|[]]. inversion E; subst. unfold queueIds. rewrite Hq.
    simpl. auto.
  - intros this0 nb rest Hq B Hhas Hcb (added & IH1 & IH2 & IH3 & IH4).
    assert (added = []) as ->.
    { destruct added; [reflexivity|]. destruct IH3 as [_ IH3]; [discriminate|].
      fields. congruence. }
    exists []. fields. rewrite app_nil_r in *.
    repeat split; simpl; auto; try contradiction.
Qed.

Lemma processNext_capacity now this :
  withinCapacity this -> withinCapacity (processNext now this).
Proof.
  unfold withinCapacity. intros H.
  destruct (processNext_active now this) as (added & E & Hlen & Hbusy & _).
  destruct (processNext_config now this) as (Hmax & _).
  rewrite E, Hmax. destruct added as [|kv added].
  - rewrite app_nil_r. assumption.
  - destruct Hbusy as [B _]; [discriminate|].
    destruct added; [|simpl in Hlen; lia].
    rewrite size_app1. unfold isBusy in B. lia.
Qed.

(* ------------------------------------------------------------------ *)
(** ** [release] *)

(** The object on which [release] calls [processNext], for an identity
    whose active build is [build]. *)
Definition released (now : Z) (chatId : ChatId) (ok : bool) (build : BuildInfo.t)
  (this : BuildQueue) : BuildQueue :=
  let duration := now - BuildInfo.startTime build in
  let st := stats this in
  save now
    (with_activeBuilds (JsMap.delete chatId (activeBuilds this))
       (emit (LogCompleted chatId ok (Math_round (inject_Z duration / 1000)%Q))
          (with_stats
             (if ok
              then mkStats (success st + 1) (failed st) (total st)
                     (totalTime st + duration)
              else mkStats (success st) (failed st + 1) (total st) (totalTime st))
             this))).

Lemma release_begin_active now c ok this build :
  JsMap.get c (activeBuilds this) = Some build ->
  release_begin now c ok this = Some (released now c ok build this).
Proof.
  intros H. unfold release_begin, released. rewrite H. cbv zeta.
  destruct ok; reflexivity.
Qed.

Lemma release_active now c ok this build :
  JsMap.get c (activeBuilds this) = Some build ->
  release now c ok this = processNext now (released now c ok build this).
Proof.
  intros H. unfold release. rewrite (release_begin_active _ _ _ _ _ H).
  reflexivity.
Qed.

Lemma release_inactive now c ok this :
  JsMap.get c (activeBuilds this) = None ->
  release now c ok this = emit (LogReleaseNonExistent c) this.
Proof. intros H. unfold release, release_begin. rewrite H. reflexivity. Qed.

Lemma released_fields now c ok build this :
  queue (released now c ok build this) = queue this
  /\ activeBuilds (released now c ok build this) = JsMap.delete c (activeBuilds this)
  /\ stats (released now c ok build this)
     = (if ok
        then mkStats (success (stats this) + 1) (failed (stats this))
               (total (stats this))
               (totalTime (stats this) + (now - BuildInfo.startTime build))
        else mkStats (success (stats this)) (failed (stats this) + 1)
               (total (stats this)) (totalTime (stats this)))
  /\ maxConcurrent (released now c ok build this) = maxConcurrent this
  /\ adminIds (released now c ok build this) = adminIds this
  /\ onBuildStart (released now c ok build this) = onBuildStart this
  /\ onQueueUpdate (released now c ok build this) = onQueueUpdate this.
Proof. unfold released. cbv zeta. fields. auto 10. Qed.

Lemma released_queue now c ok build this :
  queue (released now c ok build this) = queue this.
Proof. apply released_fields. Qed.

Lemma released_active now c ok build this :
  activeBuilds (released now c ok build this) = JsMap.delete c (activeBuilds this).
Proof. apply released_fields. Qed.

Lemma released_stats now c ok build this :
  stats (released now c ok build this)
  = (if ok
     then mkStats (success (stats this) + 1) (failed (stats this))
            (total (stats this))
            (totalTime (stats this) + (now - BuildInfo.startTime build))
     else mkStats (success (stats this)) (failed (stats this) + 1)
            (total (stats this)) (totalTime (stats this))).
Proof. apply released_fields. Qed.

Lemma released_max now c ok build this :
  maxConcurrent (released now c ok build this) = maxConcurrent this.
Proof. apply released_fields. Qed.

Lemma released_admins now c ok build this :
  adminIds (released now c ok build this) = adminIds this.
Proof. apply released_fields. Qed.

Lemma released_onBuildStart now c ok build this :
  onBuildStart (released now c ok build this) = onBuildStart this.
Proof. apply released_fields. Qed.

Lemma released_onQueueUpdate now c ok build this :
  onQueueUpdate (released now c ok build this) = onQueueUpdate this.
Proof. apply released_fields. Qed.

#[local] Hint Rewrite released_queue released_active released_stats released_max
  released_admins released_onBuildStart released_onQueueUpdate : fields.

(** The two ways [release] can go. *)
Lemma release_cases now c ok this :
  (JsMap.get c (activeBuilds this) = None
   /\ release now c ok this = emit (LogReleaseNonExistent c) this)
  \/ (exists build,
        JsMap.get c (activeBuilds this) = Some build
        /\ release now c ok this = processNext now (released now c ok build this)).
Proof.
  destruct (JsMap.get c (activeBuilds this)) as [build|] eqn:E.
  - right. exists build. split; [reflexivity|]. apply release_active, E.
  - left. split; [reflexivity|]. apply release_inactive, E.
Qed.

(* ------------------------------------------------------------------ *)
(** ** Capacity *)

(** The relation "same limit, and within capacity if it was": every method
    relates the object before to the object after. *)
Definition keepsCapacity (this r : BuildQueue) : Prop :=
  maxConcurrent r = maxConcurrent this
  /\ (withinCapacity this -> withinCapacity r).

Lemma keepsCapacity_refl this : keepsCapacity this this.
Proof. split; auto. Qed.

Lemma keepsCapacity_trans a b c :
  keepsCapacity a b -> keepsCapacity b c -> keepsCapacity a c.
Proof. intros [H1 H2] [H3 H4]. split; [congruence | auto]. Qed.

Lemma keepsCapacity_same this r :
  maxConcurrent r = maxConcurrent this ->
  (List.length (activeBuilds r) <= List.length (activeBuilds this))%nat ->
  keepsCapacity this r.
Proof.
  intros Hm Hl. split; [assumption|]. unfold withinCapacity, JsMap.size.
  rewrite Hm. lia.
Qed.

Lemma processNext_keepsCapacity now this : keepsCapacity this (processNext now this).
Proof.
  split; [apply processNext_config | apply processNext_capacity].
Qed.

Lemma release_keepsCapacity now c ok this : keepsCapacity this (release now c ok this).
Proof.
  destruct (release_cases now c ok this) as [[_ ->] | (build & _ & ->)].
  - apply keepsCapacity_same; fields; auto.
  - eapply keepsCapacity_trans; [|apply processNext_keepsCapacity].
    apply keepsCapacity_same; fields; auto. apply delete_length.
Qed.

Lemma acquire_keepsCapacity now c d t u this :
  keepsCapacity this (snd (acquire now c d t u this)).
Proof.
  destruct (JsMap.has c (activeBuilds this)) eqn:Hhas.
  - rewrite acquire_already by assumption. apply keepsCapacity_same; fields; auto.
  - destruct (isBusy this) eqn:B.
    + rewrite acquire_full by assumption. apply keepsCapacity_same; fields; auto.
    + rewrite acquire_ok by assumption. split; fields; [reflexivity|].
      intros _. unfold withinCapacity. fields. rewrite size_app1.
      unfold isBusy in B. lia.
Qed.

Lemma removeFromQueue_keepsCapacity now c this :
  keepsCapacity this (snd (removeFromQueue now c this)).
Proof.
  unfold removeFromQueue. cbv zeta. destruct (_ >=? 0).
  - apply keepsCapacity_same; fields; auto.
  - apply keepsCapacity_refl.
Qed.

Lemma releaseAll_keepsCapacity now toRelease this :
  keepsCapacity this (releaseAll now toRelease this).
Proof.
  revert this. induction toRelease as [|[c r] rest IH]; intros this; simpl.
  - apply keepsCapacity_refl.
  - eapply keepsCapacity_trans; [apply release_keepsCapacity | apply IH].
Qed.

Lemma scanStuck_fields now entries toRelease this :
  let r := snd (scanStuck now entries toRelease this) in
  queue r = queue this /\ activeBuilds r = activeBuilds this
  /\ stats r = stats this /\ maxConcurrent r = maxConcurrent this
  /\ adminIds r = adminIds this /\ onBuildStart r = onBuildStart this
  /\ onQueueUpdate r = onQueueUpdate this /\ queueFile r = queueFile this.
Proof.
  revert toRelease this.
  induction entries as [|[c b] entries IH]; intros toRelease this; simpl.
  - auto 10.
  - destruct (stuckReason now b) as [[|]|]; simpl.
    + specialize (IH (toRelease ++ [(c, ReasonTimeout)])
                    (emit (LogBuildTimeout c) this)). simpl in IH. exact IH.
    + specialize (IH (toRelease ++ [(c, ReasonInactive)])
                    (emit (LogBuildInactive c) this)). simpl in IH. exact IH.
    + apply IH.
Qed.

Lemma checkStuckBuilds_keepsCapacity now this :
  keepsCapacity this (checkStuckBuilds now this).
Proof.
  unfold checkStuckBuilds. destruct (_ =? 0); [apply keepsCapacity_refl|].
  destruct (scanStuck now (activeBuilds this) [] this) as [toRelease this1] eqn:E.
  pose proof (scanStuck_fields now (activeBuilds this) [] this) as F.
  rewrite E in F. simpl in F. destruct F as (_ & Fa & _ & Fm & _).
  eapply keepsCapacity_trans; [|apply releaseAll_keepsCapacity].
  apply keepsCapacity_same; [assumption | rewrite Fa; auto].
Qed.

Lemma updateActivity_keepsCapacity now c this :
  keepsCapacity this (updateActivity now c this).
Proof.
  unfold updateActivity. cbv zeta.
  destruct c as [c|]; [destruct (_ && _)|];
    apply keepsCapacity_same; fields; auto; rewrite length_map; auto.
Qed.

Lemma forceRelease_keepsCapacity now c this :
  keepsCapacity this (forceRelease now c this).
Proof.
  assert (Hall : keepsCapacity this
            (processNext now
               (with_activeBuilds (JsMap.clear (activeBuilds this))
                  (emit LogForceReleaseAll this)))).
  { eapply keepsCapacity_trans; [|apply processNext_keepsCapacity].
    apply keepsCapacity_same; fields; auto. simpl. lia. }
  unfold forceRelease. cbv zeta.
  eapply keepsCapacity_trans; [|apply keepsCapacity_same; fields; eauto].
  destruct c as [c|]; [|exact Hall].
  destruct (truthy c); [|exact Hall].
  destruct (JsMap.has c (activeBuilds this)); [|apply keepsCapacity_refl].
  eapply keepsCapacity_trans; [|apply processNext_keepsCapacity].
  apply keepsCapacity_same; fields; auto. apply delete_length.
Qed.

Lemma addToQueue_keepsCapacity now c d t u this :
  keepsCapacity this (snd (addToQueue now c d t u this)).
Proof.
  unfold addToQueue.
  pose proof (removeFromQueue_keepsCapacity now c this) as H0.
  destruct (removeFromQueue now c this) as [removed this1]. simpl in H0.
  cbv zeta.
  set (this2 := with_stats _ this1).
  assert (H2 : keepsCapacity this this2).
  { eapply keepsCapacity_trans; [exact H0|].
    apply keepsCapacity_same; subst this2; fields; auto. }
  assert (H3 : keepsCapacity this
            (snd (if negb (isBusy this2) && negb (JsMap.has c (activeBuilds this2))
                  then acquire now c d t u this2 else (false, this2)))).
  { destruct (_ && _); [|exact H2].
    eapply keepsCapacity_trans; [exact H2 | apply acquire_keepsCapacity]. }
  destruct (if negb (isBusy this2) && negb (JsMap.has c (activeBuilds this2))
            then acquire now c d t u this2 else (false, this2))
    as [started this3]. simpl in H3.
  destruct started; simpl.
  - eapply keepsCapacity_trans; [exact H3|].
    apply keepsCapacity_same; fields; auto.
  - eapply keepsCapacity_trans; [exact H3|].
    destruct (isAdmin c this2); apply keepsCapacity_same; fields; auto.
Qed.

Lemma step_keepsCapacity this op : keepsCapacity this (step this op).
Proof.
  destruct op; simpl.
  - apply keepsCapacity_same; fields; auto.
  - apply keepsCapacity_same; fields; auto.
  - apply addToQueue_keepsCapacity.
  - apply removeFromQueue_keepsCapacity.
  - apply acquire_keepsCapacity.
  - apply release_keepsCapacity.
  - apply processNext_keepsCapacity.
  - apply checkStuckBuilds_keepsCapacity.
  - apply updateActivity_keepsCapacity.
  - apply forceRelease_keepsCapacity.
  - apply keepsCapacity_same; fields; auto.
  - apply keepsCapacity_same; fields; auto.
Qed.

Lemma configuredMax_range parsed : 1 <= configuredMax parsed <= 4.
Proof. unfold configuredMax. cbv zeta. lia. Qed.

Lemma configuredMax_clamp n k :
  k = Z.max 1 (Z.min n 4) -> configuredMax (Some n) = k.
Proof.
  intros ->. unfold configuredMax. cbv zeta.
  destruct (n =? 0) eqn:E; [apply Z.eqb_eq in E|]; lia.
Qed.

Lemma load_fields this :
  maxConcurrent (load this) = maxConcurrent this
  /\ activeBuilds (load this) = activeBuilds this
  /\ adminIds (load this) = adminIds this
  /\ onBuildStart (load this) = onBuildStart this.
Proof. unfold load. destruct (queueFile this) as [| |d]; cbv zeta; fields; auto. Qed.

Lemma constructor_fields parsed admins file :
  maxConcurrent (constructor parsed admins file) = configuredMax parsed
  /\ activeBuilds (constructor parsed admins file) = []
  /\ adminIds (constructor parsed admins file) = admins
  /\ onBuildStart (constructor parsed admins file) = false.
Proof.
  unfold constructor. cbv zeta. fields.
  repeat split; apply load_fields.
Qed.

Lemma states_capacity ops this :
  withinCapacity this ->
  Forall (fun s => maxConcurrent s = maxConcurrent this /\ withinCapacity s)
    (states ops this).
Proof.
  revert this. induction ops as [|op ops IH]; intros this H; simpl.
  - constructor; auto.
  - constructor; [auto|].
    destruct (step_keepsCapacity this op) as [Hm Hc].
    specialize (IH (step this op) (Hc H)). rewrite Hm in IH. exact IH.
Qed.

(** C2. Whatever the configuration and the file found at start, and
    whatever calls follow (among them every sequence of [addToQueue] and
    [release]), every state the object goes through has at most
    [maxConcurrent] active builds, and [maxConcurrent] is the configured
    number clamped into [1, 4]: a configured number from 1 to 4 is the
    limit itself, a larger one gives 4, a smaller one gives 1, and so does a
    setting that is missing or not a number. *)
Theorem C2_capacity_invariant :
  forall (parsed : option Z) (admins : list string) (file : File) (ops : list Op),
    let max := configuredMax parsed in
    1 <= max <= 4
    /\ configuredMax None = 1
    /\ (forall n, 1 <= n <= 4 -> configuredMax (Some n) = n)
    /\ (forall n, 4 < n -> configuredMax (Some n) = 4)
    /\ (forall n, n < 1 -> configuredMax (Some n) = 1)
    /\ max = match parsed with
             | Some n => Z.max 1 (Z.min n 4)
             | None => 1
             end
    /\ Forall (fun s => maxConcurrent s = max
                        /\ JsMap.size (activeBuilds s) <= maxConcurrent s)
         (states ops (constructor parsed admins file)).
Proof.
  intros parsed admins file ops max.
  split; [apply configuredMax_range|]. split; [reflexivity|].
  split; [intros n Hn; apply configuredMax_clamp; lia|].
  split; [intros n Hn; apply configuredMax_clamp; lia|].
  split; [intros n Hn; apply configuredMax_clamp; lia|].
  split.
  { subst max. destruct parsed as [n|]; [|reflexivity].
    apply configuredMax_clamp. lia. }
  destruct (constructor_fields parsed admins file) as (Hm & Ha & _).
  pose proof (states_capacity ops (constructor parsed admins file)) as H.
  rewrite Hm in H. apply H. unfold withinCapacity. rewrite Ha, Hm.
  pose proof (configuredMax_range parsed) as R. unfold JsMap.size.
  cbn [List.length]. lia.
Qed.

(* ------------------------------------------------------------------ *)
(** ** The wait estimate *)

Lemma inject_Z_nonzero (b : Z) : b <> 0 -> ~ (inject_Z b == 0)%Q.
Proof. intros Hb E. unfold Qeq in E. simpl in E. lia. Qed.

Lemma Math_round_quotient (a b : Z) :
  0 < b ->
  Math_round (inject_Z a / inject_Z b / 1000 / 60)%Q
  = (2 * a + 60000 * b) / (120000 * b).
Proof.
  intros Hb. unfold Math_round. rewrite Zdiv_Qdiv.
  apply Qfloor_comp.
  rewrite !inject_Z_plus, !inject_Z_mult.
  field. apply inject_Z_nonzero. lia.
Qed.

Lemma ceil_div_pos (x m : Z) : 0 < m -> - ((- x) / m) = (x + m - 1) / m.
Proof.
  intros Hm. apply Z.div_unique with (r := m - 1 - (- x) mod m).
  - left. pose proof (Z.mod_pos_bound (- x) m Hm). lia.
  - pose proof (Z.div_mod (- x) m ltac:(lia)). lia.
Qed.

Lemma Math_ceil_quotient (x m : Z) :
  0 < m -> Math_ceil (inject_Z x / inject_Z m)%Q = (x + m - 1) / m.
Proof.
  intros Hm. unfold Math_ceil, Qceiling. rewrite <- ceil_div_pos by assumption.
  f_equal. rewrite Zdiv_Qdiv. apply Qfloor_comp.
  rewrite inject_Z_opp.
  field. apply inject_Z_nonzero. lia.
Qed.

(** A state for the examples of the estimate: one slot, taken, and one
    success of 80 seconds on record. *)
Definition estimateExample : BuildQueue :=
  mkBuildQueue 1 [] []
    [(IdNum 1, BuildInfo.mk 0 0 None TypeUrl "u")]
    (mkStats 1 0 1 80000) true false FileMissing [].

(** C9, as stated, fails: with one success of 80000 ms the source rounds
    the average to 1 minute and answers 1, where the quotient taken as
    minutes (4/3) gives 2 and the quotient as it stands gives 80000. *)
Lemma C9_counterexample :
  getEstimatedWait 1 estimateExample = 1
  /\ (forall fallback,
        spec_estimatedWait fallback msToMinutes 1 estimateExample = 2)
  /\ (forall fallback,
        spec_estimatedWait fallback asItStands 1 estimateExample = 80000).
Proof.
  split; [reflexivity|]. split; intros fallback; reflexivity.
Qed.

(** C9, amended. For every position, with [maxConcurrent >= 1], the
    estimate is [max(1, ceil(waitPosition * avgTime / maxConcurrent))] where
    [waitPosition = max(0, position - (maxConcurrent - |active|))] and
    [avgTime] is the average successful duration converted from
    milliseconds to minutes and rounded to the nearest integer (halves up)
    when there is a success, and 3 otherwise. In integer arithmetic:
    [avgTime = floor((2*totalTime + 60000*success) / (120000*success))] and
    the ceiling is [floor((waitPosition*avgTime + maxConcurrent - 1) /
    maxConcurrent)]. *)
Theorem C9_estimated_wait :
  forall (position : Z) (this : BuildQueue),
    1 <= maxConcurrent this ->
    let st := stats this in
    let avgTime :=
      if success st >? 0
      then (2 * totalTime st + 60000 * success st) / (120000 * success st)
      else 3 in
    let waitPosition :=
      Z.max 0 (position - (maxConcurrent this - JsMap.size (activeBuilds this))) in
    getEstimatedWait position this
    = Z.max 1 ((waitPosition * avgTime + maxConcurrent this - 1)
               / maxConcurrent this)
    /\ (avgTime = if success st >? 0
                  then Math_round (inject_Z (totalTime st) / inject_Z (success st)
                                   / 60000)%Q
                  else 3)
    /\ 1 <= getEstimatedWait position this.
Proof.
  intros position this Hmax st avgTime waitPosition.
  assert (Havg : (if success st >? 0
                  then Math_round (inject_Z (totalTime st) / inject_Z (success st)
                                   / 1000 / 60)%Q
                  else 3) = avgTime).
  { subst avgTime. destruct (success st >? 0) eqn:E; [|reflexivity].
    apply Math_round_quotient. lia. }
  split; [|split].
  - unfold getEstimatedWait. cbv zeta. fold st. rewrite Havg. fold waitPosition.
    f_equal. rewrite <- inject_Z_mult. apply Math_ceil_quotient. lia.
  - rewrite <- Havg. destruct (success st >? 0) eqn:E; [|reflexivity].
    unfold Math_round. apply Qfloor_comp.
    field. apply inject_Z_nonzero. lia.
  - unfold getEstimatedWait. cbv zeta. lia.
Qed.

Lemma C9_estimated_wait_witness :
  1 <= maxConcurrent estimateExample
  /\ getEstimatedWait 1 estimateExample = 1.
Proof.
  split; [vm_compute; discriminate|].
  destruct (C9_estimated_wait 1 estimateExample) as (H & _).
  - vm_compute. discriminate.
  - rewrite H. reflexivity.
Defined.

(* ------------------------------------------------------------------ *)
(** ** Lists: subsequences, first match, priority prefix *)

(** [subseq l' l]: [l'] is [l] with some elements left out. *)
Inductive subseq {A : Type} : list A -> list A -> Prop :=
| subseq_nil : subseq [] []
| subseq_skip x l' l : subseq l' l -> subseq l' (x :: l)
| subseq_keep x l' l : subseq l' l -> subseq (x :: l') (x :: l).

Lemma subseq_refl {A} (l : list A) : subseq l l.
Proof. induction l; constructor; assumption. Qed.

Lemma subseq_empty {A} (l : list A) : subseq [] l.
Proof. induction l; constructor; assumption. Qed.

Lemma subseq_trans {A} (a b c : list A) : subseq a b -> subseq b c -> subseq a c.
Proof.
  intros Hab Hbc. revert a Hab. induction Hbc; intros a Hab.
  - exact Hab.
  - constructor. auto.
  - inversion Hab; subst.
    + apply subseq_skip. auto.
    + apply subseq_keep. auto.
Qed.

Lemma subseq_suffix {A} (pre l : list A) : subseq l (pre ++ l).
Proof. induction pre; simpl; [apply subseq_refl | constructor; assumption]. Qed.

Lemma subseq_app {A} (a a' b b' : list A) :
  subseq a' a -> subseq b' b -> subseq (a' ++ b') (a ++ b).
Proof.
  intros Ha Hb. induction Ha; simpl.
  - assumption.
  - apply subseq_skip. assumption.
  - apply subseq_keep. assumption.
Qed.

Lemma subseq_drop_middle {A} (front : list A) x back :
  subseq (front ++ back) (front ++ x :: back).
Proof.
  apply subseq_app; [apply subseq_refl | apply subseq_skip; apply subseq_refl].
Qed.

Lemma subseq_In {A} (l' l : list A) x : subseq l' l -> In x l' -> In x l.
Proof. intros H. induction H; simpl; intuition. Qed.

Lemma subseq_map {A B} (f : A -> B) l' l :
  subseq l' l -> subseq (List.map f l') (List.map f l).
Proof.
  intros H. induction H; simpl.
  - constructor.
  - apply subseq_skip. assumption.
  - apply subseq_keep. assumption.
Qed.

Lemma subseq_NoDup {A} (l' l : list A) : subseq l' l -> NoDup l -> NoDup l'.
Proof.
  intros H. induction H; intros Hnd.
  - constructor.
  - inversion Hnd; auto.
  - inversion Hnd; subst. constructor; [|auto].
    intros Hin. eapply subseq_In in Hin; eauto.
Qed.

Lemma subseq_Forall {A} (P : A -> Prop) l' l :
  subseq l' l -> Forall P l -> Forall P l'.
Proof.
  intros H. induction H; intros HF; [constructor | |];
    inversion HF; subst; auto.
Qed.

(** [findIndex] finds the first match, if there is one. *)
Lemma findIndex_from_spec {A} (p : A -> bool) l i :
  0 <= i ->
  (findIndex_from p l i = -1 /\ Forall (fun x => p x = false) l)
  \/ (exists front x back,
        l = front ++ x :: back
        /\ Forall (fun y => p y = false) front
        /\ p x = true
        /\ findIndex_from p l i = i + Z.of_nat (List.length front)).
Proof.
  revert i. induction l as [|a l IH]; intros i Hi; simpl.
  - left. split; [reflexivity | constructor].
  - destruct (p a) eqn:E.
    + right. exists [], a, l. simpl. repeat split; auto. lia.
    + destruct (IH (i + 1) ltac:(lia)) as [[H1 H2] | (front & x & back & H1 & H2 & H3 & H4)].
      * left. split; [assumption | constructor; assumption].
      * right. exists (a :: front), x, back. subst l. simpl.
        repeat split; auto. rewrite H4. lia.
Qed.

Lemma firstn_length_app {A} (front back : list A) :
  firstn (List.length front) (front ++ back) = front.
Proof. induction front; simpl; [destruct back; reflexivity | congruence]. Qed.

Lemma skipn_length_app {A} (front back : list A) :
  skipn (List.length front) (front ++ back) = back.
Proof. induction front; simpl; auto. Qed.

Lemma splice_remove_at {A} (front : list A) x back :
  splice_remove (Z.of_nat (List.length front)) (front ++ x :: back) = front ++ back.
Proof.
  unfold splice_remove. rewrite Nat2Z.id, firstn_length_app. f_equal.
  change (skipn (S (List.length front)) (front ++ x :: back))
    with (skipn (1 + List.length front) (front ++ x :: back)).
  rewrite <- skipn_skipn, skipn_length_app. reflexivity.
Qed.

Lemma splice_insert_at {A} (front : list A) x back :
  splice_insert (List.length front) x (front ++ back) = front ++ x :: back.
Proof.
  unfold splice_insert. rewrite firstn_length_app, skipn_length_app. reflexivity.
Qed.

(** The loop of [addToQueue] stops at the end of the leading priority
    entries. *)
Lemma insertIndex_from_spec q i :
  exists front back,
    q = front ++ back
    /\ Forall (fun item => QueueItem.priority item = true) front
    /\ (back = [] \/ exists y back', back = y :: back' /\ QueueItem.priority y = false)
    /\ insertIndex_from q i = (i + List.length front)%nat.
Proof.
  revert i. induction q as [|a q IH]; intros i; simpl.
  - exists [], []. simpl. repeat split; auto.
  - destruct (QueueItem.priority a) eqn:E; simpl.
    + destruct (IH (S i)) as (front & back & H1 & H2 & H3 & H4).
      exists (a :: front), back. subst q. simpl. repeat split; auto.
      rewrite H4. lia.
    + exists [], (a :: q). simpl. repeat split; auto.
      right. exists a, q. auto.
Qed.

(* ------------------------------------------------------------------ *)
(** ** [removeFromQueue] and [addToQueue] *)

Lemma removeFromQueue_fields now c this :
  let r := snd (removeFromQueue now c this) in
  activeBuilds r = activeBuilds this /\ stats r = stats this
  /\ maxConcurrent r = maxConcurrent this /\ adminIds r = adminIds this
  /\ onBuildStart r = onBuildStart this /\ onQueueUpdate r = onQueueUpdate this.
Proof.
  unfold removeFromQueue. cbv zeta. destruct (_ >=? 0); fields; auto 10.
Qed.

(** [removeFromQueue] takes out the first request of the identity, if any. *)
Lemma removeFromQueue_cases now c this :
  (Forall (fun item => QueueItem.chatId item <> c) (queue this)
   /\ removeFromQueue now c this = (false, this))
  \/ (exists front x back,
        queue this = front ++ x :: back
        /\ Forall (fun item => QueueItem.chatId item <> c) front
        /\ QueueItem.chatId x = c
        /\ fst (removeFromQueue now c this) = true
        /\ queue (snd (removeFromQueue now c this)) = front ++ back).
Proof.
  unfold removeFromQueue, findIndex. cbv zeta.
  destruct (findIndex_from_spec
              (fun item => chatId_eqb (QueueItem.chatId item) c) (queue this) 0
              ltac:(lia))
    as [[H1 H2] | (front & x & back & H1 & H2 & H3 & H4)].
  - left. rewrite H1. simpl. split; [|reflexivity].
    eapply Forall_impl; [|exact H2]. intros a Ha. apply chatId_eqb_neq. exact Ha.
  - right. exists front, x, back. rewrite H4.
    replace (0 + Z.of_nat (List.length front) >=? 0) with true by lia.
    split; [assumption|]. split.
    { eapply Forall_impl; [|exact H2]. intros a Ha. apply chatId_eqb_neq. exact Ha. }
    split; [apply chatId_eqb_eq; assumption|]. split; [reflexivity|].
    fields. rewrite H1. apply splice_remove_at.
Qed.

Lemma removeFromQueue_subseq now c this :
  subseq (queue (snd (removeFromQueue now c this))) (queue this).
Proof.
  destruct (removeFromQueue_cases now c this)
    as [[_ ->] | (front & x & back & -> & _ & _ & _ & ->)].
  - apply subseq_refl.
  - apply subseq_drop_middle.
Qed.

(** After [removeFromQueue], a queue without duplicates has no request of
    the identity left. *)
Lemma removeFromQueue_absent now c this :
  NoDup (queueIds this) ->
  ~ In c (queueIds (snd (removeFromQueue now c this))).
Proof.
  unfold queueIds. intros Hnd.
  destruct (removeFromQueue_cases now c this)
    as [[H ->] | (front & x & back & Hq & Hfront & Hx & _ & ->)].
  - simpl. rewrite in_map_iff. intros (item & E & Hin).
    rewrite Forall_forall in H. apply (H item Hin E).
  - rewrite Hq, map_app in Hnd. simpl in Hnd.
    apply NoDup_remove_2 in Hnd. rewrite Hx in Hnd.
    rewrite map_app. exact Hnd.
Qed.

(** The request that [addToQueue] builds. *)
Definition newItem (now : Z) (chatId : ChatId) (buildData : BuildData)
  (type : BuildType) (userName : string) (this : BuildQueue) : QueueItem.t :=
  QueueItem.mk ("build_" ++ string_of_Z now ++ "_" ++ String_ chatId)
    chatId userName buildData type (isAdmin chatId this) now "waiting".

(** Where [addToQueue] puts it. *)
Definition enqueue (item : QueueItem.t) (q : list QueueItem.t) : list QueueItem.t :=
  if QueueItem.priority item
  then splice_insert (insertIndex_from q 0) item q
  else q ++ [item].

Lemma isBusy_same this r :
  activeBuilds r = activeBuilds this -> maxConcurrent r = maxConcurrent this ->
  isBusy r = isBusy this.
Proof. intros Ha Hm. unfold isBusy. rewrite Ha, Hm. reflexivity. Qed.

(** A request that cannot start at once is queued. *)
Lemma addToQueue_queued now c d t u this :
  isBusy this = true \/ JsMap.has c (activeBuilds this) = true ->
  let r := addToQueue now c d t u this in
  immediate (fst r) = false
  /\ queue (snd r)
     = enqueue (newItem now c d t u this) (queue (snd (removeFromQueue now c this)))
  /\ position (fst r) = getUserPosition c (snd r)
  /\ activeBuilds (snd r) = activeBuilds this
  /\ stats (snd r) = mkStats (success (stats this)) (failed (stats this))
                       (total (stats this) + 1) (totalTime (stats this))
  /\ persisted (snd r) = Some (queue (snd r), stats (snd r)).
Proof.
  intros Hwhy. unfold addToQueue.
  pose proof (removeFromQueue_fields now c this) as F.
  destruct (removeFromQueue now c this) as [removed this1]. simpl in F.
  destruct F as (Fa & Fs & Fm & Fad & _). cbv zeta.
  set (this2 := with_stats _ this1).
  assert (Hguard : negb (isBusy this2) && negb (JsMap.has c (activeBuilds this2))
                   = false).
  { rewrite (isBusy_same this this2) by (subst this2; fields; auto).
    subst this2. fields. rewrite Fa. destruct Hwhy as [-> | ->]; simpl; auto.
    apply andb_false_r. }
  rewrite Hguard. cbn [negb]. cbv iota.
  assert (Hadm : isAdmin c this2 = isAdmin c this).
  { unfold isAdmin. subst this2. fields. rewrite Fad. reflexivity. }
  unfold enqueue, newItem. cbn [QueueItem.priority]. rewrite Hadm.
  subst this2. unfold persisted.
  destruct (isAdmin c this); fields; rewrite ?Fa, ?Fs; auto 10.
Qed.

(** A request that can start at once takes a slot and is not queued. *)
Lemma addToQueue_immediate now c d t u this :
  isBusy this = false -> JsMap.has c (activeBuilds this) = false ->
  let r := addToQueue now c d t u this in
  immediate (fst r) = true
  /\ position (fst r) = 0
  /\ queue (snd r) = queue (snd (removeFromQueue now c this))
  /\ activeBuilds (snd r) = activeBuilds this ++ [(c, BuildInfo.mk now now d t u)]
  /\ stats (snd r) = mkStats (success (stats this)) (failed (stats this))
                       (total (stats this) + 1) (totalTime (stats this))
  /\ persisted (snd r) = Some (queue (snd r), stats (snd r)).
Proof.
  intros Hbusy Hhas. unfold addToQueue.
  pose proof (removeFromQueue_fields now c this) as F.
  destruct (removeFromQueue now c this) as [removed this1]. simpl in F.
  destruct F as (Fa & Fs & Fm & Fad & _). cbv zeta.
  set (this2 := with_stats _ this1).
  assert (Hb2 : isBusy this2 = false).
  { rewrite (isBusy_same this this2) by (subst this2; fields; auto). assumption. }
  assert (Hh2 : JsMap.has c (activeBuilds this2) = false).
  { subst this2. fields. rewrite Fa. assumption. }
  rewrite Hb2, Hh2. cbn [negb andb].
  rewrite acquire_ok by assumption. cbv iota.
  subst this2. unfold persisted. fields. rewrite ?Fa, ?Fs. auto 10.
Qed.

(* ------------------------------------------------------------------ *)
(** ** The two buckets *)

Definition isPrio (item : QueueItem.t) : Prop := QueueItem.priority item = true.
Definition isNormal (item : QueueItem.t) : Prop := QueueItem.priority item = false.

(** No ordinary request stands before a priority request. *)
Fixpoint bucketsOk (q : list QueueItem.t) : Prop :=
  match q with
  | [] => True
  | item :: rest => (isNormal item -> Forall isNormal rest) /\ bucketsOk rest
  end.

Lemma prio_buckets q :
  Forall isPrio q -> priorityBucket q = q /\ normalBucket q = [].
Proof.
  unfold priorityBucket, normalBucket, isPrio.
  induction 1 as [|x l Hx _ [IH1 IH2]]; simpl; [auto|].
  rewrite Hx. simpl. rewrite IH1, IH2. auto.
Qed.

Lemma normal_buckets q :
  Forall isNormal q -> priorityBucket q = [] /\ normalBucket q = q.
Proof.
  unfold priorityBucket, normalBucket, isNormal.
  induction 1 as [|x l Hx _ [IH1 IH2]]; simpl; [auto|].
  rewrite Hx. simpl. rewrite IH1, IH2. auto.
Qed.

Lemma priorityBucket_app a b :
  priorityBucket (a ++ b) = priorityBucket a ++ priorityBucket b.
Proof. apply filter_app. Qed.

Lemma normalBucket_app a b :
  normalBucket (a ++ b) = normalBucket a ++ normalBucket b.
Proof. apply filter_app. Qed.

Lemma normal_bucketsOk q : Forall isNormal q -> bucketsOk q.
Proof. induction 1; simpl; auto. Qed.

Lemma bucketsOk_app front back :
  Forall isPrio front -> Forall isNormal back -> bucketsOk (front ++ back).
Proof.
  intros Hf Hb. induction Hf as [|x l Hx _ IH]; simpl.
  - apply normal_bucketsOk, Hb.
  - split; [|exact IH]. unfold isNormal, isPrio in *. congruence.
Qed.

Lemma bucketsOk_suffix front back : bucketsOk (front ++ back) -> bucketsOk back.
Proof. induction front; simpl; tauto. Qed.

Lemma bucketsOk_snoc q item : bucketsOk q -> isNormal item -> bucketsOk (q ++ [item]).
Proof.
  intros Hq Hi. induction q as [|x q IH]; simpl in *.
  - split; auto.
  - destruct Hq as [H1 H2]. split; [|auto].
    intros Hx. apply Forall_app. split; [auto | constructor; auto].
Qed.

Lemma bucketsOk_subseq q' q : subseq q' q -> bucketsOk q -> bucketsOk q'.
Proof.
  intros H. induction H; simpl; intros Hq.
  - exact I.
  - apply IHsubseq, Hq.
  - destruct Hq as [H1 H2]. split; [|auto].
    intros Hx. eapply subseq_Forall; eauto.
Qed.

Lemma twoBuckets_bucketsOk q : twoBuckets q <-> bucketsOk q.
Proof.
  unfold twoBuckets. split.
  - intros E. rewrite E. apply bucketsOk_app.
    + unfold priorityBucket. apply Forall_forall. intros x Hx.
      apply filter_In in Hx. apply Hx.
    + unfold normalBucket. apply Forall_forall. intros x Hx.
      apply filter_In in Hx. unfold isNormal. destruct Hx as [_ Hx].
      destruct (QueueItem.priority x); [discriminate | reflexivity].
  - induction q as [|x q IH]; simpl; [reflexivity|].
    intros [H1 H2]. unfold priorityBucket, normalBucket in *. simpl.
    destruct (QueueItem.priority x) eqn:E; simpl.
    + f_equal. apply IH, H2.
    + destruct (normal_buckets q (H1 E)) as [Hp Hn].
      unfold priorityBucket, normalBucket in Hp, Hn. rewrite Hp, Hn. reflexivity.
Qed.

Lemma twoBuckets_subseq q' q : subseq q' q -> twoBuckets q -> twoBuckets q'.
Proof. rewrite !twoBuckets_bucketsOk. apply bucketsOk_subseq. Qed.

(** Where [enqueue] puts a request. *)
Lemma enqueue_place item q :
  (QueueItem.priority item = true ->
   exists front back,
     q = front ++ back /\ Forall isPrio front
     /\ (back = [] \/ exists y back', back = y :: back' /\ isNormal y)
     /\ enqueue item q = front ++ item :: back)
  /\ (QueueItem.priority item = false -> enqueue item q = q ++ [item]).
Proof.
  unfold enqueue. split; intros E; rewrite E; [|reflexivity].
  destruct (insertIndex_from_spec q 0) as (front & back & H1 & H2 & H3 & H4).
  exists front, back. repeat split; try assumption.
  rewrite H4. simpl. subst q. apply splice_insert_at.
Qed.

(** [enqueue] keeps the two buckets, and the new request is the last of its
    bucket. *)
Lemma enqueue_buckets item q :
  twoBuckets q ->
  twoBuckets (enqueue item q)
  /\ priorityBucket (enqueue item q)
     = priorityBucket q ++ (if QueueItem.priority item then [item] else [])
  /\ normalBucket (enqueue item q)
     = normalBucket q ++ (if QueueItem.priority item then [] else [item]).
Proof.
  intros Hq. apply twoBuckets_bucketsOk in Hq.
  destruct (enqueue_place item q) as [Hp Hn].
  destruct (QueueItem.priority item) eqn:E.
  - destruct (Hp eq_refl) as (front & back & -> & Hfront & Hback & ->).
    assert (Hnormal : Forall isNormal back).
    { apply bucketsOk_suffix in Hq.
      destruct Hback as [-> | (y & back' & -> & Hy)]; [constructor|].
      simpl in Hq. constructor; [assumption | apply Hq; assumption]. }
    destruct (prio_buckets front Hfront) as [P1 P2].
    destruct (normal_buckets back Hnormal) as [N1 N2].
    split; [|split].
    + apply twoBuckets_bucketsOk.
      change (front ++ item :: back) with (front ++ [item] ++ back).
      rewrite app_assoc. apply bucketsOk_app; [|assumption].
      apply Forall_app. split; [assumption | constructor; auto].
    + rewrite !priorityBucket_app. unfold priorityBucket at 2. simpl.
      rewrite E. fold (priorityBucket back). rewrite P1, N1, !app_nil_r.
      reflexivity.
    + rewrite !normalBucket_app. unfold normalBucket at 2. simpl.
      rewrite E. simpl. fold (normalBucket back). rewrite app_nil_r. reflexivity.
  - rewrite (Hn eq_refl). split; [|split].
    + apply twoBuckets_bucketsOk, bucketsOk_snoc; assumption.
    + rewrite priorityBucket_app. unfold priorityBucket at 2. simpl. rewrite E.
      reflexivity.
    + rewrite normalBucket_app. unfold normalBucket at 2. simpl. rewrite E.
      reflexivity.
Qed.

(* ------------------------------------------------------------------ *)
(** ** What each call does to the queue *)

(** Every call but [addToQueue] leaves the queue as it is or takes
    requests out of it. *)
Definition queueShrinks (this r : BuildQueue) : Prop :=
  subseq (queue r) (queue this).

Lemma queueShrinks_same this r : queue r = queue this -> queueShrinks this r.
Proof. unfold queueShrinks. intros ->. apply subseq_refl. Qed.

Lemma queueShrinks_trans a b c :
  queueShrinks a b -> queueShrinks b c -> queueShrinks a c.
Proof. unfold queueShrinks. intros H1 H2. eapply subseq_trans; eauto. Qed.

Lemma processNext_queueShrinks now this : queueShrinks this (processNext now this).
Proof.
  unfold queueShrinks. destruct (processNext_queue now this) as [popped E].
  rewrite E. apply subseq_suffix.
Qed.

Lemma release_queueShrinks now c ok this : queueShrinks this (release now c ok this).
Proof.
  destruct (release_cases now c ok this) as [[_ ->] | (build & _ & ->)].
  - apply queueShrinks_same. reflexivity.
  - eapply queueShrinks_trans; [|apply processNext_queueShrinks].
    apply queueShrinks_same. fields. reflexivity.
Qed.

Lemma releaseAll_queueShrinks now toRelease this :
  queueShrinks this (releaseAll now toRelease this).
Proof.
  revert this. induction toRelease as [|[c r] rest IH]; intros this; simpl.
  - apply queueShrinks_same. reflexivity.
  - eapply queueShrinks_trans; [apply release_queueShrinks | apply IH].
Qed.

Lemma checkStuckBuilds_queueShrinks now this :
  queueShrinks this (checkStuckBuilds now this).
Proof.
  unfold checkStuckBuilds.
  destruct (_ =? 0); [apply queueShrinks_same; reflexivity|].
  destruct (scanStuck now (activeBuilds this) [] this) as [toRelease this1] eqn:E.
  pose proof (scanStuck_fields now (activeBuilds this) [] this) as F.
  rewrite E in F. simpl in F. destruct F as (Fq & _).
  eapply queueShrinks_trans; [|apply releaseAll_queueShrinks].
  apply queueShrinks_same. assumption.
Qed.

Lemma forceRelease_queueShrinks now c this :
  queueShrinks this (forceRelease now c this).
Proof.
  assert (Hall : queueShrinks this
            (processNext now
               (with_activeBuilds (JsMap.clear (activeBuilds this))
                  (emit LogForceReleaseAll this)))).
  { eapply queueShrinks_trans; [|apply processNext_queueShrinks].
    apply queueShrinks_same. reflexivity. }
  unfold forceRelease. cbv zeta.
  eapply queueShrinks_trans; [|apply queueShrinks_same; reflexivity].
  destruct c as [c|]; [|exact Hall].
  destruct (truthy c); [|exact Hall].
  destruct (JsMap.has c (activeBuilds this)); [|apply queueShrinks_same; reflexivity].
  eapply queueShrinks_trans; [|apply processNext_queueShrinks].
  apply queueShrinks_same. reflexivity.
Qed.

Lemma acquire_fields now c d t u this :
  let r := snd (acquire now c d t u this) in
  queue r = queue this /\ stats r = stats this
  /\ maxConcurrent r = maxConcurrent this /\ adminIds r = adminIds this
  /\ onBuildStart r = onBuildStart this /\ queueFile r = queueFile this.
Proof.
  unfold acquire.
  destruct (JsMap.has _ _); [|destruct (_ >=? _)]; cbv zeta; fields; auto 10.
Qed.

Lemma immediate_false_why now c d t u this :
  immediate (fst (addToQueue now c d t u this)) = false ->
  isBusy this = true \/ JsMap.has c (activeBuilds this) = true.
Proof.
  intros H. destruct (isBusy this) eqn:B; [auto|].
  destruct (JsMap.has c (activeBuilds this)) eqn:Hh; [auto|].
  destruct (addToQueue_immediate now c d t u this B Hh) as (Hi & _).
  congruence.
Qed.

(** The queue after a call: shrunk, or with one request put in. *)
Lemma step_queue this op :
  queueShrinks this (step this op)
  \/ (exists now c d t u,
        op = OpAddToQueue now c d t u
        /\ queue (step this op)
           = enqueue (newItem now c d t u this)
               (queue (snd (removeFromQueue now c this)))).
Proof.
  destruct op; simpl;
    try (left; apply queueShrinks_same; reflexivity).
  - destruct (isBusy this) eqn:B;
      [|destruct (JsMap.has chatId (activeBuilds this)) eqn:Hh].
    + right. exists now, chatId, buildData, type, userName.
      split; [reflexivity|]. apply addToQueue_queued. auto.
    + right. exists now, chatId, buildData, type, userName.
      split; [reflexivity|]. apply addToQueue_queued. auto.
    + left. unfold queueShrinks.
      destruct (addToQueue_immediate now chatId buildData type userName this B Hh)
        as (_ & _ & -> & _).
      apply removeFromQueue_subseq.
  - left. apply removeFromQueue_subseq.
  - left. apply queueShrinks_same. apply acquire_fields.
  - left. apply release_queueShrinks.
  - left. apply processNext_queueShrinks.
  - left. apply checkStuckBuilds_queueShrinks.
  - left. apply queueShrinks_same. unfold updateActivity. cbv zeta.
    destruct chatId as [c|]; [destruct (_ && _)|]; reflexivity.
  - left. apply forceRelease_queueShrinks.
  - left. unfold queueShrinks. simpl. apply subseq_empty.
Qed.

Lemma step_twoBuckets this op :
  twoBuckets (queue this) -> twoBuckets (queue (step this op)).
Proof.
  intros H. destruct (step_queue this op) as [Hs | (now & c & d & t & u & -> & E)].
  - eapply twoBuckets_subseq; eauto.
  - rewrite E. apply enqueue_buckets.
    eapply twoBuckets_subseq; [apply removeFromQueue_subseq | exact H].
Qed.

Lemma run_twoBuckets ops this :
  twoBuckets (queue this) -> twoBuckets (queue (run ops this)).
Proof.
  revert this. induction ops as [|op ops IH]; intros this H; simpl; [exact H|].
  apply IH, step_twoBuckets, H.
Qed.

(** The start of the ordering scenario: one slot, identities 1 and 3 on the
    priority list, nothing on disk. *)
Definition scenarioStart : BuildQueue :=
  constructor (Some 1) ["1"; "3"]%string FileMissing.

Definition scenarioCalls : list Op :=
  [ OpAddToQueue 100 (IdNum 9) None TypeUrl "busy";
    OpAddToQueue 101 (IdNum 1) None TypeUrl "A";
    OpAddToQueue 102 (IdNum 2) None TypeUrl "B";
    OpAddToQueue 103 (IdNum 3) None TypeUrl "C";
    OpAddToQueue 104 (IdNum 4) None TypeUrl "D" ]%string.

(** C3. A request that [addToQueue] does not start at once goes, once an
    older request of the same identity is withdrawn, immediately before the
    first non-priority entry when its identity is on the priority list (at
    the end when every entry is priority), and at the end otherwise. A
    queue that is all priority entries followed by all others stays so, the
    new request being the last of its bucket and both buckets otherwise
    unchanged, and stays so under every sequence of calls. With one slot
    taken, submitting A (priority), B, C (priority), D gives A, C, B, D. *)
Theorem C3_priority_insertion :
  (forall now c d t u this,
     let r := addToQueue now c d t u this in
     let q0 := queue (snd (removeFromQueue now c this)) in
     let item := newItem now c d t u this in
     immediate (fst r) = false ->
     QueueItem.chatId item = c
     /\ QueueItem.priority item = isAdmin c this
     /\ (isAdmin c this = true ->
         exists front back,
           q0 = front ++ back
           /\ Forall isPrio front
           /\ (back = [] \/ exists y back', back = y :: back' /\ isNormal y)
           /\ queue (snd r) = front ++ item :: back)
     /\ (isAdmin c this = false -> queue (snd r) = q0 ++ [item])
     /\ (twoBuckets (queue this) ->
         twoBuckets (queue (snd r))
         /\ priorityBucket (queue (snd r))
            = priorityBucket q0 ++ (if isAdmin c this then [item] else [])
         /\ normalBucket (queue (snd r))
            = normalBucket q0 ++ (if isAdmin c this then [] else [item])))
  /\ (forall ops this,
        twoBuckets (queue this) -> twoBuckets (queue (run ops this)))
  /\ (forall ops parsed admins,
        twoBuckets (queue (run ops (constructor parsed admins FileMissing))))
  /\ isBusy (run (firstn 1 scenarioCalls) scenarioStart) = true
  /\ queueIds (run scenarioCalls scenarioStart)
     = [IdNum 1; IdNum 3; IdNum 2; IdNum 4].
Proof.
  split; [|split; [|split; [|split]]].
  - intros now c d t u this r q0 item Himm.
    apply immediate_false_why in Himm.
    destruct (addToQueue_queued now c d t u this Himm) as (_ & Hq & _).
    fold r in Hq. fold item in Hq. fold q0 in Hq.
    destruct (enqueue_place item q0) as [Hp Hn].
    split; [reflexivity|]. split; [reflexivity|].
    split; [|split].
    + intros Ha. rewrite Hq. apply Hp. exact Ha.
    + intros Ha. rewrite Hq. apply Hn. exact Ha.
    + intros Htb. rewrite Hq.
      change (isAdmin c this) with (QueueItem.priority item).
      apply enqueue_buckets. subst q0.
      eapply twoBuckets_subseq; [apply removeFromQueue_subseq | exact Htb].
  - apply run_twoBuckets.
  - intros ops parsed admins. apply run_twoBuckets. reflexivity.
  - vm_compute. reflexivity.
  - vm_compute. reflexivity.
Qed.

Definition scenarioBusy : BuildQueue := run (firstn 1 scenarioCalls) scenarioStart.

Lemma C3_priority_insertion_witness :
  immediate (fst (addToQueue 101 (IdNum 1) None TypeUrl "A" scenarioBusy)) = false
  /\ twoBuckets (queue scenarioBusy)
  /\ twoBuckets (queue (snd (addToQueue 101 (IdNum 1) None TypeUrl "A" scenarioBusy))).
Proof.
  assert (Hi : immediate (fst (addToQueue 101 (IdNum 1) None TypeUrl "A" scenarioBusy))
               = false) by (vm_compute; reflexivity).
  assert (Ht : twoBuckets (queue scenarioBusy)) by (vm_compute; reflexivity).
  split; [exact Hi|]. split; [exact Ht|].
  destruct C3_priority_insertion as [H _].
  destruct (H 101 (IdNum 1) None TypeUrl "A"%string scenarioBusy Hi)
    as (_ & _ & _ & _ & Hb).
  apply Hb. exact Ht.
Defined.

(* ------------------------------------------------------------------ *)
(** ** One request per identity *)

Lemma enqueue_perm item q : Permutation (item :: q) (enqueue item q).
Proof.
  destruct (enqueue_place item q) as [Hp Hn].
  destruct (QueueItem.priority item) eqn:E.
  - destruct (Hp eq_refl) as (front & back & -> & _ & _ & ->).
    apply Permutation_middle.
  - rewrite (Hn eq_refl). apply Permutation_cons_append.
Qed.

Lemma enqueue_ids item q c :
  In c (List.map QueueItem.chatId (enqueue item q))
  <-> c = QueueItem.chatId item \/ In c (List.map QueueItem.chatId q).
Proof.
  pose proof (Permutation_map QueueItem.chatId (enqueue_perm item q)) as P.
  simpl in P. split; intros H.
  - apply Permutation_sym in P. apply (Permutation_in _ P) in H.
    simpl in H. intuition.
  - apply (Permutation_in _ P). simpl. intuition.
Qed.

Lemma enqueue_NoDup item q :
  NoDup (List.map QueueItem.chatId q) ->
  ~ In (QueueItem.chatId item) (List.map QueueItem.chatId q) ->
  NoDup (List.map QueueItem.chatId (enqueue item q)).
Proof.
  intros Hnd Hin.
  pose proof (Permutation_map QueueItem.chatId (enqueue_perm item q)) as P.
  eapply Permutation_NoDup; [exact P|]. simpl. constructor; assumption.
Qed.

Lemma step_NoDup this op :
  NoDup (queueIds this) -> NoDup (queueIds (step this op)).
Proof.
  intros H. destruct (step_queue this op) as [Hs | (now & c & d & t & u & -> & E)].
  - unfold queueIds in *. eapply subseq_NoDup; [|exact H].
    apply subseq_map. exact Hs.
  - unfold queueIds. rewrite E. apply enqueue_NoDup.
    + eapply subseq_NoDup; [|exact H].
      apply subseq_map, removeFromQueue_subseq.
    + apply (removeFromQueue_absent now c this H).
Qed.

Lemma states_NoDup ops this :
  NoDup (queueIds this) -> Forall (fun s => NoDup (queueIds s)) (states ops this).
Proof.
  revert this. induction ops as [|op ops IH]; intros this H; simpl.
  - constructor; auto.
  - constructor; [assumption|]. apply IH, step_NoDup, H.
Qed.

(** Occupancy depends on the identities only, and survives leaving some
    out. *)
Lemma occupancy_shrinks this r :
  subseq (queue r) (queue this) ->
  incl (activeIds r) (activeIds this) ->
  noDuplicateOccupancy this -> noDuplicateOccupancy r.
Proof.
  unfold noDuplicateOccupancy, queueIds. intros Hq Ha [Hap Hnd].
  apply (subseq_map QueueItem.chatId) in Hq. split.
  - intros c [H1 H2]. apply (Hap c). split.
    + eapply subseq_In; eauto.
    + apply Ha, H2.
  - eapply subseq_NoDup; eauto.
Qed.

Lemma occupancy_same this r :
  queue r = queue this -> activeBuilds r = activeBuilds this ->
  noDuplicateOccupancy this -> noDuplicateOccupancy r.
Proof.
  intros Hq Ha. apply occupancy_shrinks.
  - rewrite Hq. apply subseq_refl.
  - unfold activeIds. rewrite Ha. apply incl_refl.
Qed.

Lemma keys_app {V} (m1 m2 : JsMap.t V) :
  JsMap.keys (m1 ++ m2) = JsMap.keys m1 ++ JsMap.keys m2.
Proof. apply map_app. Qed.

Lemma keys_delete_incl {V} k (m : JsMap.t V) :
  incl (JsMap.keys (JsMap.delete k m)) (JsMap.keys m).
Proof.
  unfold JsMap.keys, JsMap.delete. intros c Hc. apply in_map_iff in Hc.
  destruct Hc as (kv & E & Hin). apply filter_In in Hin.
  apply in_map_iff. exists kv. tauto.
Qed.

(** A request moves from the head of a duplicate-free queue into the
    registry. *)
Lemma occupancy_promote this r nextBuild rest b :
  queue this = nextBuild :: rest ->
  queue r = rest ->
  activeBuilds r = activeBuilds this ++ [(QueueItem.chatId nextBuild, b)] ->
  noDuplicateOccupancy this -> noDuplicateOccupancy r.
Proof.
  unfold noDuplicateOccupancy, queueIds, activeIds.
  intros Hq Hr Ha [Hap Hnd]. rewrite Hq in *. rewrite Hr, Ha. simpl in *.
  inversion Hnd as [|x l Hx Hl]; subst. split; [|assumption].
  intros c [H1 H2]. rewrite keys_app in H2. apply in_app_or in H2.
  destruct H2 as [H2 | [H2 | []]].
  - apply (Hap c). auto.
  - simpl in H2. subst c. contradiction.
Qed.

Lemma processNext_occupancy now this :
  noDuplicateOccupancy this -> noDuplicateOccupancy (processNext now this).
Proof.
  apply (processNext_induction now (fun this r =>
    noDuplicateOccupancy this -> noDuplicateOccupancy r)).
  - intros this0 _. apply occupancy_same; reflexivity.
  - intros this0 _ _. apply occupancy_same; reflexivity.
  - intros this0 nb rest Hq _ _. apply occupancy_same; [|reflexivity].
    unfold autoStarting. fields. symmetry. exact Hq.
  - intros this0 nb rest Hq _ _ _.
    apply (occupancy_promote this0 _ nb rest (freshBuild now nb)); fields; auto.
  - intros this0 nb rest Hq _ _ _ IH H. apply IH.
    revert H. apply occupancy_shrinks; fields.
    + rewrite Hq. apply subseq_skip, subseq_refl.
    + unfold activeIds. fields. apply incl_refl.
Qed.

Lemma release_occupancy now c ok this :
  noDuplicateOccupancy this -> noDuplicateOccupancy (release now c ok this).
Proof.
  intros H. destruct (release_cases now c ok this) as [[_ ->] | (build & _ & ->)].
  - revert H. apply occupancy_same; reflexivity.
  - apply processNext_occupancy. revert H. apply occupancy_shrinks; fields.
    + apply subseq_refl.
    + unfold activeIds. fields. apply keys_delete_incl.
Qed.

Lemma releaseAll_occupancy now toRelease this :
  noDuplicateOccupancy this -> noDuplicateOccupancy (releaseAll now toRelease this).
Proof.
  revert this. induction toRelease as [|[c r] rest IH]; intros this H; simpl.
  - exact H.
  - apply IH, release_occupancy, H.
Qed.

Lemma checkStuckBuilds_occupancy now this :
  noDuplicateOccupancy this -> noDuplicateOccupancy (checkStuckBuilds now this).
Proof.
  intros H. unfold checkStuckBuilds. destruct (_ =? 0); [exact H|].
  destruct (scanStuck now (activeBuilds this) [] this) as [toRelease this1] eqn:E.
  pose proof (scanStuck_fields now (activeBuilds this) [] this) as F.
  rewrite E in F. simpl in F. destruct F as (Fq & Fa & _).
  apply releaseAll_occupancy. revert H. apply occupancy_same; assumption.
Qed.

Lemma forceRelease_occupancy now c this :
  noDuplicateOccupancy this -> noDuplicateOccupancy (forceRelease now c this).
Proof.
  intros H.
  assert (Hall : noDuplicateOccupancy
            (processNext now
               (with_activeBuilds (JsMap.clear (activeBuilds this))
                  (emit LogForceReleaseAll this)))).
  { apply processNext_occupancy. revert H. apply occupancy_shrinks; fields.
    - apply subseq_refl.
    - unfold activeIds. fields. intros x []. }
  unfold forceRelease. cbv zeta.
  eapply occupancy_same; [reflexivity | reflexivity |].
  destruct c as [c|]; [|exact Hall].
  destruct (truthy c); [|exact Hall].
  destruct (JsMap.has c (activeBuilds this)); [|exact H].
  apply processNext_occupancy. revert H. apply occupancy_shrinks; fields.
  - apply subseq_refl.
  - unfold activeIds. fields. apply keys_delete_incl.
Qed.

Lemma updateActivity_keys now c this :
  activeIds (updateActivity now c this) = activeIds this.
Proof.
  unfold updateActivity, activeIds, JsMap.keys. cbv zeta.
  destruct c as [c|]; [destruct (_ && _)|]; fields; rewrite map_map;
    apply map_ext; intros [k v]; simpl; try reflexivity.
  destruct (chatId_eqb k c); reflexivity.
Qed.

(** The two calls that can put an identity in both places: a request for
    an identity that is building, a slot for an identity that is waiting. *)
Definition keepsApart (this : BuildQueue) (op : Op) : Prop :=
  match op with
  | OpAddToQueue _ c _ _ _ => JsMap.has c (activeBuilds this) = false
  | OpAcquire _ c _ _ _ => hasPendingBuild c this = false
  | _ => True
  end.

Lemma hasPendingBuild_In c this :
  hasPendingBuild c this = true <-> In c (queueIds this).
Proof.
  unfold hasPendingBuild, queueIds. rewrite existsb_exists, in_map_iff.
  split; intros (x & H1 & H2).
  - exists x. apply chatId_eqb_eq in H2. auto.
  - exists x. split; [assumption|]. apply chatId_eqb_eq. assumption.
Qed.

Lemma acquire_occupancy now c d t u this :
  hasPendingBuild c this = false ->
  noDuplicateOccupancy this ->
  noDuplicateOccupancy (snd (acquire now c d t u this)).
Proof.
  intros Hp H.
  assert (Hnot : ~ In c (queueIds this)).
  { rewrite <- hasPendingBuild_In. congruence. }
  destruct (JsMap.has c (activeBuilds this)) eqn:Hhas.
  - rewrite acquire_already by assumption. revert H.
    apply occupancy_same; reflexivity.
  - destruct (isBusy this) eqn:B.
    + rewrite acquire_full by assumption. revert H.
      apply occupancy_same; reflexivity.
    + rewrite acquire_ok by assumption. fields.
      destruct H as [Hap Hnd]. split; [|exact Hnd].
      unfold queueIds, activeIds in *. fields. intros c' [H1 H2].
      rewrite keys_app in H2. apply in_app_or in H2.
      destruct H2 as [H2 | [H2 | []]].
      * apply (Hap c'). auto.
      * simpl in H2. subst c'. contradiction.
Qed.

Lemma addToQueue_occupancy now c d t u this :
  JsMap.has c (activeBuilds this) = false ->
  noDuplicateOccupancy this ->
  noDuplicateOccupancy (snd (addToQueue now c d t u this)).
Proof.
  intros Hhas H. pose proof H as [Hap Hnd].
  pose proof (removeFromQueue_absent now c this Hnd) as Habs.
  pose proof (removeFromQueue_subseq now c this) as Hsub.
  apply (subseq_map QueueItem.chatId) in Hsub.
  destruct (isBusy this) eqn:B.
  - destruct (addToQueue_queued now c d t u this (or_introl B))
      as (_ & Hq & _ & Ha & _).
    unfold noDuplicateOccupancy, queueIds, activeIds in *. rewrite Hq, Ha. split.
    + intros c' [H1 H2]. apply enqueue_ids in H1. destruct H1 as [H1 | H1].
      * simpl in H1. subst c'. apply has_In_keys in H2. congruence.
      * apply (Hap c'). split; [|assumption]. eapply subseq_In; eauto.
    + apply enqueue_NoDup; [|exact Habs]. eapply subseq_NoDup; eauto.
  - destruct (addToQueue_immediate now c d t u this B Hhas)
      as (_ & _ & Hq & Ha & _).
    unfold noDuplicateOccupancy, queueIds, activeIds in *. rewrite Hq, Ha. split.
    + intros c' [H1 H2]. rewrite keys_app in H2. apply in_app_or in H2.
      destruct H2 as [H2 | [H2 | []]].
      * apply (Hap c'). split; [|assumption]. eapply subseq_In; eauto.
      * simpl in H2. subst c'. contradiction.
    + eapply subseq_NoDup; eauto.
Qed.

Lemma step_occupancy this op :
  keepsApart this op ->
  noDuplicateOccupancy this -> noDuplicateOccupancy (step this op).
Proof.
  destruct op; simpl; intros Hk H.
  - revert H. apply occupancy_same; reflexivity.
  - revert H. apply occupancy_same; reflexivity.
  - apply addToQueue_occupancy; assumption.
  - revert H. apply occupancy_shrinks.
    + apply removeFromQueue_subseq.
    + unfold activeIds.
      destruct (removeFromQueue_fields now chatId this) as (-> & _).
      apply incl_refl.
  - apply acquire_occupancy; assumption.
  - apply release_occupancy, H.
  - apply processNext_occupancy, H.
  - apply checkStuckBuilds_occupancy, H.
  - revert H. unfold noDuplicateOccupancy.
    rewrite updateActivity_keys.
    replace (queueIds (updateActivity now chatId this)) with (queueIds this);
      [tauto|].
    unfold updateActivity, queueIds. cbv zeta.
    destruct chatId as [c|]; [destruct (_ && _)|]; reflexivity.
  - apply forceRelease_occupancy, H.
  - revert H. apply occupancy_same; reflexivity.
  - revert H. apply occupancy_shrinks; simpl.
    + apply subseq_empty.
    + apply incl_refl.
Qed.

(** Two requests in a row for the same identity, on a fresh object: no
    setting for the limit, none for the administrators ([''.split(',')] is
    [['']]), no file. *)
Definition freshObject : BuildQueue := constructor None [EmptyString] FileMissing.

Definition doubleSubmit : list Op :=
  [ OpAddToQueue 1 (IdNum 7) None TypeUrl "u";
    OpAddToQueue 2 (IdNum 7) None TypeUrl "u" ]%string.

(** C1, as stated, fails: the first request of identity 7 takes the slot,
    the second finds 7 active and is queued, so that 7 is in the queue and
    in the registry. *)
Lemma C1_counterexample :
  noDuplicateOccupancy freshObject
  /\ queueIds (run doubleSubmit freshObject) = [IdNum 7]
  /\ activeIds (run doubleSubmit freshObject) = [IdNum 7]
  /\ ~ noDuplicateOccupancy (run doubleSubmit freshObject).
Proof.
  split; [|split; [|split]].
  - split; [intros c [[] _] | constructor].
  - vm_compute. reflexivity.
  - vm_compute. reflexivity.
  - intros [Hap _]. apply (Hap (IdNum 7)).
    split; vm_compute; left; reflexivity.
Qed.

(** C1, amended. Under every sequence of calls no identity is twice in the
    queue, provided none was at the start (none is when the object starts
    without a file). An identity can be in the queue and in the registry:
    [addToQueue] for an identity that is building queues the request, and
    [acquire] gives a slot to an identity that is waiting. Every other call,
    and these two for an identity that is not building, respectively not
    waiting, keeps the queue and the registry disjoint. *)
Theorem C1_no_duplicate_in_queue :
  forall (ops : list Op) (this : BuildQueue),
    (NoDup (queueIds this) ->
     Forall (fun s => NoDup (queueIds s)) (states ops this))
    /\ (forall op,
          keepsApart this op ->
          noDuplicateOccupancy this -> noDuplicateOccupancy (step this op))
    /\ (forall parsed admins,
          Forall (fun s => NoDup (queueIds s))
            (states ops (constructor parsed admins FileMissing))).
Proof.
  intros ops this. split; [|split].
  - apply states_NoDup.
  - intros op. apply step_occupancy.
  - intros parsed admins. apply states_NoDup. constructor.
Qed.

Lemma C1_no_duplicate_in_queue_witness :
  NoDup (queueIds freshObject)
  /\ Forall (fun s => NoDup (queueIds s)) (states doubleSubmit freshObject).
Proof.
  assert (H : NoDup (queueIds freshObject)) by constructor.
  split; [exact H|].
  apply (proj1 (C1_no_duplicate_in_queue doubleSubmit freshObject)). exact H.
Defined.

(* ------------------------------------------------------------------ *)
(** ** The console as a witness of the calls of [processNext] *)

Lemma processNextCalls_app a b :
  processNextCalls (a ++ b) = (processNextCalls a + processNextCalls b)%nat.
Proof. unfold processNextCalls. rewrite filter_app, length_app. reflexivity. Qed.

Lemma processNextCalls_one e :
  processNextCalls [e] = if opensProcessNext e then 1%nat else 0%nat.
Proof. unfold processNextCalls. simpl. destruct (opensProcessNext e); reflexivity. Qed.

Lemma notify_trace this :
  exists tr, trace (notifyQueueUpdates this) = trace this ++ tr
             /\ processNextCalls tr = 0%nat.
Proof.
  unfold notifyQueueUpdates. destruct (onQueueUpdate this).
  - exists (queueUpdates this). split; [reflexivity|].
    unfold queueUpdates. destruct (queue this); reflexivity.
  - exists []. rewrite app_nil_r. split; reflexivity.
Qed.

Lemma promoted_trace now nb rest this :
  exists tr, trace (promoted now nb rest this) = trace this ++ tr
             /\ processNextCalls tr = 1%nat.
Proof.
  unfold promoted.
  destruct (notify_trace
    (save now
       (emit (LogStarted (QueueItem.chatId nb) (QueueItem.userName nb)
                (JsMap.size (activeBuilds this) + 1) (maxConcurrent this))
          (with_activeBuilds
             (activeBuilds this ++ [(QueueItem.chatId nb, freshBuild now nb)])
             (autoStarting nb rest this))))) as (tr & E & Hn).
  rewrite E. unfold autoStarting. fields.
  exists ([LogAutoStarting (QueueItem.chatId nb) (QueueItem.userName nb);
           LogStarted (QueueItem.chatId nb) (QueueItem.userName nb)
             (JsMap.size (activeBuilds this) + 1) (maxConcurrent this)] ++ tr).
  split.
  - rewrite <- !app_assoc. reflexivity.
  - rewrite processNextCalls_app, Hn. reflexivity.
Qed.

Lemma startFailed_trace now nb rest this :
  trace (startFailed now nb rest this)
  = trace (promoted now nb rest this)
    ++ [LogCallbackNotSet; LogCompleted (QueueItem.chatId nb) false 0].
Proof.
  unfold startFailed. cbv zeta. fields. rewrite <- app_assoc. reflexivity.
Qed.

(** Each call of [processNext] shows once on the console; with a start
    callback there is no nested call. *)
Lemma processNext_trace now this :
  exists tr,
    trace (processNext now this) = trace this ++ tr
    /\ (1 <= processNextCalls tr)%nat
    /\ (onBuildStart this = true -> processNextCalls tr = 1%nat).
Proof.
  apply (processNext_induction now (fun this r =>
    exists tr, trace r = trace this ++ tr
               /\ (1 <= processNextCalls tr)%nat
               /\ (onBuildStart this = true -> processNextCalls tr = 1%nat))).
  - intros this0 _. exists [LogNoPending]. simpl. auto.
  - intros this0 _ _. eexists [_]. simpl. split; [reflexivity|]. auto.
  - intros this0 nb rest _ _ _. unfold autoStarting. fields.
    eexists [_; _; _]. rewrite <- !app_assoc. simpl.
    split; [reflexivity|]. auto.
  - intros this0 nb rest _ _ _ _.
    destruct (promoted_trace now nb rest this0) as (tr & E & Hn).
    fields. rewrite E.
    exists (tr ++ [CallBuildStart (QueueItem.chatId nb) (QueueItem.buildData nb)
                     (QueueItem.type nb) (QueueItem.userName nb)]).
    rewrite <- app_assoc. split; [reflexivity|].
    rewrite processNextCalls_app, Hn. simpl. auto.
  - intros this0 nb rest _ _ _ Hcb (tr' & E' & Hn' & _).
    destruct (promoted_trace now nb rest this0) as (tr & E & Hn).
    rewrite startFailed_trace, E in E'. rewrite E'.
    exists (tr ++ [LogCallbackNotSet;
                   LogCompleted (QueueItem.chatId nb) false 0] ++ tr').
    split; [rewrite <- !app_assoc; reflexivity|].
    rewrite !processNextCalls_app, Hn. split; [lia|]. congruence.
Qed.

Lemma has_delete_self {V} k (m : JsMap.t V) : JsMap.has k (JsMap.delete k m) = false.
Proof. rewrite delete_has, chatId_eqb_refl. reflexivity. Qed.

Lemma released_trace now c ok build this :
  trace (released now c ok build this)
  = trace this
    ++ [LogCompleted c ok
          (Math_round (inject_Z (now - BuildInfo.startTime build) / 1000)%Q)].
Proof. unfold released. cbv zeta. fields. reflexivity. Qed.

Lemma released_persisted now c ok build this :
  persisted (released now c ok build this)
  = Some (queue (released now c ok build this),
          stats (released now c ok build this)).
Proof. unfold released, persisted. cbv zeta. fields. reflexivity. Qed.

(** C4. For an identity with an active build, [release] computes
    [duration = now - startTime], counts a success and adds the duration
    to the cumulative time, or counts a failure only, prints the completion
    line, removes the build, saves the queue and the statistics, and then
    calls [processNext] once on the result. That call leaves the success
    counter, the cumulative time and the total as [release] set them; with
    a start callback registered it leaves the failure counter too and is
    the only call of [processNext] made. *)
Theorem C4_release_of_active :
  forall (now : Z) (c : ChatId) (ok : bool) (this : BuildQueue)
         (build : BuildInfo.t),
    JsMap.get c (activeBuilds this) = Some build ->
    let duration := now - BuildInfo.startTime build in
    let mid := released now c ok build this in
    let r := release now c ok this in
    r = processNext now mid
    /\ stats mid
       = (if ok
          then mkStats (success (stats this) + 1) (failed (stats this))
                 (total (stats this)) (totalTime (stats this) + duration)
          else mkStats (success (stats this)) (failed (stats this) + 1)
                 (total (stats this)) (totalTime (stats this)))
    /\ activeBuilds mid = JsMap.delete c (activeBuilds this)
    /\ JsMap.has c (activeBuilds mid) = false
    /\ queue mid = queue this
    /\ persisted mid = Some (queue mid, stats mid)
    /\ trace mid
       = trace this ++ [LogCompleted c ok (Math_round (inject_Z duration / 1000)%Q)]
    /\ processNextCalls (trace mid) = processNextCalls (trace this)
    /\ (processNextCalls (trace this) + 1 <= processNextCalls (trace r))%nat
    /\ success (stats r) = success (stats mid)
    /\ totalTime (stats r) = totalTime (stats mid)
    /\ total (stats r) = total (stats this)
    /\ failed (stats mid) <= failed (stats r)
    /\ (onBuildStart this = true ->
        stats r = stats mid
        /\ processNextCalls (trace r) = (processNextCalls (trace this) + 1)%nat).
Proof.
  intros now c ok this build Hget duration mid r.
  assert (Hr : r = processNext now mid) by (apply release_active; exact Hget).
  destruct (processNext_stats now mid) as (S1 & S2 & S3 & S4 & S5).
  destruct (processNext_trace now mid) as (tr & T1 & T2 & T3).
  assert (Hmid : trace mid
                 = trace this
                   ++ [LogCompleted c ok (Math_round (inject_Z duration / 1000)%Q)])
    by apply released_trace.
  assert (Hcalls : processNextCalls (trace mid) = processNextCalls (trace this)).
  { rewrite Hmid, processNextCalls_app. apply Nat.add_0_r. }
  split; [exact Hr|]. split; [apply released_stats|].
  split; [apply released_active|].
  split; [subst mid; rewrite released_active; apply has_delete_self|].
  split; [apply released_queue|]. split; [apply released_persisted|].
  split; [exact Hmid|]. split; [exact Hcalls|].
  rewrite Hr, T1, processNextCalls_app, Hcalls.
  split; [lia|]. split; [exact S1|]. split; [exact S3|].
  split; [rewrite S2; subst mid; rewrite released_stats; destruct ok; reflexivity|].
  split; [exact S4|].
  intros Hcb.
  assert (Hcb' : onBuildStart mid = true)
    by (subst mid; rewrite released_onBuildStart; exact Hcb).
  split; [apply S5, Hcb'|]. rewrite (T3 Hcb'). reflexivity.
Qed.

(** One slot, identity 7 building since time 1, a start callback set. *)
Definition oneActive : BuildQueue :=
  run [OpSetOnBuildStart true; OpAddToQueue 1 (IdNum 7) None TypeUrl "u"%string]
    freshObject.

Lemma C4_release_of_active_witness :
  JsMap.get (IdNum 7) (activeBuilds oneActive)
  = Some (BuildInfo.mk 1 1 None TypeUrl "u")
  /\ stats (release 61 (IdNum 7) true oneActive) = mkStats 1 0 1 60.
Proof.
  assert (H : JsMap.get (IdNum 7) (activeBuilds oneActive)
              = Some (BuildInfo.mk 1 1 None TypeUrl "u"))
    by (vm_compute; reflexivity).
  split; [exact H|].
  destruct (C4_release_of_active 61 (IdNum 7) true oneActive _ H)
    as (_ & Hs & _ & _ & _ & _ & _ & _ & _ & _ & _ & _ & _ & Hcb).
  destruct Hcb as [-> _]; [vm_compute; reflexivity|].
  rewrite Hs. vm_compute. reflexivity.
Defined.

(* ------------------------------------------------------------------ *)
(** ** [release] of an identity that is not building *)

(** The second request of identity 7 waits while the first builds; two
    releases follow. *)
Definition queuedBehindItself : BuildQueue :=
  run [OpSetOnBuildStart true;
       OpAddToQueue 1 (IdNum 7) None TypeUrl "u";
       OpAddToQueue 2 (IdNum 7) None TypeUrl "u"]%string freshObject.

(** C5, as stated, fails in its last part: when the identity also has a
    request waiting, the first [release] promotes it, the identity is
    active again, and the second [release] counts a second success and
    empties the slot a second time. *)
Lemma C5_counterexample :
  let once := release 3 (IdNum 7) true queuedBehindItself in
  let twice := release 4 (IdNum 7) true once in
  success (stats queuedBehindItself) = 0
  /\ success (stats once) = 1
  /\ activeIds once = [IdNum 7]
  /\ success (stats twice) = 2
  /\ activeIds twice = []
  /\ stats twice <> stats once
  /\ activeBuilds twice <> activeBuilds once.
Proof.
  vm_compute. repeat split; try reflexivity; discriminate.
Qed.

(** After [processNext] an identity that was neither building nor waiting
    is not building. *)
Lemma processNext_inactive now c this :
  JsMap.has c (activeBuilds this) = false ->
  hasPendingBuild c this = false ->
  JsMap.has c (activeBuilds (processNext now this)) = false.
Proof.
  intros Hhas Hpend.
  destruct (processNext_active now this) as (added & E & _ & _ & Hin).
  apply has_false_not_In. rewrite E, keys_app. intros H.
  apply in_app_or in H. destruct H as [H | H].
  - apply has_In_keys in H. congruence.
  - unfold JsMap.keys in H. apply in_map_iff in H.
    destruct H as ([c' b] & Ec & Hc). simpl in Ec. subst c'.
    destruct (Hin c b Hc) as (Hq & _). apply hasPendingBuild_In in Hq. congruence.
Qed.

(** C5, amended. For an identity that has no active build, [release]
    changes nothing but the console, where it prints its warning: queue,
    registry, the four counters and the file are as before and
    [processNext] is not called. Hence a second [release(identity, true)]
    right after the first is such a no-op, the counters and the registry
    being changed once, whenever the identity had no request waiting when
    first released. *)
Theorem C5_release_of_inactive :
  forall (now : Z) (c : ChatId) (ok : bool) (this : BuildQueue),
    (JsMap.has c (activeBuilds this) = false ->
     let r := release now c ok this in
     r = emit (LogReleaseNonExistent c) this
     /\ queue r = queue this
     /\ activeBuilds r = activeBuilds this
     /\ stats r = stats this
     /\ queueFile r = queueFile this
     /\ trace r = trace this ++ [LogReleaseNonExistent c]
     /\ processNextCalls (trace r) = processNextCalls (trace this))
    /\ (forall now' build,
          JsMap.get c (activeBuilds this) = Some build ->
          hasPendingBuild c this = false ->
          let once := release now c true this in
          let twice := release now' c true once in
          JsMap.has c (activeBuilds once) = false
          /\ success (stats once) = success (stats this) + 1
          /\ twice = emit (LogReleaseNonExistent c) once
          /\ stats twice = stats once
          /\ activeBuilds twice = activeBuilds once
          /\ queue twice = queue once).
Proof.
  intros now c ok this. split.
  - intros Hhas r. apply get_None_has in Hhas.
    assert (Hr : r = emit (LogReleaseNonExistent c) this)
      by (apply release_inactive; exact Hhas).
    rewrite Hr. repeat split; try reflexivity.
    fields. rewrite processNextCalls_app. apply Nat.add_0_r.
  - intros now' build Hget Hpend once twice.
    assert (Honce : once = processNext now (released now c true build this))
      by (apply release_active; exact Hget).
    assert (Hgone : JsMap.has c (activeBuilds once) = false).
    { rewrite Honce. apply processNext_inactive.
      - rewrite released_active. apply has_delete_self.
      - unfold hasPendingBuild in *. rewrite released_queue. exact Hpend. }
    assert (Htwice : twice = emit (LogReleaseNonExistent c) once).
    { apply release_inactive. apply get_None_has. exact Hgone. }
    split; [exact Hgone|]. split.
    { rewrite Honce.
      destruct (processNext_stats now (released now c true build this)) as (-> & _).
      rewrite released_stats. reflexivity. }
    split; [exact Htwice|]. rewrite Htwice. repeat split; reflexivity.
Qed.

Lemma C5_release_of_inactive_witness :
  JsMap.has (IdNum 8) (activeBuilds oneActive) = false
  /\ JsMap.get (IdNum 7) (activeBuilds oneActive)
     = Some (BuildInfo.mk 1 1 None TypeUrl "u")
  /\ hasPendingBuild (IdNum 7) oneActive = false
  /\ stats (release 5 (IdNum 8) true oneActive) = stats oneActive
  /\ stats (release 9 (IdNum 7) true (release 5 (IdNum 7) true oneActive))
     = stats (release 5 (IdNum 7) true oneActive).
Proof.
  assert (H1 : JsMap.has (IdNum 8) (activeBuilds oneActive) = false)
    by (vm_compute; reflexivity).
  assert (H2 : JsMap.get (IdNum 7) (activeBuilds oneActive)
               = Some (BuildInfo.mk 1 1 None TypeUrl "u"))
    by (vm_compute; reflexivity).
  assert (H3 : hasPendingBuild (IdNum 7) oneActive = false)
    by (vm_compute; reflexivity).
  split; [exact H1|]. split; [exact H2|]. split; [exact H3|]. split.
  - destruct (C5_release_of_inactive 5 (IdNum 8) true oneActive) as [H _].
    apply (H H1).
  - destruct (C5_release_of_inactive 5 (IdNum 7) true oneActive) as [_ H].
    apply (H 9 _ H2 H3).
Defined.

(* ------------------------------------------------------------------ *)
(** ** The watchdog *)

Definition isStuck (now : Z) (build : BuildInfo.t) : bool :=
  match stuckReason now build with Some _ => true | None => false end.

(** With a last-activity stamp that is not zero the fallback of the scan
    plays no part: a build is stuck exactly when it is over a budget. *)
Lemma isStuck_overBudget now build :
  BuildInfo.lastActivity build <> 0 -> isStuck now build = overBudget now build.
Proof.
  intros H. unfold isStuck, stuckReason, overBudget. cbv zeta.
  apply Z.eqb_neq in H. rewrite H.
  destruct (_ >? MAX_BUILD_TIME); [reflexivity|].
  destruct (_ >? INACTIVITY_TIMEOUT); reflexivity.
Qed.

Lemma scanStuck_toRelease now entries toRelease this :
  List.map fst (fst (scanStuck now entries toRelease this))
  = List.map fst toRelease
    ++ List.map fst (List.filter (fun kv => isStuck now (snd kv)) entries).
Proof.
  revert toRelease this.
  induction entries as [|[c b] entries IH]; intros toRelease this; simpl.
  - rewrite app_nil_r. reflexivity.
  - assert (Hs : isStuck now b
                 = match stuckReason now b with Some _ => true | None => false end)
      by reflexivity.
    rewrite Hs. destruct (stuckReason now b) as [[|]|]; simpl.
    + rewrite IH, map_app, <- app_assoc. reflexivity.
    + rewrite IH, map_app, <- app_assoc. reflexivity.
    + apply IH.
Qed.

Lemma subseq_filter {A} (p : A -> bool) l : subseq (List.filter p l) l.
Proof.
  induction l as [|x l IH]; simpl; [constructor|].
  destruct (p x); [apply subseq_keep | apply subseq_skip]; exact IH.
Qed.

(** What one forced release does. *)
Lemma release_failed_effect now c this :
  JsMap.has c (activeBuilds this) = true ->
  let r := release now c false this in
  exists added,
    activeBuilds r = JsMap.delete c (activeBuilds this) ++ added
    /\ (forall kv, In kv added ->
          BuildInfo.startTime (snd kv) = now /\ BuildInfo.lastActivity (snd kv) = now)
    /\ failed (stats this) + 1 <= failed (stats r)
    /\ (onBuildStart this = true -> failed (stats r) = failed (stats this) + 1)
    /\ success (stats r) = success (stats this)
    /\ total (stats r) = total (stats this)
    /\ totalTime (stats r) = totalTime (stats this)
    /\ onBuildStart r = onBuildStart this.
Proof.
  intros Hhas r. subst r.
  destruct (release_cases now c false this) as [[Hnone _] | (build & _ & ->)].
  { apply get_None_has in Hnone. congruence. }
  set (mid := released now c false build this).
  destruct (processNext_active now mid) as (added & Ea & _ & _ & Hfresh).
  destruct (processNext_stats now mid) as (S1 & S2 & S3 & S4 & S5).
  destruct (processNext_config now mid) as (_ & _ & Hcb & _).
  exists added. subst mid. fields.
  split; [exact Ea|]. split.
  { intros [k b] Hin. simpl. apply (Hfresh k b Hin). }
  split; [lia|]. split.
  { intros H. rewrite (S5 H). reflexivity. }
  auto.
Qed.

(** What the second loop of the sweep does, when each identity to release
    is listed once and is building. *)
Lemma releaseAll_effect now toRelease :
  forall this,
    NoDup (List.map fst toRelease) ->
    (forall c, In c (List.map fst toRelease) ->
               JsMap.has c (activeBuilds this) = true) ->
    let r := releaseAll now toRelease this in
    failed (stats this) + Z.of_nat (List.length toRelease) <= failed (stats r)
    /\ (onBuildStart this = true ->
        failed (stats r) = failed (stats this) + Z.of_nat (List.length toRelease))
    /\ success (stats r) = success (stats this)
    /\ total (stats r) = total (stats this)
    /\ totalTime (stats r) = totalTime (stats this)
    /\ onBuildStart r = onBuildStart this
    /\ (forall kv, In kv (activeBuilds this) ->
                   ~ In (fst kv) (List.map fst toRelease) ->
                   In kv (activeBuilds r))
    /\ (forall kv, In kv (activeBuilds r) ->
          (In kv (activeBuilds this) /\ ~ In (fst kv) (List.map fst toRelease))
          \/ (BuildInfo.startTime (snd kv) = now
              /\ BuildInfo.lastActivity (snd kv) = now)).
Proof.
  induction toRelease as [|[c reason] rest IH]; intros this Hnd Hact; simpl.
  - repeat split; auto; lia.
  - simpl in Hnd. inversion Hnd as [|x l Hc Hrest]; subst.
    destruct (release_failed_effect now c this (Hact c (or_introl eq_refl)))
      as (added & Ea & Hfresh & F1 & F2 & F3 & F4 & F5 & F6).
    set (this1 := release now c false this) in *.
    assert (Hact1 : forall c', In c' (List.map fst rest) ->
                               JsMap.has c' (activeBuilds this1) = true).
    { intros c' Hc'. apply has_In_keys. rewrite Ea, keys_app.
      apply in_or_app. left. apply has_In_keys. rewrite delete_has.
      rewrite (Hact c' (or_intror Hc')).
      assert (c' <> c) by (intros ->; contradiction).
      apply chatId_eqb_neq in H. rewrite H. reflexivity. }
    destruct (IH this1 Hrest Hact1) as (I1 & I2 & I3 & I4 & I5 & I6 & I7 & I8).
    split; [lia|]. split.
    { intros Hcb. rewrite I2 by congruence. rewrite (F2 Hcb). lia. }
    split; [congruence|]. split; [congruence|]. split; [congruence|].
    split; [congruence|]. split.
    + intros kv Hin Hnot. apply I7.
      * rewrite Ea. apply in_or_app. left. apply delete_In. split; [exact Hin|].
        intros E. apply Hnot. left. symmetry. exact E.
      * intros Hr. apply Hnot. right. exact Hr.
    + intros kv Hin. destruct (I8 kv Hin) as [[H1 H2] | H]; [|right; exact H].
      rewrite Ea in H1. apply in_app_or in H1. destruct H1 as [H1 | H1].
      * apply delete_In in H1. left. split; [tauto|].
        intros [E | E]; [|contradiction]. destruct H1 as [_ H1]. congruence.
      * right. apply Hfresh. exact H1.
Qed.

Lemma fresh_not_overBudget now build :
  BuildInfo.startTime build = now -> BuildInfo.lastActivity build = now ->
  overBudget now build = false.
Proof.
  intros H1 H2. unfold overBudget. rewrite H1, H2, Z.sub_diag. reflexivity.
Qed.

(** C6. On a sweep over a registry whose builds carry a last-activity
    stamp (any time but the epoch itself), a build is flagged exactly when
    [now - startTime] exceeds the runtime budget or [now - lastActivity]
    exceeds the inactivity budget; the scan changes neither registry, queue
    nor statistics, and only then are the flagged identities, in registry
    order, released with [success = false]. After the sweep no flagged
    build is in the registry, every other build is, each flagged build has
    been counted as a failure (the failure counter grows by their number,
    plus one per start that [processNext] finds without a callback), and
    the other three counters are unchanged. *)
Theorem C6_watchdog_sweep :
  forall (now : Z) (this : BuildQueue),
    NoDup (activeIds this) ->
    Forall (fun kv => BuildInfo.lastActivity (snd kv) <> 0) (activeBuilds this) ->
    let flagged :=
      List.filter (fun kv => overBudget now (snd kv)) (activeBuilds this) in
    let r := checkStuckBuilds now this in
    (exists toRelease scanned,
       scanStuck now (activeBuilds this) [] this = (toRelease, scanned)
       /\ List.map fst toRelease = List.map fst flagged
       /\ activeBuilds scanned = activeBuilds this
       /\ queue scanned = queue this
       /\ stats scanned = stats this
       /\ r = releaseAll now toRelease scanned)
    /\ (forall c b, In (c, b) flagged -> ~ In (c, b) (activeBuilds r))
    /\ (forall c b, In (c, b) (activeBuilds this) -> overBudget now b = false ->
                    In (c, b) (activeBuilds r))
    /\ failed (stats this) + Z.of_nat (List.length flagged) <= failed (stats r)
    /\ (onBuildStart this = true ->
        failed (stats r) = failed (stats this) + Z.of_nat (List.length flagged))
    /\ success (stats r) = success (stats this)
    /\ total (stats r) = total (stats this)
    /\ totalTime (stats r) = totalTime (stats this).
Proof.
  intros now this Hnd Hstamp flagged r.
  destruct (scanStuck now (activeBuilds this) [] this) as [toRelease scanned] eqn:E.
  pose proof (scanStuck_fields now (activeBuilds this) [] this) as F.
  rewrite E in F. simpl in F.
  destruct F as (Fq & Fa & Fs & _ & _ & Fcb & _).
  pose proof (scanStuck_toRelease now (activeBuilds this) [] this) as Hids.
  rewrite E in Hids. simpl in Hids.
  assert (Hsame : List.filter (fun kv => isStuck now (snd kv)) (activeBuilds this)
                  = flagged).
  { subst flagged. apply filter_ext_in. intros kv Hin.
    rewrite Forall_forall in Hstamp. apply isStuck_overBudget, Hstamp, Hin. }
  rewrite Hsame in Hids.
  assert (Hr : r = releaseAll now toRelease scanned).
  { subst r. unfold checkStuckBuilds. rewrite E.
    destruct (JsMap.size (activeBuilds this) =? 0) eqn:Z0; [|reflexivity].
    destruct (activeBuilds this); [|unfold JsMap.size in Z0; simpl in Z0; lia].
    simpl in E. inversion E. reflexivity. }
  assert (Hlen : List.length toRelease = List.length flagged).
  { rewrite <- (length_map fst toRelease), Hids, length_map. reflexivity. }
  assert (Hnd' : NoDup (List.map fst toRelease)).
  { rewrite Hids. eapply subseq_NoDup; [|exact Hnd].
    apply subseq_map. subst flagged. apply subseq_filter. }
  assert (Hact : forall c, In c (List.map fst toRelease) ->
                           JsMap.has c (activeBuilds scanned) = true).
  { intros c Hc. rewrite Hids in Hc. rewrite Fa. apply has_In_keys.
    apply in_map_iff in Hc. destruct Hc as (kv & Ek & Hk).
    subst flagged. apply filter_In in Hk. apply in_map_iff. exists kv. tauto. }
  destruct (releaseAll_effect now toRelease scanned Hnd' Hact)
    as (R1 & R2 & R3 & R4 & R5 & _ & R7 & R8).
  rewrite <- Hr in *. rewrite Fs, Fa, Hlen in *.
  split.
  { exists toRelease, scanned. auto 10. }
  split.
  { intros c b Hin Hin'. subst flagged. apply filter_In in Hin.
    destruct Hin as [Hin Hover]. simpl in Hover.
    destruct (R8 _ Hin') as [[_ Hnot] | [T1 T2]].
    - apply Hnot. rewrite Hids. apply in_map_iff. exists (c, b).
      split; [reflexivity|]. apply filter_In. auto.
    - simpl in T1, T2. rewrite (fresh_not_overBudget now b T1 T2) in Hover.
      discriminate. }
  split.
  { intros c b Hin Hover. apply (R7 (c, b) Hin). rewrite Hids. simpl.
    intros Hc. apply in_map_iff in Hc. destruct Hc as ([c' b'] & Ec & Hc).
    simpl in Ec. subst c'. subst flagged. apply filter_In in Hc.
    destruct Hc as [Hc Hover']. simpl in Hover'.
    assert (b' = b); [|congruence].
    unfold activeIds, JsMap.keys in Hnd.
    clear - Hnd Hin Hc. induction (activeBuilds this) as [|[k v] m IH].
    - contradiction.
    - simpl in Hnd. inversion Hnd as [|x l Hk Hm]; subst.
      destruct Hin as [Hin | Hin], Hc as [Hc | Hc].
      + congruence.
      + inversion Hin; subst. exfalso. apply Hk. apply in_map_iff.
        exists (c, b'). auto.
      + inversion Hc; subst. exfalso. apply Hk. apply in_map_iff.
        exists (c, b). auto.
      + auto. }
  split; [exact R1|]. split; [intros Hcb; apply R2; congruence|].
  auto.
Qed.

(** Two slots: identity 1 building since time 1000, identity 2 since
    2500000, identity 3 waiting; a start callback is set. *)
Definition sweepExample : BuildQueue :=
  run [OpSetOnBuildStart true;
       OpAddToQueue 1000 (IdNum 1) None TypeUrl "a";
       OpAddToQueue 2500000 (IdNum 2) None TypeUrl "b";
       OpAddToQueue 2500001 (IdNum 3) None TypeUrl "c"]%string
    (constructor (Some 2) [] FileMissing).

Lemma C6_watchdog_sweep_witness :
  NoDup (activeIds sweepExample)
  /\ Forall (fun kv => BuildInfo.lastActivity (snd kv) <> 0)
       (activeBuilds sweepExample)
  /\ activeIds sweepExample = [IdNum 1; IdNum 2]
  /\ failed (stats (checkStuckBuilds 3000000 sweepExample)) = 1
  /\ activeIds (checkStuckBuilds 3000000 sweepExample) = [IdNum 2; IdNum 3].
Proof.
  assert (H1 : NoDup (activeIds sweepExample)).
  { vm_compute. repeat constructor; simpl; intuition discriminate. }
  assert (H2 : Forall (fun kv => BuildInfo.lastActivity (snd kv) <> 0)
                 (activeBuilds sweepExample)).
  { vm_compute. repeat constructor; discriminate. }
  split; [exact H1|]. split; [exact H2|]. split; [vm_compute; reflexivity|].
  split; [|vm_compute; reflexivity].
  destruct (C6_watchdog_sweep 3000000 sweepExample H1 H2)
    as (_ & _ & _ & _ & Hf & _).
  rewrite Hf; vm_compute; reflexivity.
Defined.

(* ------------------------------------------------------------------ *)
(** ** Draining after a release *)

(** One slot, no start callback: identity 1 building, 2 and 3 waiting. *)
Definition noCallbackBacklog : BuildQueue :=
  run [OpAddToQueue 1 (IdNum 1) None TypeUrl "a";
       OpAddToQueue 2 (IdNum 2) None TypeUrl "b";
       OpAddToQueue 3 (IdNum 3) None TypeUrl "c"]%string freshObject.

(** C7, as stated, fails: on an object without a start callback, releasing
    the one active build with two requests waiting empties the queue (it
    shrinks by two), leaves no active build, and counts both requests as
    failed. *)
Lemma C7_counterexample :
  maxConcurrent noCallbackBacklog = 1
  /\ activeIds noCallbackBacklog = [IdNum 1]
  /\ queueIds noCallbackBacklog = [IdNum 2; IdNum 3]
  /\ queueIds (release 4 (IdNum 1) true noCallbackBacklog) = []
  /\ activeIds (release 4 (IdNum 1) true noCallbackBacklog) = []
  /\ failed (stats (release 4 (IdNum 1) true noCallbackBacklog)) = 2.
Proof. vm_compute. repeat split; reflexivity. Qed.

(** C7, amended. With a start callback registered, one slot, one active
    build and at least one request waiting, [release] of that build
    promotes exactly the head of the queue: the registry then holds that
    one request, started [now], the queue is the rest and has shrunk by
    one, and [processNext] ran once. And whenever [processNext] pops a head
    whose identity is building, so that [acquire] refuses it, the head goes
    back to the front, the state is saved, and nothing else is tried:
    queue, registry and statistics are as before and no further call of
    [processNext] is made. *)
Theorem C7_drain_after_release :
  (forall now c ok this build nextBuild rest,
     maxConcurrent this = 1 ->
     activeBuilds this = [(c, build)] ->
     queue this = nextBuild :: rest ->
     onBuildStart this = true ->
     let r := release now c ok this in
     activeBuilds r = [(QueueItem.chatId nextBuild, freshBuild now nextBuild)]
     /\ queue r = rest
     /\ S (List.length (queue r)) = List.length (queue this)
     /\ processNextCalls (trace r) = S (processNextCalls (trace this))
     /\ persisted r = Some (queue r, stats r))
  /\ (forall now this nextBuild rest,
        queue this = nextBuild :: rest ->
        isBusy this = false ->
        JsMap.has (QueueItem.chatId nextBuild) (activeBuilds this) = true ->
        let r := processNext now this in
        queue r = nextBuild :: rest
        /\ activeBuilds r = activeBuilds this
        /\ stats r = stats this
        /\ persisted r = Some (queue this, stats this)
        /\ processNextCalls (trace r) = S (processNextCalls (trace this))).
Proof.
  split.
  - intros now c ok this build nb rest Hmax Hact Hq Hcb r.
    assert (Hget : JsMap.get c (activeBuilds this) = Some build).
    { rewrite Hact. simpl. rewrite chatId_eqb_refl. reflexivity. }
    assert (Hr : r = processNext now (released now c ok build this))
      by (apply release_active; exact Hget).
    set (mid := released now c ok build this) in *.
    assert (Hma : activeBuilds mid = []).
    { subst mid. rewrite released_active, Hact. unfold JsMap.delete. simpl.
      rewrite chatId_eqb_refl. reflexivity. }
    assert (Hstart : r = emit (CallBuildStart (QueueItem.chatId nb)
                                 (QueueItem.buildData nb) (QueueItem.type nb)
                                 (QueueItem.userName nb))
                           (promoted now nb rest mid)).
    { rewrite Hr. apply processNext_start.
      - subst mid. rewrite released_queue. exact Hq.
      - unfold isBusy. rewrite Hma. subst mid. rewrite released_max, Hmax.
        reflexivity.
      - rewrite Hma. reflexivity.
      - subst mid. rewrite released_onBuildStart. exact Hcb. }
    destruct (promoted_trace now nb rest mid) as (tr & Et & Hn).
    destruct (promoted_fields now nb rest mid)
      as (Pq & Pa & Ps & _ & _ & _ & _ & Pp).
    rewrite Hstart. fields. rewrite Hma, Hq. simpl.
    split; [reflexivity|]. split; [reflexivity|]. split; [reflexivity|].
    split.
    + rewrite Et, <- app_assoc, processNextCalls_app, processNextCalls_app, Hn.
      subst mid. rewrite released_trace, processNextCalls_app.
      rewrite !processNextCalls_one. cbn [opensProcessNext]. lia.
    + unfold persisted in *. fields. rewrite Pp. reflexivity.
  - intros now this nb rest Hq Hbusy Hhas r. subst r.
    rewrite (processNext_pushback now this nb rest Hq Hbusy Hhas).
    unfold autoStarting, persisted. fields.
    repeat split; try reflexivity.
    + rewrite Hq. reflexivity.
    + rewrite !processNextCalls_app, !processNextCalls_one.
      cbn [opensProcessNext]. lia.
Qed.

(** One slot, a start callback, identity 1 building and 2, 3 waiting. *)
Definition callbackBacklog : BuildQueue :=
  run [OpSetOnBuildStart true;
       OpAddToQueue 1 (IdNum 1) None TypeUrl "a";
       OpAddToQueue 2 (IdNum 2) None TypeUrl "b";
       OpAddToQueue 3 (IdNum 3) None TypeUrl "c"]%string freshObject.

(** Two slots, identity 1 building and waiting behind itself. *)
Definition headIsBuilding : BuildQueue :=
  run [OpSetOnBuildStart true;
       OpAddToQueue 1 (IdNum 1) None TypeUrl "a";
       OpAddToQueue 2 (IdNum 2) None TypeUrl "b";
       OpAddToQueue 3 (IdNum 1) None TypeUrl "a";
       OpForceRelease 4 (Some (IdNum 2))]%string
    (constructor (Some 2) [] FileMissing).

Lemma C7_drain_after_release_witness :
  activeIds (release 4 (IdNum 1) true callbackBacklog) = [IdNum 2]
  /\ queueIds (release 4 (IdNum 1) true callbackBacklog) = [IdNum 3]
  /\ isBusy headIsBuilding = false
  /\ queueIds (processNext 5 headIsBuilding) = [IdNum 1]
  /\ activeIds (processNext 5 headIsBuilding) = [IdNum 1].
Proof.
  destruct C7_drain_after_release as [H1 H2].
  destruct (H1 4 (IdNum 1) true callbackBacklog
              (BuildInfo.mk 1 1 None TypeUrl "a")
              (QueueItem.mk "build_2_2" (IdNum 2) "b" None TypeUrl false 2 "waiting")
              [QueueItem.mk "build_3_3" (IdNum 3) "c" None TypeUrl false 3 "waiting"])
    as (A1 & A2 & _); try (vm_compute; reflexivity).
  destruct (H2 5 headIsBuilding
              (QueueItem.mk "build_3_1" (IdNum 1) "a" None TypeUrl false 3 "waiting")
              [])
    as (B1 & B2 & _); try (vm_compute; reflexivity).
  unfold activeIds, queueIds. rewrite A1, A2, B1, B2.
  repeat split; vm_compute; reflexivity.
Defined.

(* ------------------------------------------------------------------ *)
(** ** The administrative release *)

(** One slot, no start callback: identity 1 building, identity 2 waiting. *)
Definition noCallbackPair : BuildQueue :=
  run [OpAddToQueue 1 (IdNum 1) None TypeUrl "a";
       OpAddToQueue 2 (IdNum 2) None TypeUrl "b"]%string freshObject.

(** C10, as stated, fails: without a start callback the [processNext]
    that [forceRelease] triggers starts the waiting request and at once
    releases it as failed, so the failure counter moves. *)
Lemma C10_counterexample :
  activeIds noCallbackPair = [IdNum 1]
  /\ failed (stats noCallbackPair) = 0
  /\ failed (stats (forceRelease 3 (Some (IdNum 1)) noCallbackPair)) = 1
  /\ failed (stats (forceRelease 3 None noCallbackPair)) = 1
  /\ stats (forceRelease 3 (Some (IdNum 1)) noCallbackPair) <> stats noCallbackPair.
Proof. vm_compute. repeat split; try reflexivity. discriminate. Qed.

(** The object on which [forceRelease] calls [processNext]: without one
    entry, or without any. *)
Definition forced (chatId : option ChatId) (this : BuildQueue) : BuildQueue :=
  match chatId with
  | Some c =>
      if truthy c
      then with_activeBuilds (JsMap.delete c (activeBuilds this))
             (emit (LogForceRelease c) this)
      else with_activeBuilds [] (emit LogForceReleaseAll this)
  | None => with_activeBuilds [] (emit LogForceReleaseAll this)
  end.

(** Does [forceRelease] find something to do? *)
Definition forceApplies (chatId : option ChatId) (this : BuildQueue) : bool :=
  match chatId with
  | Some c => if truthy c then JsMap.has c (activeBuilds this) else true
  | None => true
  end.

Lemma forceRelease_eq now chatId this :
  forceRelease now chatId this
  = save now (if forceApplies chatId this
              then processNext now (forced chatId this)
              else this).
Proof.
  unfold forceRelease, forceApplies, forced. cbv zeta.
  destruct chatId as [c|]; [|reflexivity].
  destruct (truthy c); [|reflexivity].
  destruct (JsMap.has c (activeBuilds this)); reflexivity.
Qed.

Lemma forced_fields chatId this :
  stats (forced chatId this) = stats this
  /\ queue (forced chatId this) = queue this
  /\ onBuildStart (forced chatId this) = onBuildStart this
  /\ processNextCalls (trace (forced chatId this)) = processNextCalls (trace this).
Proof.
  unfold forced.
  destruct chatId as [c|]; [destruct (truthy c)|]; fields;
    rewrite processNextCalls_app, processNextCalls_one; cbn [opensProcessNext];
    auto using Nat.add_0_r.
Qed.

(** C10, amended. [forceRelease(identity)] for an identity that is
    building removes its entry, and [forceRelease()] (also with the falsy
    identities 0 and the empty string) empties the registry; both then call
    [processNext] once and save. For an identity that is not building it
    only saves. In no case does it touch the success counter, the total or
    the cumulative time, and the failure counter is untouched by the
    release itself: with a start callback registered all four counters are
    unchanged; without one, the [processNext] it triggers counts the
    requests it starts as failed. *)
Theorem C10_force_release :
  forall (now : Z) (chatId : option ChatId) (this : BuildQueue),
    let r := forceRelease now chatId this in
    success (stats r) = success (stats this)
    /\ total (stats r) = total (stats this)
    /\ totalTime (stats r) = totalTime (stats this)
    /\ failed (stats this) <= failed (stats r)
    /\ (onBuildStart this = true -> stats r = stats this)
    /\ persisted r = Some (queue r, stats r)
    /\ (forceApplies chatId this = true ->
        r = save now (processNext now (forced chatId this))
        /\ stats (forced chatId this) = stats this
        /\ (processNextCalls (trace this) + 1 <= processNextCalls (trace r))%nat
        /\ (onBuildStart this = true ->
            processNextCalls (trace r) = (processNextCalls (trace this) + 1)%nat)
        /\ exists added,
             activeBuilds r = activeBuilds (forced chatId this) ++ added
             /\ (List.length added <= 1)%nat
             /\ forall c b, In (c, b) added ->
                  In c (queueIds this) /\ BuildInfo.startTime b = now)
    /\ (forceApplies chatId this = false -> r = save now this)
    /\ (forall c, chatId = Some c -> truthy c = true ->
          activeBuilds (forced chatId this) = JsMap.delete c (activeBuilds this)
          /\ JsMap.has c (activeBuilds (forced chatId this)) = false)
    /\ (chatId = None -> activeBuilds (forced chatId this) = []).
Proof.
  intros now chatId this r. subst r. rewrite forceRelease_eq.
  destruct (forced_fields chatId this) as (Fs & Fq & Fcb & Ft).
  destruct (processNext_stats now (forced chatId this)) as (S1 & S2 & S3 & S4 & S5).
  destruct (processNext_trace now (forced chatId this)) as (tr & T1 & T2 & T3).
  destruct (processNext_active now (forced chatId this)) as (added & A1 & A2 & _ & A4).
  rewrite Fs in S1, S2, S3, S4, S5. rewrite Fcb in S5, T3.
  assert (Hlast : (forall c, chatId = Some c -> truthy c = true ->
            activeBuilds (forced chatId this) = JsMap.delete c (activeBuilds this)
            /\ JsMap.has c (activeBuilds (forced chatId this)) = false)
          /\ (chatId = None -> activeBuilds (forced chatId this) = [])).
  { split.
    - intros c -> Hc. unfold forced. rewrite Hc. fields.
      split; [reflexivity | apply has_delete_self].
    - intros ->. reflexivity. }
  destruct (forceApplies chatId this) eqn:Happ; unfold persisted; fields.
  - repeat split; try assumption; try reflexivity; try discriminate.
    + rewrite T1, processNextCalls_app, Ft. lia.
    + intros Hcb. rewrite T1, processNextCalls_app, Ft, (T3 Hcb). reflexivity.
    + exists added. split; [exact A1|]. split; [exact A2|].
      intros c b Hin. destruct (A4 c b Hin) as (Q1 & _ & Q2 & _).
      unfold queueIds in *. rewrite Fq in Q1. auto.
    + eapply Hlast; eassumption.
    + eapply Hlast; eassumption.
    + apply Hlast.
  - repeat split; try reflexivity; try discriminate; try lia;
      try (eapply Hlast; eassumption); apply Hlast.
Qed.

Lemma C10_force_release_witness :
  onBuildStart callbackBacklog = true
  /\ forceApplies (Some (IdNum 1)) callbackBacklog = true
  /\ stats (forceRelease 9 (Some (IdNum 1)) callbackBacklog) = stats callbackBacklog
  /\ forceRelease 9 (Some (IdNum 1)) callbackBacklog
     = save 9 (processNext 9 (forced (Some (IdNum 1)) callbackBacklog)).
Proof.
  assert (H1 : onBuildStart callbackBacklog = true) by (vm_compute; reflexivity).
  assert (H2 : forceApplies (Some (IdNum 1)) callbackBacklog = true)
    by (vm_compute; reflexivity).
  destruct (C10_force_release 9 (Some (IdNum 1)) callbackBacklog)
    as (_ & _ & _ & _ & Hs & _ & Ha & _).
  split; [exact H1|]. split; [exact H2|]. split; [exact (Hs H1)|].
  apply (Ha H2).
Defined.

(* ------------------------------------------------------------------ *)
(** * Persistence: the text of [data/queue.json] *)

#[local] Open Scope string_scope.

(* ------------------------------------------------------------------ *)
(** ** JSON: values, [JSON.stringify], [JSON.parse] *)

(** A JSON value. Text is a string of bytes (UTF-8, as [fs] reads and writes
    it). Numbers are integers, as everywhere in this development; a number
    literal with a fraction or an exponent, which the queue never writes, is
    kept as it is spelled. The members of an object are in the order of the
    text. *)
#[local] Unset Elimination Schemes.
Inductive Json : Type :=
| JNull
| JBool (b : bool)
| JNum (n : Z)
| JFrac (literal : string)
| JStr (s : string)
| JArr (elements : list Json)
| JObj (members : list (string * Json)).
#[local] Set Elimination Schemes.

Definition dquote : ascii := "034".
Definition backslash : ascii := "092".
Definition newline : ascii := "010".

(** Lower-case hexadecimal digit. *)
Definition hexDigit (n : N) : ascii :=
  ascii_of_N (if (n <? 10)%N then 48 + n else 87 + n).

(** [QuoteJSONString], one character: the quote, the backslash and the
    control characters are escaped, everything else is copied. *)
Definition escapeChar (c : ascii) : string :=
  if Ascii.eqb c dquote then String backslash (String dquote EmptyString)
  else if Ascii.eqb c backslash then String backslash (String backslash EmptyString)
  else if Ascii.eqb c "008" then String backslash "b"
  else if Ascii.eqb c "012" then String backslash "f"
  else if Ascii.eqb c "010" then String backslash "n"
  else if Ascii.eqb c "013" then String backslash "r"
  else if Ascii.eqb c "009" then String backslash "t"
  else if (N_of_ascii c <? 32)%N then
    String backslash
      (String "u" (String "0" (String "0"
         (String (hexDigit (N_of_ascii c / 16))
            (String (hexDigit (N_of_ascii c mod 16)) EmptyString)))))
  else String c EmptyString.

Fixpoint escape (s : string) : string :=
  match s with
  | EmptyString => EmptyString
  | String c rest => escapeChar c ++ escape rest
  end.

Definition quoteJSON (s : string) : string :=
  String dquote (escape s ++ String dquote EmptyString).

(** [JSON.stringify(v, null, 2)] at a given indentation. *)
Fixpoint stringify (indent : string) (v : Json) {struct v} : string :=
  let inner := indent ++ "  " in
  let separator := String "," (String newline inner) in
  match v with
  | JNull => "null"
  | JBool true => "true"
  | JBool false => "false"
  | JNum n => string_of_Z n
  | JFrac literal => literal
  | JStr s => quoteJSON s
  | JArr [] => "[]"
  | JArr elements =>
      String "[" (String newline inner)
      ++ String.concat separator (List.map (stringify inner) elements)
      ++ String newline indent ++ "]"
  | JObj [] => "{}"
  | JObj members =>
      String "{" (String newline inner)
      ++ String.concat separator
           (List.map (fun kv => quoteJSON (fst kv) ++ ": " ++ stringify inner (snd kv))
              members)
      ++ String newline indent ++ "}"
  end.

Definition JSON_stringify (v : Json) : string := stringify EmptyString v.

(** JSON white space: space, tab, line feed, carriage return. *)
Definition isSpace (c : ascii) : bool :=
  Ascii.eqb c " " || Ascii.eqb c "009" || Ascii.eqb c "010" || Ascii.eqb c "013".

Fixpoint skipSpace (s : string) : string :=
  match s with
  | String c rest => if isSpace c then skipSpace rest else s
  | EmptyString => s
  end.

Definition isDigit (c : ascii) : bool :=
  (48 <=? N_of_ascii c)%N && (N_of_ascii c <=? 57)%N.

(** The longest prefix of digits, and what follows it. *)
Fixpoint digits (s : string) : string * string :=
  match s with
  | String c rest =>
      if isDigit c then let '(ds, rest') := digits rest in (String c ds, rest')
      else (EmptyString, s)
  | EmptyString => (EmptyString, s)
  end.

Definition hexValue (c : ascii) : option N :=
  let n := N_of_ascii c in
  if isDigit c then Some (n - 48)%N
  else if (97 <=? n)%N && (n <=? 102)%N then Some (n - 87)%N
  else if (65 <=? n)%N && (n <=? 70)%N then Some (n - 55)%N
  else None.

Definition hex4 (a b c d : ascii) : option N :=
  match hexValue a, hexValue b, hexValue c, hexValue d with
  | Some x, Some y, Some z, Some w => Some (((x * 16 + y) * 16 + z) * 16 + w)%N
  | _, _, _, _ => None
  end.

(** The bytes of a code point in UTF-8 (a surrogate on its own is written
    the same way, in three bytes). *)
Definition utf8 (n : N) : string :=
  let byte (k : N) := ascii_of_N k in
  (if n <? 128 then String (byte n) EmptyString
   else if n <? 2048 then
     String (byte (192 + n / 64)) (String (byte (128 + n mod 64)) EmptyString)
   else if n <? 65536 then
     String (byte (224 + n / 4096))
       (String (byte (128 + (n / 64) mod 64))
          (String (byte (128 + n mod 64)) EmptyString))
   else
     String (byte (240 + n / 262144))
       (String (byte (128 + (n / 4096) mod 64))
          (String (byte (128 + (n / 64) mod 64))
             (String (byte (128 + n mod 64)) EmptyString))))%N.

Definition isHighSurrogate (n : N) : bool := (55296 <=? n)%N && (n <=? 56319)%N.
Definition isLowSurrogate (n : N) : bool := (56320 <=? n)%N && (n <=? 57343)%N.

Definition unescape (c : ascii) : option ascii :=
  if Ascii.eqb c dquote then Some dquote
  else if Ascii.eqb c backslash then Some backslash
  else if Ascii.eqb c "/" then Some "/"%char
  else if Ascii.eqb c "b" then Some "008"%char
  else if Ascii.eqb c "f" then Some "012"%char
  else if Ascii.eqb c "n" then Some "010"%char
  else if Ascii.eqb c "r" then Some "013"%char
  else if Ascii.eqb c "t" then Some "009"%char
  else None.

Definition prepend {A : Type} (bytes : string) (r : option (string * A))
  : option (string * A) :=
  match r with
  | Some (s, rest) => Some (bytes ++ s, rest)
  | None => None
  end.

(** The characters of a string literal after its opening quote, up to and
    without the closing quote, and what follows. *)
Fixpoint parseChars (s : string) : option (string * string) :=
  match s with
  | EmptyString => None
  | String c r =>
      if Ascii.eqb c dquote then Some (EmptyString, r)
      else if Ascii.eqb c backslash then
        match r with
        | EmptyString => None
        | String e r1 =>
            if Ascii.eqb e "u" then
              match r1 with
              | String h1 (String h2 (String h3 (String h4 r2))) =>
                  match hex4 h1 h2 h3 h4 with
                  | None => None
                  | Some hi =>
                      if isHighSurrogate hi then
                        match r2 with
                        | String b (String u (String l1 (String l2
                            (String l3 (String l4 r3))))) =>
                            match (if Ascii.eqb b backslash && Ascii.eqb u "u"
                                   then hex4 l1 l2 l3 l4 else None) with
                            | Some lo =>
                                if isLowSurrogate lo
                                then prepend
                                       (utf8 (65536 + (hi - 55296) * 1024
                                              + (lo - 56320))%N)
                                       (parseChars r3)
                                else prepend (utf8 hi) (parseChars r2)
                            | None => prepend (utf8 hi) (parseChars r2)
                            end
                        | _ => prepend (utf8 hi) (parseChars r2)
                        end
                      else prepend (utf8 hi) (parseChars r2)
                  end
              | _ => None
              end
            else
              match unescape e with
              | Some c' => prepend (String c' EmptyString) (parseChars r1)
              | None => None
              end
        end
      else if (N_of_ascii c <? 32)%N then None
      else prepend (String c EmptyString) (parseChars r)
  end.

(** The fraction of a number literal, if there is one at the head of [s]:
    a point and at least one digit. The result tells whether there is one,
    and what follows it; [None] is a point without digits. *)
Definition fractionPart (s : string) : option (bool * string) :=
  match s with
  | String c r =>
      if Ascii.eqb c "." then
        let '(ds, r') := digits r in
        match ds with EmptyString => None | String _ _ => Some (true, r') end
      else Some (false, s)
  | EmptyString => Some (false, s)
  end.

(** The exponent of a number literal, likewise: [e] or [E], an optional
    sign, at least one digit. *)
Definition exponentPart (s : string) : option (bool * string) :=
  match s with
  | String c r =>
      if Ascii.eqb c "e" || Ascii.eqb c "E" then
        let r0 :=
          match r with
          | String sign r' =>
              if Ascii.eqb sign "+" || Ascii.eqb sign "-" then r' else r
          | EmptyString => r
          end in
        let '(ds, r') := digits r0 in
        match ds with EmptyString => None | String _ _ => Some (true, r') end
      else Some (false, s)
  | EmptyString => Some (false, s)
  end.

(** The integer part is [0] or starts with another digit. *)
Definition wellFormedInt (int : string) : bool :=
  match int with
  | EmptyString => false
  | String c EmptyString => true
  | String c (String _ _) => negb (Ascii.eqb c "0")
  end.

(** A number literal at the head of [s]: an optional minus sign, the
    integer part, then optionally a fraction, then optionally an
    exponent. *)
Definition parseNumber (s : string) : option (Json * string) :=
  let '(negative, s1) :=
    match s with
    | String c r => if Ascii.eqb c "-" then (true, r) else (false, s)
    | EmptyString => (false, s)
    end in
  let '(int, s2) := digits s1 in
  if negb (wellFormedInt int) then None
  else
    match fractionPart s2 with
    | None => None
    | Some (hasFraction, s3) =>
        match exponentPart s3 with
        | None => None
        | Some (hasExponent, s4) =>
            if hasFraction || hasExponent then
              Some (JFrac (substring 0 (String.length s - String.length s4) s), s4)
            else
              match NilZero.uint_of_string int with
              | Some u =>
                  Some (JNum (Z.of_int (if negative then Decimal.Neg u
                                        else Decimal.Pos u)), s4)
              | None => None
              end
        end
    end.

(** One of the words [null], [true], [false], its first letter read. *)
Definition keyword (word : string) (v : Json) (s : string) : option (Json * string) :=
  if String.prefix word s
  then Some (v, substring (String.length word) (String.length s - String.length word) s)
  else None.

(** A value at the head of [s] after white space, and what follows it.
    [fuel] bounds the nesting and the number of elements read. *)
Fixpoint parseValue (fuel : nat) (s : string) {struct fuel}
  : option (Json * string) :=
  match fuel with
  | O => None
  | S fuel =>
      match skipSpace s with
      | EmptyString => None
      | String c r =>
          if Ascii.eqb c "[" then
            match skipSpace r with
            | EmptyString => None
            | String c' r' =>
                if Ascii.eqb c' "]" then Some (JArr [], r')
                else match parseElements fuel r with
                     | Some (l, rest) => Some (JArr l, rest)
                     | None => None
                     end
            end
          else if Ascii.eqb c "{" then
            match skipSpace r with
            | EmptyString => None
            | String c' r' =>
                if Ascii.eqb c' "}" then Some (JObj [], r')
                else match parseMembers fuel r with
                     | Some (l, rest) => Some (JObj l, rest)
                     | None => None
                     end
            end
          else if Ascii.eqb c dquote then
            match parseChars r with
            | Some (str, rest) => Some (JStr str, rest)
            | None => None
            end
          else if Ascii.eqb c "n" then keyword "ull" JNull r
          else if Ascii.eqb c "t" then keyword "rue" (JBool true) r
          else if Ascii.eqb c "f" then keyword "alse" (JBool false) r
          else parseNumber (String c r)
      end
  end
with parseElements (fuel : nat) (s : string) {struct fuel}
  : option (list Json * string) :=
  match fuel with
  | O => None
  | S fuel =>
      match parseValue fuel s with
      | None => None
      | Some (v, r) =>
          match skipSpace r with
          | EmptyString => None
          | String c r' =>
              if Ascii.eqb c "," then
                match parseElements fuel r' with
                | Some (l, rest) => Some (v :: l, rest)
                | None => None
                end
              else if Ascii.eqb c "]" then Some ([v], r')
              else None
          end
      end
  end
with parseMembers (fuel : nat) (s : string) {struct fuel}
  : option (list (string * Json) * string) :=
  match fuel with
  | O => None
  | S fuel =>
      match skipSpace s with
      | EmptyString => None
      | String q r0 =>
          if negb (Ascii.eqb q dquote) then None
          else
            match parseChars r0 with
            | None => None
            | Some (key, r1) =>
                match skipSpace r1 with
                | EmptyString => None
                | String colon r2 =>
                    if negb (Ascii.eqb colon ":") then None
                    else
                      match parseValue fuel r2 with
                      | None => None
                      | Some (v, r) =>
                          match skipSpace r with
                          | EmptyString => None
                          | String c r' =>
                              if Ascii.eqb c "," then
                                match parseMembers fuel r' with
                                | Some (l, rest) => Some ((key, v) :: l, rest)
                                | None => None
                                end
                              else if Ascii.eqb c "}" then Some ([(key, v)], r')
                              else None
                          end
                      end
                end
            end
      end
  end.

(** [JSON.parse(text)]; [None] is the [SyntaxError]. *)
Definition JSON_parse (text : string) : option Json :=
  match parseValue (S (String.length text)) text with
  | Some (v, rest) =>
      match skipSpace rest with
      | EmptyString => Some v
      | String _ _ => None
      end
  | None => None
  end.

(* ------------------------------------------------------------------ *)
(** ** [JSON.parse] reads back what [JSON.stringify] writes *)

Lemma append_assoc (a b c : string) : ((a ++ b) ++ c = a ++ b ++ c)%string.
Proof. induction a as [|x a IH]; simpl; [reflexivity | rewrite IH; reflexivity]. Qed.

Lemma append_nil_r (a : string) : (a ++ EmptyString = a)%string.
Proof. induction a as [|x a IH]; simpl; [reflexivity | rewrite IH; reflexivity]. Qed.

Lemma length_append (a b : string) :
  String.length (a ++ b) = (String.length a + String.length b)%nat.
Proof. induction a as [|x a IH]; simpl; [reflexivity | rewrite IH; reflexivity]. Qed.

(** Induction on a JSON value, through its elements and members. *)
Fixpoint Json_induction (P : Json -> Prop)
  (Hnull : P JNull) (Hbool : forall b, P (JBool b)) (Hnum : forall n, P (JNum n))
  (Hfrac : forall s, P (JFrac s)) (Hstr : forall s, P (JStr s))
  (Harr : forall l, Forall P l -> P (JArr l))
  (Hobj : forall ms, Forall (fun kv => P (snd kv)) ms -> P (JObj ms))
  (v : Json) {struct v} : P v :=
  match v with
  | JNull => Hnull
  | JBool b => Hbool b
  | JNum n => Hnum n
  | JFrac s => Hfrac s
  | JStr s => Hstr s
  | JArr l =>
      Harr l ((fix all (l : list Json) : Forall P l :=
                 match l with
                 | [] => Forall_nil P
                 | x :: rest =>
                     Forall_cons x
                       (Json_induction P Hnull Hbool Hnum Hfrac Hstr Harr Hobj x)
                       (all rest)
                 end) l)
  | JObj ms =>
      Hobj ms ((fix all (ms : list (string * Json))
                  : Forall (fun kv => P (snd kv)) ms :=
                  match ms with
                  | [] => Forall_nil _
                  | kv :: rest =>
                      Forall_cons kv
                        (Json_induction P Hnull Hbool Hnum Hfrac Hstr Harr Hobj
                           (snd kv))
                        (all rest)
                  end) ms)
  end.

(** Strings *)

Lemma parseChars_escapeChar c r :
  parseChars (escapeChar c ++ r) = prepend (String c EmptyString) (parseChars r).
Proof.
  destruct c as [[] [] [] [] [] [] [] []]; reflexivity.
Qed.

Lemma parseChars_escape s rest :
  parseChars (escape s ++ String dquote rest) = Some (s, rest).
Proof.
  induction s as [|c s IH]; [reflexivity|].
  cbn [escape]. rewrite append_assoc, parseChars_escapeChar, IH. reflexivity.
Qed.

Lemma parseChars_quoteJSON s rest :
  exists r, (quoteJSON s ++ rest = String dquote r)%string
            /\ parseChars r = Some (s, rest).
Proof.
  exists (escape s ++ String dquote rest)%string. split.
  - unfold quoteJSON. cbn [append]. rewrite append_assoc. reflexivity.
  - apply parseChars_escape.
Qed.

(** Numbers *)

(** What may follow a number literal: nothing, or a character that cannot
    continue it. *)
Definition delimited (rest : string) : bool :=
  match rest with
  | EmptyString => true
  | String c _ =>
      negb (isDigit c || Ascii.eqb c "." || Ascii.eqb c "e" || Ascii.eqb c "E")
  end.

Lemma digits_delimited rest :
  delimited rest = true -> digits rest = (EmptyString, rest).
Proof.
  destruct rest as [|c rest]; [reflexivity|]. simpl.
  destruct (isDigit c); [discriminate | reflexivity].
Qed.

Lemma digits_uint u rest :
  delimited rest = true ->
  digits (NilEmpty.string_of_uint u ++ rest) = (NilEmpty.string_of_uint u, rest).
Proof.
  intros H. induction u; cbn [NilEmpty.string_of_uint append];
    try (cbn [digits]; rewrite IHu; reflexivity).
  apply digits_delimited, H.
Qed.

Lemma fractionPart_delimited rest :
  delimited rest = true -> fractionPart rest = Some (false, rest).
Proof.
  destruct rest as [|c rest]; [reflexivity|]. simpl.
  destruct (isDigit c); [discriminate|].
  destruct (Ascii.eqb c "."); [discriminate | reflexivity].
Qed.

Lemma exponentPart_delimited rest :
  delimited rest = true -> exponentPart rest = Some (false, rest).
Proof.
  destruct rest as [|c rest]; [reflexivity|]. simpl.
  destruct (isDigit c); [discriminate|].
  destruct (Ascii.eqb c "."); [discriminate|].
  destruct (Ascii.eqb c "e"); [discriminate|].
  destruct (Ascii.eqb c "E"); [discriminate | reflexivity].
Qed.

(** The decimal writing of a positive number does not start with [0]. *)
Lemma to_uint_head p :
  match Pos.to_uint p with
  | Decimal.Nil | Decimal.D0 _ => False
  | _ => True
  end.
Proof.
  pose proof (DecimalPos.Unsigned.to_uint_nonzero p) as Hz.
  assert (Hn : Decimal.unorm (Pos.to_uint p) = Pos.to_uint p).
  { pose proof (DecimalPos.Unsigned.to_of (Pos.to_uint p)) as H.
    rewrite DecimalPos.Unsigned.of_to in H. symmetry. exact H. }
  destruct (Pos.to_uint p) as [|d| | | | | | | | |] eqn:E; try exact I.
  - discriminate Hn.
  - rewrite DecimalFacts.unorm_D0 in Hn. unfold Decimal.unorm in Hn.
    destruct (Decimal.nzhead d) eqn:Hd; try discriminate Hn.
    + inversion Hn. subst d. apply Hz. reflexivity.
    + exfalso. apply (DecimalFacts.nzhead_nonzero d u). congruence.
Qed.

(** The integer literal of a normalised decimal number reads back. *)
Lemma parseNumber_uint (negative : bool) u rest :
  match u with
  | Decimal.Nil => False
  | Decimal.D0 u' => u' = Decimal.Nil
  | _ => True
  end ->
  delimited rest = true ->
  parseNumber ((if negative then "-" else EmptyString)
               ++ NilEmpty.string_of_uint u ++ rest)
  = Some (JNum (Z.of_int (if negative then Decimal.Neg u else Decimal.Pos u)), rest).
Proof.
  intros Hu Hrest.
  assert (Hdigits := digits_uint u rest Hrest).
  assert (Hparse : NilZero.uint_of_string (NilEmpty.string_of_uint u) = Some u).
  { pose proof (NilZero.usu u) as H.
    destruct u; [contradiction | | | | | | | | | |]; apply H; discriminate. }
  assert (Hwf : wellFormedInt (NilEmpty.string_of_uint u) = true).
  { clear Hdigits Hparse.
    destruct u as [|u'|u'|u'|u'|u'|u'|u'|u'|u'|u']; try contradiction; simpl;
      try (destruct (NilEmpty.string_of_uint u'); reflexivity).
    subst u'. reflexivity. }
  assert (Hminus : forall r,
            parseNumber (NilEmpty.string_of_uint u ++ r)
            = (let '(int, s2) := digits (NilEmpty.string_of_uint u ++ r) in
               if negb (wellFormedInt int) then None
               else
                 match fractionPart s2 with
                 | None => None
                 | Some (hasFraction, s3) =>
                     match exponentPart s3 with
                     | None => None
                     | Some (hasExponent, s4) =>
                         if hasFraction || hasExponent then
                           Some (JFrac (substring 0
                                          (String.length (NilEmpty.string_of_uint u ++ r)
                                           - String.length s4)
                                          (NilEmpty.string_of_uint u ++ r)), s4)
                         else
                           match NilZero.uint_of_string int with
                           | Some u0 => Some (JNum (Z.of_int (Decimal.Pos u0)), s4)
                           | None => None
                           end
                     end
                 end)).
  { intros r. destruct u; try contradiction; reflexivity. }
  destruct negative.
  - cbn [append]. unfold parseNumber. cbn [Ascii.eqb Bool.eqb].
    rewrite Hdigits, Hwf. cbn [negb].
    rewrite (fractionPart_delimited rest Hrest), (exponentPart_delimited rest Hrest).
    cbn [orb]. rewrite Hparse. reflexivity.
  - cbn [append]. rewrite Hminus, Hdigits, Hwf. cbn [negb].
    rewrite (fractionPart_delimited rest Hrest), (exponentPart_delimited rest Hrest).
    cbn [orb]. rewrite Hparse. reflexivity.
Qed.

Lemma string_of_Z_parts n :
  exists (negative : bool) (u : Decimal.uint),
    Z.to_int n = (if negative then Decimal.Neg u else Decimal.Pos u)
    /\ string_of_Z n = ((if negative then "-" else EmptyString)
                        ++ NilEmpty.string_of_uint u)%string
    /\ match u with
       | Decimal.Nil => False
       | Decimal.D0 u' => u' = Decimal.Nil
       | _ => True
       end.
Proof.
  unfold string_of_Z. destruct n as [|p|p].
  - exists false, (Decimal.D0 Decimal.Nil). repeat split; reflexivity.
  - exists false, (Pos.to_uint p). split; [reflexivity|].
    pose proof (to_uint_head p) as H. cbn [Z.to_int NilZero.string_of_int].
    destruct (Pos.to_uint p); try contradiction; split; try reflexivity; exact I.
  - exists true, (Pos.to_uint p). split; [reflexivity|].
    pose proof (to_uint_head p) as H. cbn [Z.to_int NilZero.string_of_int].
    destruct (Pos.to_uint p); try contradiction; split; try reflexivity; exact I.
Qed.

Lemma parseNumber_string_of_Z n rest :
  delimited rest = true ->
  parseNumber (string_of_Z n ++ rest) = Some (JNum n, rest).
Proof.
  intros Hrest. destruct (string_of_Z_parts n) as (negative & u & Hint & -> & Hu).
  rewrite append_assoc, (parseNumber_uint negative u rest Hu Hrest), <- Hint.
  rewrite DecimalZ.of_to. reflexivity.
Qed.

(** The first character of a number tells the parser it is one. *)
Definition startsNumber (c : ascii) : bool := isDigit c || Ascii.eqb c "-".

Lemma string_of_Z_head n :
  exists c r, string_of_Z n = String c r /\ startsNumber c = true.
Proof.
  destruct (string_of_Z_parts n) as (negative & u & _ & -> & Hu).
  destruct negative.
  - exists "-"%char, (NilEmpty.string_of_uint u). split; reflexivity.
  - destruct u; try contradiction; cbn [append NilEmpty.string_of_uint];
      eexists _, _; split; reflexivity.
Qed.

(** Values *)

(** No number with a fraction or an exponent inside. *)
Fixpoint plain (v : Json) : bool :=
  match v with
  | JFrac _ => false
  | JArr elements => forallb plain elements
  | JObj members => forallb (fun kv => plain (snd kv)) members
  | _ => true
  end.

(** The fuel that reading a value back takes. *)
Fixpoint size (v : Json) : nat :=
  match v with
  | JArr elements => S (list_sum (List.map (fun x => S (size x)) elements))
  | JObj members => S (list_sum (List.map (fun kv => S (size (snd kv))) members))
  | _ => 1
  end.

Definition spaces (s : string) : bool :=
  forallb isSpace (list_ascii_of_string s).

Lemma skipSpace_spaces pre s :
  spaces pre = true -> skipSpace (pre ++ s) = skipSpace s.
Proof.
  unfold spaces. induction pre as [|c pre IH]; simpl; [reflexivity|].
  intros H. apply andb_true_iff in H. destruct H as [-> H]. auto.
Qed.

Lemma skipSpace_head c r : isSpace c = false -> skipSpace (String c r) = String c r.
Proof. intros H. simpl. rewrite H. reflexivity. Qed.

Lemma spaces_app a b : spaces a = true -> spaces b = true -> spaces (a ++ b) = true.
Proof.
  unfold spaces. induction a as [|c a IH]; simpl; [auto|].
  intros H Hb. apply andb_true_iff in H. destruct H as [-> H]. auto.
Qed.

Lemma spaces_line s : spaces s = true -> spaces (String newline s) = true.
Proof. intros H. unfold spaces in *. simpl. exact H. Qed.

Lemma spaces_inner s : spaces s = true -> spaces (s ++ "  ") = true.
Proof. intros H. apply spaces_app; [exact H | reflexivity]. Qed.

(** The characters a value can start with. *)
Definition startsValue (c : ascii) : bool :=
  startsNumber c || Ascii.eqb c "[" || Ascii.eqb c "{" || Ascii.eqb c dquote
  || Ascii.eqb c "n" || Ascii.eqb c "t" || Ascii.eqb c "f".

Lemma startsValue_facts c :
  startsValue c = true ->
  isSpace c = false /\ Ascii.eqb c "]" = false /\ Ascii.eqb c "}" = false.
Proof.
  destruct c as [[] [] [] [] [] [] [] []]; intros H;
    try (vm_compute in H; discriminate H); repeat split; reflexivity.
Qed.

Lemma startsNumber_facts c :
  startsNumber c = true ->
  isSpace c = false /\ Ascii.eqb c "[" = false /\ Ascii.eqb c "{" = false
  /\ Ascii.eqb c dquote = false /\ Ascii.eqb c "n" = false
  /\ Ascii.eqb c "t" = false /\ Ascii.eqb c "f" = false.
Proof.
  destruct c as [[] [] [] [] [] [] [] []]; intros H;
    try (vm_compute in H; discriminate H); repeat split; reflexivity.
Qed.

Lemma stringify_head indent v :
  plain v = true ->
  exists c r, stringify indent v = String c r /\ startsValue c = true.
Proof.
  destruct v as [|[]|n|s|s|[|x xs]|[|kv ms]]; intros H; try discriminate H;
    try (eexists _, _; split; reflexivity).
  destruct (string_of_Z_head n) as (c & r & E & Hc).
  exists c, r. split; [exact E|]. unfold startsValue. rewrite Hc. reflexivity.
Qed.

(** The equations of the parser. *)
Lemma parseValue_S fuel s :
  parseValue (S fuel) s =
  match skipSpace s with
  | EmptyString => None
  | String c r =>
      if Ascii.eqb c "[" then
        match skipSpace r with
        | EmptyString => None
        | String c' r' =>
            if Ascii.eqb c' "]" then Some (JArr [], r')
            else match parseElements fuel r with
                 | Some (l, rest) => Some (JArr l, rest)
                 | None => None
                 end
        end
      else if Ascii.eqb c "{" then
        match skipSpace r with
        | EmptyString => None
        | String c' r' =>
            if Ascii.eqb c' "}" then Some (JObj [], r')
            else match parseMembers fuel r with
                 | Some (l, rest) => Some (JObj l, rest)
                 | None => None
                 end
        end
      else if Ascii.eqb c dquote then
        match parseChars r with
        | Some (str, rest) => Some (JStr str, rest)
        | None => None
        end
      else if Ascii.eqb c "n" then keyword "ull" JNull r
      else if Ascii.eqb c "t" then keyword "rue" (JBool true) r
      else if Ascii.eqb c "f" then keyword "alse" (JBool false) r
      else parseNumber (String c r)
  end.
Proof. reflexivity. Qed.

Lemma parseElements_S fuel s :
  parseElements (S fuel) s =
  match parseValue fuel s with
  | None => None
  | Some (v, r) =>
      match skipSpace r with
      | EmptyString => None
      | String c r' =>
          if Ascii.eqb c "," then
            match parseElements fuel r' with
            | Some (l, rest) => Some (v :: l, rest)
            | None => None
            end
          else if Ascii.eqb c "]" then Some ([v], r')
          else None
      end
  end.
Proof. reflexivity. Qed.

Lemma parseMembers_S fuel s :
  parseMembers (S fuel) s =
  match skipSpace s with
  | EmptyString => None
  | String q r0 =>
      if negb (Ascii.eqb q dquote) then None
      else
        match parseChars r0 with
        | None => None
        | Some (key, r1) =>
            match skipSpace r1 with
            | EmptyString => None
            | String colon r2 =>
                if negb (Ascii.eqb colon ":") then None
                else
                  match parseValue fuel r2 with
                  | None => None
                  | Some (v, r) =>
                      match skipSpace r with
                      | EmptyString => None
                      | String c r' =>
                          if Ascii.eqb c "," then
                            match parseMembers fuel r' with
                            | Some (l, rest) => Some ((key, v) :: l, rest)
                            | None => None
                            end
                          else if Ascii.eqb c "}" then Some ([(key, v)], r')
                          else None
                      end
                  end
            end
        end
  end.
Proof. reflexivity. Qed.

(** [v], written at any indentation, after white space and before a
    delimiter, is read back with enough fuel. *)
Definition readsBack (v : Json) : Prop :=
  forall fuel indent pre rest,
    plain v = true -> (size v <= fuel)%nat ->
    spaces indent = true -> spaces pre = true -> delimited rest = true ->
    parseValue fuel (pre ++ stringify indent v ++ rest) = Some (v, rest).

Definition separator (inner : string) : string := String "," (String newline inner).

Lemma parseElements_concat inner l :
  spaces inner = true ->
  l <> [] ->
  Forall readsBack l -> forallb plain l = true ->
  forall fuel pre tail,
    (list_sum (List.map (fun x => S (size x)) l) <= fuel)%nat ->
    spaces pre = true -> spaces tail = true ->
    forall rest,
      parseElements fuel
        (pre ++ String.concat (separator inner) (List.map (stringify inner) l)
         ++ tail ++ String "]" rest)
      = Some (l, rest).
Proof.
  intros Hinner Hne Hall. induction Hall as [|x l Hx Hall IH]; [contradiction|].
  intros Hplain fuel pre tail Hfuel Hpre Htail rest.
  cbn [forallb] in Hplain. apply andb_true_iff in Hplain.
  destruct Hplain as [Hpx Hpl].
  cbn [List.map list_sum fold_right] in Hfuel.
  destruct fuel as [|fuel]; [lia|]. rewrite parseElements_S.
  destruct l as [|y l].
  - cbn [List.map String.concat].
    rewrite (Hx fuel inner pre (tail ++ String "]" rest)%string); try assumption.
    + rewrite skipSpace_spaces by assumption. reflexivity.
    + simpl in Hfuel. lia.
    + destruct tail as [|c tail]; [reflexivity|].
      unfold spaces in Htail. simpl in Htail. apply andb_true_iff in Htail.
      destruct Htail as [Hc _].
      destruct c as [[] [] [] [] [] [] [] []]; try discriminate Hc; reflexivity.
  - change (String.concat (separator inner) (List.map (stringify inner) (x :: y :: l)))
      with (stringify inner x ++ separator inner
            ++ String.concat (separator inner) (List.map (stringify inner) (y :: l)))%string.
    rewrite !append_assoc.
    rewrite (Hx fuel inner pre); try assumption; [|simpl in Hfuel; lia|reflexivity].
    unfold separator at 1. cbn [append skipSpace isSpace Ascii.eqb Bool.eqb orb].
    assert (E := IH ltac:(discriminate) Hpl fuel (String newline inner) tail).
    cbn [append] in E. rewrite E;
      [reflexivity | | apply spaces_line; assumption | assumption].
    cbn [List.map list_sum fold_right] in *. lia.
Qed.

Definition memberText (inner : string) (kv : string * Json) : string :=
  quoteJSON (fst kv) ++ ": " ++ stringify inner (snd kv).

Lemma delimited_tail tail c rest :
  spaces tail = true -> delimited (String c EmptyString) = true ->
  delimited (tail ++ String c rest) = true.
Proof.
  intros H Hc. destruct tail as [|a tail]; [exact Hc|].
  unfold spaces in H. simpl in H. apply andb_true_iff in H. destruct H as [Ha _].
  destruct a as [[] [] [] [] [] [] [] []]; try discriminate Ha; reflexivity.
Qed.

Lemma parseMembers_concat inner ms :
  spaces inner = true ->
  ms <> [] ->
  Forall (fun kv => readsBack (snd kv)) ms ->
  forallb (fun kv => plain (snd kv)) ms = true ->
  forall fuel pre tail,
    (list_sum (List.map (fun kv => S (size (snd kv))) ms) <= fuel)%nat ->
    spaces pre = true -> spaces tail = true ->
    forall rest,
      parseMembers fuel
        (pre ++ String.concat (separator inner) (List.map (memberText inner) ms)
         ++ tail ++ String "}" rest)
      = Some (ms, rest).
Proof.
  intros Hinner Hne Hall. induction Hall as [|[k x] ms Hx Hall IH]; [contradiction|].
  intros Hplain fuel pre tail Hfuel Hpre Htail rest.
  cbn [forallb snd] in Hplain. apply andb_true_iff in Hplain.
  destruct Hplain as [Hpx Hpl]. cbn [snd] in Hx.
  cbn [List.map list_sum fold_right snd] in Hfuel.
  destruct fuel as [|fuel]; [lia|]. rewrite parseMembers_S.
  assert (Hkey : forall after,
            skipSpace (pre ++ memberText inner (k, x) ++ after)
            = String dquote (escape k ++ String dquote
                               (String ":" (String " " (stringify inner x ++ after))))).
  { intros after. rewrite skipSpace_spaces by assumption.
    unfold memberText, quoteJSON. cbn [fst snd append].
    rewrite ?append_assoc. cbn [append]. rewrite ?append_assoc. cbn [append].
    reflexivity. }
  destruct ms as [|y ms].
  - cbn [List.map String.concat]. rewrite Hkey.
    cbn [Ascii.eqb Bool.eqb dquote negb]. rewrite parseChars_escape.
    cbn [skipSpace isSpace Ascii.eqb Bool.eqb orb negb].
    change (String " " (stringify inner x ++ tail ++ String "}" rest))
      with (" " ++ stringify inner x ++ tail ++ String "}" rest)%string.
    rewrite (Hx fuel inner " "%string); try assumption; try reflexivity.
    + rewrite skipSpace_spaces by assumption. reflexivity.
    + lia.
    + apply delimited_tail; [assumption | reflexivity].
  - change (String.concat (separator inner) (List.map (memberText inner) ((k, x) :: y :: ms)))
      with (memberText inner (k, x) ++ separator inner
            ++ String.concat (separator inner) (List.map (memberText inner) (y :: ms)))%string.
    rewrite !append_assoc. rewrite Hkey.
    cbn [Ascii.eqb Bool.eqb dquote negb]. rewrite parseChars_escape.
    cbn [skipSpace isSpace Ascii.eqb Bool.eqb orb negb].
    match goal with
    | |- context [parseValue fuel (String " " ?t)] =>
        change (String " " t) with (" " ++ t)%string
    end.
    rewrite (Hx fuel inner " "%string); try assumption; try reflexivity; [|lia].
    unfold separator at 1. cbn [append skipSpace isSpace Ascii.eqb Bool.eqb orb].
    assert (E := IH ltac:(discriminate) Hpl fuel (String newline inner) tail).
    cbn [append] in E. rewrite E;
      [reflexivity | | apply spaces_line; assumption | assumption].
    cbn [List.map list_sum fold_right] in *. lia.
Qed.

Lemma keyword_exact word v rest :
  keyword word v (word ++ rest) = Some (v, rest).
Proof.
  unfold keyword.
  assert (Hp : String.prefix word (word ++ rest) = true).
  { induction word as [|c word IH]; simpl.
    - destruct rest; reflexivity.
    - rewrite IH. destruct (ascii_dec c c); [reflexivity | contradiction]. }
  rewrite Hp. f_equal. f_equal.
  rewrite length_append.
  replace (String.length word + String.length rest - String.length word)%nat
    with (String.length rest) by lia.
  induction word as [|c word IH]; simpl.
  - clear Hp. induction rest as [|a rest IHr]; simpl; [reflexivity|].
    rewrite IHr. reflexivity.
  - apply IH. simpl in Hp. destruct (ascii_dec c c); [exact Hp | contradiction].
Qed.

(** Every value without a fraction literal is read back. *)
Lemma readsBack_all v : readsBack v.
Proof.
  induction v using Json_induction; unfold readsBack;
    intros fuel indent pre rest Hplain Hfuel Hindent Hpre Hrest;
    (destruct fuel as [|fuel]; [simpl in Hfuel; lia|]); rewrite parseValue_S;
    rewrite skipSpace_spaces by assumption.
  - cbn [stringify append skipSpace isSpace Ascii.eqb Bool.eqb orb dquote].
    apply (keyword_exact "ull").
  - destruct b; cbn [stringify append skipSpace isSpace Ascii.eqb Bool.eqb orb dquote].
    + apply (keyword_exact "rue").
    + apply (keyword_exact "alse").
  - cbn [stringify].
    destruct (string_of_Z_head n) as (c & r & E & Hc).
    pose proof (parseNumber_string_of_Z n rest Hrest) as Hnum.
    rewrite E in *. cbn [append] in *.
    destruct (startsNumber_facts c Hc) as (H0 & H1 & H2 & H3 & H4 & H5 & H6).
    rewrite (skipSpace_head c _ H0), H1, H2, H3, H4, H5, H6. exact Hnum.
  - discriminate Hplain.
  - cbn [stringify]. unfold quoteJSON.
    cbn [append skipSpace isSpace Ascii.eqb Bool.eqb orb dquote].
    rewrite append_assoc. cbn [append]. fold dquote.
    rewrite parseChars_escape. reflexivity.
  - destruct l as [|x l].
    + reflexivity.
    + assert (Htext :
        (stringify indent (JArr (x :: l)) ++ rest
         = String "[" (String newline (indent ++ "  ")
                       ++ String.concat (separator (indent ++ "  "))
                            (List.map (stringify (indent ++ "  ")) (x :: l))
                       ++ String newline indent ++ String "]" rest))%string).
      { cbn [stringify]. fold (separator (indent ++ "  ")).
        cbn [append]. rewrite ?append_assoc. cbn [append].
        rewrite ?append_assoc. cbn [append]. reflexivity. }
      rewrite Htext.
      cbn [skipSpace isSpace Ascii.eqb Bool.eqb orb dquote].
      cbn [plain] in Hplain.
      rewrite (parseElements_concat (indent ++ "  ") (x :: l)
                 (spaces_inner indent Hindent) ltac:(discriminate) H Hplain
                 fuel (String newline (indent ++ "  ")) (String newline indent));
        [| cbn [size] in Hfuel; lia
         | apply spaces_line, spaces_inner; assumption
         | apply spaces_line; assumption].
      rewrite skipSpace_spaces by (apply spaces_line, spaces_inner; assumption).
      cbn [forallb] in Hplain. apply andb_true_iff in Hplain.
      destruct Hplain as [Hpx _].
      destruct (stringify_head (indent ++ "  ") x Hpx) as (c & r & E & Hc).
      destruct l as [|y l]; cbn [List.map String.concat]; rewrite E;
        cbn [append];
        destruct (startsValue_facts c Hc) as (H0 & H1 & _);
        rewrite (skipSpace_head c _ H0), H1; reflexivity.
  - destruct ms as [|[k x] ms].
    + reflexivity.
    + assert (Htext :
        (stringify indent (JObj ((k, x) :: ms)) ++ rest
         = String "{" (String newline (indent ++ "  ")
                       ++ String.concat (separator (indent ++ "  "))
                            (List.map (memberText (indent ++ "  ")) ((k, x) :: ms))
                       ++ String newline indent ++ String "}" rest))%string).
      { cbn [stringify]. fold (separator (indent ++ "  ")).
        fold (memberText (indent ++ "  ")).
        cbn [append]. rewrite ?append_assoc. cbn [append].
        rewrite ?append_assoc. cbn [append]. reflexivity. }
      rewrite Htext.
      cbn [skipSpace isSpace Ascii.eqb Bool.eqb orb dquote].
      cbn [plain] in Hplain.
      rewrite (parseMembers_concat (indent ++ "  ") ((k, x) :: ms)
                 (spaces_inner indent Hindent) ltac:(discriminate) H Hplain
                 fuel (String newline (indent ++ "  ")) (String newline indent));
        [| cbn [size] in Hfuel; lia
         | apply spaces_line, spaces_inner; assumption
         | apply spaces_line; assumption].
      rewrite skipSpace_spaces by (apply spaces_line, spaces_inner; assumption).
      destruct ms as [|y ms]; cbn [List.map String.concat];
        unfold memberText at 1, quoteJSON; cbn [append fst];
        reflexivity.
Qed.

(** The text of a value is long enough to serve as fuel. *)
Lemma concat_fuel {A : Type} (weight : A -> nat) (text : A -> string) sep l :
  (2 <= String.length sep)%nat ->
  Forall (fun x => (weight x <= S (String.length (text x)))%nat) l ->
  (list_sum (List.map (fun x => S (weight x)) l)
   <= String.length (String.concat sep (List.map text l)) + 2)%nat.
Proof.
  intros Hsep Hall. induction Hall as [|x l Hx Hall IH]; [simpl; lia|].
  destruct l as [|y l].
  - simpl. lia.
  - change (String.concat sep (List.map text (x :: y :: l)))
      with (text x ++ sep ++ String.concat sep (List.map text (y :: l)))%string.
    rewrite !length_append. cbn [List.map list_sum fold_right] in *. lia.
Qed.

Lemma size_stringify v :
  forall indent, (size v <= S (String.length (stringify indent v)))%nat.
Proof.
  induction v using Json_induction; intros indent;
    try (cbn [size]; lia).
  - destruct l as [|x l]; [simpl; lia|].
    assert (Hsum := concat_fuel size (stringify (indent ++ "  "))
                      (separator (indent ++ "  ")) (x :: l)).
    cbn [size stringify]. fold (separator (indent ++ "  ")).
    rewrite !length_append. cbn [String.length].
    apply le_n_S. etransitivity; [apply Hsum|]; [simpl; lia | | lia].
    eapply Forall_impl; [|exact H]. intros a Ha. apply Ha.
  - destruct ms as [|kv ms]; [simpl; lia|].
    assert (Hsum := concat_fuel (fun kv => size (snd kv)) (memberText (indent ++ "  "))
                      (separator (indent ++ "  ")) (kv :: ms)).
    cbn [size stringify]. fold (separator (indent ++ "  ")).
    fold (memberText (indent ++ "  ")).
    rewrite !length_append. cbn [String.length].
    apply le_n_S. etransitivity; [apply Hsum|]; [simpl; lia | | lia].
    eapply Forall_impl; [|exact H]. intros a Ha. unfold memberText.
    rewrite !length_append. specialize (Ha (indent ++ "  ")%string). lia.
Qed.

(** [JSON.parse(JSON.stringify(v, null, 2))] is [v]. *)
Lemma JSON_parse_stringify v :
  plain v = true -> JSON_parse (JSON_stringify v) = Some v.
Proof.
  intros Hplain. unfold JSON_parse, JSON_stringify.
  pose proof (readsBack_all v (S (String.length (stringify EmptyString v)))
                EmptyString EmptyString EmptyString Hplain
                (size_stringify v EmptyString) eq_refl eq_refl eq_refl) as H.
  cbn [append] in H. rewrite append_nil_r in H. rewrite H. reflexivity.
Qed.

(* ------------------------------------------------------------------ *)
(** ** The queue and the statistics as JavaScript values *)

(** [JSON.stringify] leaves out a property whose value is [undefined]. *)
Definition chatIdMember (c : ChatId) : list (string * Json) :=
  match c with
  | IdNum n => [("chatId", JNum n)]
  | IdStr s => [("chatId", JStr s)]
  | IdUndefined => []
  end.

Definition typeName (t : BuildType) : string :=
  match t with TypeUrl => "url" | TypeZip => "zip" end.

Definition buildDataJson (d : BuildData) : Json :=
  match d with Some s => JStr s | None => JNull end.

(** A queue item, with its properties in the order [addToQueue] gives
    them. *)
Definition itemJson (item : QueueItem.t) : Json :=
  JObj ([("id", JStr (QueueItem.id item))]
        ++ chatIdMember (QueueItem.chatId item)
        ++ [("userName", JStr (QueueItem.userName item));
            ("buildData", buildDataJson (QueueItem.buildData item));
            ("type", JStr (typeName (QueueItem.type item)));
            ("priority", JBool (QueueItem.priority item));
            ("addedAt", JNum (QueueItem.addedAt item));
            ("status", JStr (QueueItem.status item))]).

Definition queueJson (q : list QueueItem.t) : Json := JArr (List.map itemJson q).

Definition statsJson (st : Stats) : Json :=
  JObj [("success", JNum (success st)); ("failed", JNum (failed st));
        ("total", JNum (total st)); ("totalTime", JNum (totalTime st))].

(** Is a number literal with a fraction or an exponent zero? *)
Fixpoint zeroLiteral (literal : string) : bool :=
  match literal with
  | EmptyString => true
  | String c rest =>
      if Ascii.eqb c "e" || Ascii.eqb c "E" then true
      else if isDigit c then Ascii.eqb c "0" && zeroLiteral rest
      else zeroLiteral rest
  end.

(** Truthiness of a value, as [||] tests it. *)
Definition truthyValue (v : Json) : bool :=
  match v with
  | JNull => false
  | JBool b => b
  | JNum n => negb (n =? 0)%Z
  | JFrac literal => negb (zeroLiteral literal)
  | JStr s => negb (String.eqb s EmptyString)
  | JArr _ | JObj _ => true
  end.

(** The value an object read by [JSON.parse] has under a name: that of the
    last member of that name. *)
Fixpoint lastMember (key : string) (members : list (string * Json)) : option Json :=
  match members with
  | [] => None
  | (k, v) :: rest =>
      match lastMember key rest with
      | Some w => Some w
      | None => if String.eqb k key then Some v else None
      end
  end.

(** [data.key] for the names [queue] and [stats], which only an object can
    have; [None] is [undefined]. *)
Definition property (key : string) (data : Json) : option Json :=
  match data with
  | JObj members => lastMember key members
  | _ => None
  end.

(** [value || fallback] *)
Definition orElse (value : option Json) (fallback : Json) : Json :=
  match value with
  | Some v => if truthyValue v then v else fallback
  | None => fallback
  end.

(** [load] and [save] on the text of [data/queue.json]. The file system is
    the content of that one file, [None] when it does not exist; reading an
    existing file and writing are taken to succeed. *)
Module Disk.

  (** [this.queue] and [this.stats], as JavaScript values. *)
Record Values : Type := mk {
    queue : Json;
    stats : Json
  }.

  (** What [load] prints: nothing, [console.error] from its [catch], or
      [console.log]. *)
Inductive Outcome : Type := Absent | Failed | Loaded.

  (** [load()]. [JSON.parse] throws on a text that is not JSON, and
      [data.queue] throws when [data] is [null]. *)
Definition load (file : option string) (this : Values) : Values * Outcome :=
    match file with
    | None => (this, Absent)
    | Some text =>
        match JSON_parse text with
        | None => (this, Failed)
        | Some JNull => (this, Failed)
        | Some data =>
            let queue := orElse (property "queue" data) (JArr []) in
            let stats := orElse (property "stats" data) (stats this) in
            (mk queue stats, Loaded)
        end
    end.

  (** [save()]: the text written; [lastSaved] is
      [new Date().toISOString()]. *)
Definition save (lastSaved : string) (this : Values) : string :=
    JSON_stringify (JObj [("queue", queue this); ("stats", stats this);
                          ("lastSaved", JStr lastSaved)]).

End Disk.

(** The two values of an object. *)
Definition valuesOf (this : BuildQueue) : Disk.Values :=
  Disk.mk (queueJson (queue this)) (statsJson (stats this)).

(** A member that [load] reads as a given queue or statistics, or, for
    [None], replaces by its fallback. *)
Definition readsAs {A : Type} (encode : A -> Json) (member : option Json)
  (typed : option A) : Prop :=
  match typed with
  | Some x => member = Some (encode x)
  | None => orElse member JNull = JNull
  end.

(** [file], the typed view that [load] and the constructor take, describes
    what is on disk. *)
Definition onDisk (file : File) (disk : option string) : Prop :=
  match file, disk with
  | FileMissing, None => True
  | FileCorrupt, Some text =>
      JSON_parse text = None \/ JSON_parse text = Some JNull
  | FileDoc d, Some text =>
      exists data,
        JSON_parse text = Some data /\ data <> JNull
        /\ readsAs queueJson (property "queue" data) (doc_queue d)
        /\ readsAs statsJson (property "stats" data) (doc_stats d)
  | _, _ => False
  end.

Definition outcomeOf (file : File) : Disk.Outcome :=
  match file with
  | FileMissing => Disk.Absent
  | FileCorrupt => Disk.Failed
  | FileDoc _ => Disk.Loaded
  end.

(** A file a careless hand could leave: [{"queue":5}]. *)
Definition wrongShape : string :=
  "{" ++ String dquote "queue" ++ String dquote ":5}".

(** The values of the object the constructor builds before it loads. *)
Definition emptyValues : Disk.Values := Disk.mk (queueJson []) (statsJson initialStats).

Lemma plain_itemJson item : plain (itemJson item) = true.
Proof.
  destruct item as [id c u d t p a s]. destruct c, d; reflexivity.
Qed.

Lemma plain_queueJson q : plain (queueJson q) = true.
Proof.
  unfold queueJson. cbn [plain]. induction q as [|item q IH]; [reflexivity|].
  cbn [List.map forallb]. rewrite plain_itemJson, IH. reflexivity.
Qed.

Lemma itemJson_inj a b : itemJson a = itemJson b -> a = b.
Proof.
  destruct a as [id c u d t p at' s], b as [id' c' u' d' t' p' at'' s'].
  unfold itemJson. cbn [QueueItem.id QueueItem.chatId QueueItem.userName
    QueueItem.buildData QueueItem.type QueueItem.priority QueueItem.addedAt
    QueueItem.status].
  intros H.
  destruct c, c'; cbn [chatIdMember app] in H; inversion H; subst;
    destruct d, d'; cbn [buildDataJson] in *; try discriminate;
    destruct t, t'; cbn [typeName] in *; try discriminate;
    repeat match goal with
           | E : JStr _ = JStr _ |- _ => inversion E; clear E; subst
           end; reflexivity.
Qed.

Lemma queueJson_inj q q' : queueJson q = queueJson q' -> q = q'.
Proof.
  unfold queueJson. intros H. inversion H as [E]. clear H. revert q' E.
  induction q as [|a q IH]; intros [|b q'] E; try discriminate; [reflexivity|].
  cbn [List.map] in E.
  assert (Ha : itemJson a = itemJson b) by exact (f_equal (hd JNull) E).
  assert (Hq : List.map itemJson q = List.map itemJson q')
    by exact (f_equal (@tl Json) E).
  apply itemJson_inj in Ha. apply IH in Hq. congruence.
Qed.

Lemma statsJson_inj st st' : statsJson st = statsJson st' -> st = st'.
Proof.
  destruct st as [a b c d], st' as [a' b' c' d']. unfold statsJson.
  cbn [success failed total totalTime]. intros H. inversion H. reflexivity.
Qed.

Lemma valuesOf_inj this other :
  valuesOf other = valuesOf this ->
  queue other = queue this /\ stats other = stats this.
Proof.
  unfold valuesOf. intros H. split.
  - apply queueJson_inj. exact (f_equal Disk.queue H).
  - apply statsJson_inj. exact (f_equal Disk.stats H).
Qed.

(** The text [save] writes is read back as the document it was made from. *)
Lemma parse_saved lastSaved q st :
  JSON_parse (Disk.save lastSaved (Disk.mk (queueJson q) (statsJson st)))
  = Some (JObj [("queue", queueJson q); ("stats", statsJson st);
                ("lastSaved", JStr lastSaved)]).
Proof.
  unfold Disk.save. apply JSON_parse_stringify.
  cbn [plain forallb snd Disk.queue Disk.stats]. rewrite plain_queueJson. reflexivity.
Qed.

Lemma orElse_absent member fallback :
  orElse member JNull = JNull -> orElse member fallback = fallback.
Proof.
  destruct member as [v|]; [|reflexivity]. simpl.
  destruct (truthyValue v) eqn:E; [|reflexivity].
  intros ->. discriminate E.
Qed.

(** On a file of the typed view, the typed [load] does what [load] does on
    the text. *)
Lemma load_onDisk file disk this :
  onDisk file disk ->
  Disk.load disk (valuesOf this)
  = (valuesOf (load (with_queueFile file this)), outcomeOf file).
Proof.
  destruct file as [| |d], disk as [text|]; simpl; try contradiction.
  - intros _. reflexivity.
  - intros [-> | ->]; reflexivity.
  - intros (data & -> & Hnull & Hq & Hs).
    assert (E : forall k, match data with
                          | JNull => (valuesOf this, Disk.Failed)
                          | _ => k
                          end = k)
      by (intros k; destruct data; [contradiction | | | | | |]; reflexivity).
    rewrite E. unfold load, valuesOf. cbn [queueFile with_queueFile]. cbv zeta.
    cbn [queue stats with_queue with_stats emit Disk.stats].
    f_equal. f_equal.
    + destruct (doc_queue d) as [q|]; cbn [readsAs] in Hq.
      * rewrite Hq. reflexivity.
      * apply orElse_absent, Hq.
    + destruct (doc_stats d) as [st|]; cbn [readsAs] in Hs.
      * rewrite Hs. reflexivity.
      * apply orElse_absent, Hs.
Qed.

(** The typed [save] describes the text [save] writes. *)
Lemma save_onDisk now lastSaved this :
  onDisk (queueFile (save now this)) (Some (Disk.save lastSaved (valuesOf this))).
Proof.
  cbn [save queueFile with_queueFile onDisk].
  eexists. split; [apply parse_saved|]. split; [discriminate|].
  split; reflexivity.
Qed.




#[local] Close Scope string_scope.

(* ------------------------------------------------------------------ *)
(** * Further properties of the build queue *)

(** ** The file follows the object *)

(** What a process started on [file] loads. *)
Definition loadedQueue (file : File) : list QueueItem.t :=
  queue (constructor None [] file).

Definition loadedStats (file : File) : Stats :=
  stats (constructor None [] file).

(** A restart of the process on the file the object has written. *)
Definition restart (parsed : option Z) (admins : list string) (this : BuildQueue)
  : BuildQueue :=
  constructor parsed admins (queueFile this).

(** The file holds the queue and the statistics of the object. *)
Definition inSync (this : BuildQueue) : Prop :=
  loadedQueue (queueFile this) = queue this
  /\ loadedStats (queueFile this) = stats this.

(** A call either saves last, or changes neither queue, statistics nor
    file. *)
Definition savesOrKeeps (this r : BuildQueue) : Prop :=
  persisted r = Some (queue r, stats r)
  \/ (queue r = queue this /\ stats r = stats this /\ queueFile r = queueFile this).

Lemma constructor_loads parsed admins file :
  queue (constructor parsed admins file) = loadedQueue file
  /\ stats (constructor parsed admins file) = loadedStats file
  /\ queueFile (constructor parsed admins file) = file.
Proof.
  unfold loadedQueue, loadedStats, constructor, load. cbv zeta.
  destruct file as [| |d]; fields; auto.
Qed.

Lemma persisted_inSync this :
  persisted this = Some (queue this, stats this) -> inSync this.
Proof.
  unfold persisted, inSync, loadedQueue, loadedStats, constructor, load.
  destruct (queueFile this) as [| |[[q|] [st|] l]]; try discriminate.
  intros H. inversion H. cbv zeta. fields. auto.
Qed.

Lemma savesOrKeeps_inSync this r : savesOrKeeps this r -> inSync this -> inSync r.
Proof.
  intros [H | (Hq & Hs & Hf)] Hin.
  - apply persisted_inSync, H.
  - unfold inSync in *. rewrite Hq, Hs, Hf. exact Hin.
Qed.

Lemma savesOrKeeps_refl this : savesOrKeeps this this.
Proof. right. auto. Qed.

Lemma savesOrKeeps_trans a b c :
  savesOrKeeps a b -> savesOrKeeps b c -> savesOrKeeps a c.
Proof.
  intros Hab [Hc | (Hq & Hs & Hf)]; [left; exact Hc|].
  destruct Hab as [Hb | (Hq' & Hs' & Hf')].
  - left. unfold persisted in *. rewrite Hq, Hs, Hf. exact Hb.
  - right. repeat split; congruence.
Qed.

Lemma savesOrKeeps_after_save a b c :
  persisted b = Some (queue b, stats b) -> savesOrKeeps b c ->
  savesOrKeeps a c.
Proof.
  intros Hb [Hc | (Hq & Hs & Hf)]; left; [exact Hc|].
  unfold persisted in *. rewrite Hq, Hs, Hf. exact Hb.
Qed.

Lemma processNext_savesOrKeeps now this : savesOrKeeps this (processNext now this).
Proof.
  apply (processNext_induction now savesOrKeeps).
  - intros this0 _. right. auto.
  - intros this0 _ _. right. auto.
  - intros this0 nb rest _ _ _. left. reflexivity.
  - intros this0 nb rest _ _ _ _. left. unfold persisted. fields.
    destruct (promoted_fields now nb rest this0) as (Pq & _ & Ps & _ & _ & _ & _ & Pp).
    unfold persisted in Pp. rewrite Pp. reflexivity.
  - intros this0 nb rest _ _ _ _ IH.
    apply (savesOrKeeps_after_save this0 (startFailed now nb rest this0)); [|exact IH].
    unfold startFailed, persisted. cbv zeta. fields. reflexivity.
Qed.

Lemma release_savesOrKeeps now c ok this : savesOrKeeps this (release now c ok this).
Proof.
  destruct (release_cases now c ok this) as [[_ ->] | (build & _ & ->)].
  - right. auto.
  - apply (savesOrKeeps_after_save this (released now c ok build this)).
    + apply released_persisted.
    + apply processNext_savesOrKeeps.
Qed.

Lemma releaseAll_savesOrKeeps now toRelease this :
  savesOrKeeps this (releaseAll now toRelease this).
Proof.
  revert this. induction toRelease as [|[c r] rest IH]; intros this; simpl.
  - apply savesOrKeeps_refl.
  - eapply savesOrKeeps_trans; [apply release_savesOrKeeps | apply IH].
Qed.

Lemma step_savesOrKeeps this op : savesOrKeeps this (step this op).
Proof.
  destruct op; simpl.
  - right. auto.
  - right. auto.
  - left. destruct (isBusy this) eqn:B;
      [|destruct (JsMap.has chatId (activeBuilds this)) eqn:Hh].
    + apply addToQueue_queued. auto.
    + apply addToQueue_queued. auto.
    + apply addToQueue_immediate; assumption.
  - unfold removeFromQueue. cbv zeta. destruct (_ >=? 0).
    + left. unfold persisted. fields. reflexivity.
    + right. auto.
  - right. destruct (acquire_fields now chatId buildData type userName this)
      as (Hq & Hs & _ & _ & _ & Hf). auto.
  - apply release_savesOrKeeps.
  - apply processNext_savesOrKeeps.
  - unfold checkStuckBuilds. destruct (_ =? 0); [apply savesOrKeeps_refl|].
    destruct (scanStuck now (activeBuilds this) [] this) as [toRelease this1] eqn:E.
    pose proof (scanStuck_fields now (activeBuilds this) [] this) as F.
    rewrite E in F. simpl in F. destruct F as (Fq & _ & Fs & _ & _ & _ & _ & Ff).
    eapply savesOrKeeps_trans; [|apply releaseAll_savesOrKeeps].
    right. auto.
  - right. unfold updateActivity. cbv zeta.
    destruct chatId as [c|]; [destruct (_ && _)|]; auto.
  - left. unfold forceRelease. cbv zeta. reflexivity.
  - left. reflexivity.
  - left. reflexivity.
Qed.

Lemma run_inSync ops this : inSync this -> inSync (run ops this).
Proof.
  revert this. induction ops as [|op ops IH]; intros this H; simpl; [exact H|].
  apply IH. eapply savesOrKeeps_inSync; [apply step_savesOrKeeps | exact H].
Qed.

(** X1. Whatever file the process started on and whatever calls were made
    since, a process restarted on the file as it now lies on disk has the
    same queue and the same statistics as the running one, and an empty
    registry: every call that changes queue or statistics saves last. *)
Theorem X1_restart_recovers_queue_and_stats :
  forall (parsed parsed' : option Z) (admins admins' : list string)
         (file : File) (ops : list Op),
    let running := run ops (constructor parsed admins file) in
    queue (restart parsed' admins' running) = queue running
    /\ stats (restart parsed' admins' running) = stats running
    /\ activeBuilds (restart parsed' admins' running) = [].
Proof.
  intros parsed parsed' admins admins' file ops running.
  destruct (constructor_loads parsed admins file) as (Cq & Cs & Cf).
  assert (H0 : inSync (constructor parsed admins file)).
  { unfold inSync. rewrite Cf, Cq, Cs. auto. }
  destruct (run_inSync ops _ H0) as [Hq Hs]. fold running in Hq, Hs.
  unfold restart.
  destruct (constructor_loads parsed' admins' (queueFile running)) as (Rq & Rs & _).
  rewrite Rq, Rs. split; [exact Hq|]. split; [exact Hs|].
  apply constructor_fields.
Qed.

(* ------------------------------------------------------------------ *)
(** ** The counters *)

(** A call that counts no success and no request, and takes no failure
    back. *)
Definition countsOnlyFailures (this r : BuildQueue) : Prop :=
  success (stats r) = success (stats this)
  /\ total (stats r) = total (stats this)
  /\ totalTime (stats r) = totalTime (stats this)
  /\ failed (stats this) <= failed (stats r).

Lemma countsOnlyFailures_same this r :
  stats r = stats this -> countsOnlyFailures this r.
Proof. intros H. unfold countsOnlyFailures. rewrite H. repeat split; lia. Qed.

Lemma countsOnlyFailures_trans a b c :
  countsOnlyFailures a b -> countsOnlyFailures b c -> countsOnlyFailures a c.
Proof.
  unfold countsOnlyFailures. intros (A1 & A2 & A3 & A4) (B1 & B2 & B3 & B4).
  repeat split; try congruence. lia.
Qed.

Lemma processNext_countsOnlyFailures now this :
  countsOnlyFailures this (processNext now this).
Proof.
  destruct (processNext_stats now this) as (S1 & S2 & S3 & S4 & _).
  unfold countsOnlyFailures. auto.
Qed.

Lemma release_failed_countsOnlyFailures now c this :
  countsOnlyFailures this (release now c false this).
Proof.
  destruct (release_cases now c false this) as [[_ ->] | (build & _ & ->)].
  - apply countsOnlyFailures_same. reflexivity.
  - eapply countsOnlyFailures_trans; [|apply processNext_countsOnlyFailures].
    unfold countsOnlyFailures. fields. repeat split; lia.
Qed.

Lemma releaseAll_countsOnlyFailures now toRelease this :
  countsOnlyFailures this (releaseAll now toRelease this).
Proof.
  revert this. induction toRelease as [|[c r] rest IH]; intros this; simpl.
  - apply countsOnlyFailures_same. reflexivity.
  - eapply countsOnlyFailures_trans; [apply release_failed_countsOnlyFailures|].
    apply IH.
Qed.

Lemma checkStuckBuilds_countsOnlyFailures now this :
  countsOnlyFailures this (checkStuckBuilds now this).
Proof.
  unfold checkStuckBuilds.
  destruct (_ =? 0); [apply countsOnlyFailures_same; reflexivity|].
  destruct (scanStuck now (activeBuilds this) [] this) as [toRelease this1] eqn:E.
  pose proof (scanStuck_fields now (activeBuilds this) [] this) as F.
  rewrite E in F. simpl in F. destruct F as (_ & _ & Fs & _).
  eapply countsOnlyFailures_trans; [|apply releaseAll_countsOnlyFailures].
  apply countsOnlyFailures_same. exact Fs.
Qed.

Lemma forceRelease_countsOnlyFailures now c this :
  countsOnlyFailures this (forceRelease now c this).
Proof.
  rewrite forceRelease_eq. destruct (forceApplies c this).
  - eapply countsOnlyFailures_trans;
      [|eapply countsOnlyFailures_trans;
          [apply (processNext_countsOnlyFailures now (forced c this))|]].
    + apply countsOnlyFailures_same. apply forced_fields.
    + apply countsOnlyFailures_same. reflexivity.
  - apply countsOnlyFailures_same. reflexivity.
Qed.

Lemma release_counters now c ok this :
  let r := release now c ok this in
  success (stats r)
  = (if ok && JsMap.has c (activeBuilds this)
     then success (stats this) + 1 else success (stats this))
  /\ total (stats r) = total (stats this)
  /\ failed (stats this) <= failed (stats r).
Proof.
  intros r. subst r.
  destruct (release_cases now c ok this) as [[Hn ->] | (build & Hg & ->)].
  - apply get_None_has in Hn. rewrite Hn, andb_false_r. fields.
    repeat split; lia.
  - assert (Hh : JsMap.has c (activeBuilds this) = true)
      by (unfold JsMap.has; rewrite Hg; reflexivity).
    rewrite Hh, andb_true_r.
    destruct (processNext_stats now (released now c ok build this))
      as (S1 & S2 & _ & S4 & _).
    rewrite S1, S2. rewrite released_stats in *.
    destruct ok; simpl in *; repeat split; lia.
Qed.

Lemma addToQueue_stats now c d t u this :
  stats (snd (addToQueue now c d t u this))
  = mkStats (success (stats this)) (failed (stats this))
      (total (stats this) + 1) (totalTime (stats this)).
Proof.
  destruct (isBusy this) eqn:B;
    [|destruct (JsMap.has c (activeBuilds this)) eqn:Hh].
  - apply addToQueue_queued. auto.
  - apply addToQueue_queued. auto.
  - apply addToQueue_immediate; assumption.
Qed.

Lemma updateActivity_fields now c this :
  queue (updateActivity now c this) = queue this
  /\ stats (updateActivity now c this) = stats this
  /\ queueFile (updateActivity now c this) = queueFile this
  /\ maxConcurrent (updateActivity now c this) = maxConcurrent this
  /\ trace (updateActivity now c this) = trace this.
Proof.
  unfold updateActivity. cbv zeta.
  destruct c as [c|]; [destruct (_ && _)|]; auto.
Qed.

(** X2. How each call moves the counters. [total] grows by one on every
    [addToQueue] (started, queued, or replacing an older request), is
    zeroed by [resetStats], and is left alone by every other call.
    [success] grows by one exactly on [release(identity, true)] of an
    identity that is building, is zeroed by [resetStats], and is otherwise
    left alone. [failed] never decreases except by [resetStats]. *)
Theorem X2_counter_accounting :
  forall (this : BuildQueue) (op : Op),
    total (stats (step this op))
    = match op with
      | OpAddToQueue _ _ _ _ _ => total (stats this) + 1
      | OpResetStats _ => 0
      | _ => total (stats this)
      end
    /\ success (stats (step this op))
       = match op with
         | OpRelease _ c true =>
             if JsMap.has c (activeBuilds this)
             then success (stats this) + 1 else success (stats this)
         | OpResetStats _ => 0
         | _ => success (stats this)
         end
    /\ match op with
       | OpResetStats _ => failed (stats (step this op)) = 0
       | _ => failed (stats this) <= failed (stats (step this op))
       end.
Proof.
  intros this op. destruct op; simpl.
  - repeat split; lia.
  - repeat split; lia.
  - rewrite addToQueue_stats. simpl. repeat split; lia.
  - destruct (removeFromQueue_fields now chatId this) as (_ & -> & _).
    repeat split; lia.
  - destruct (acquire_fields now chatId buildData type userName this)
      as (_ & -> & _).
    repeat split; lia.
  - destruct (release_counters now chatId ok this) as (H1 & H2 & H3).
    rewrite H1, H2. destruct ok; simpl; auto.
  - destruct (processNext_countsOnlyFailures now this) as (H1 & H2 & _ & H4). auto.
  - destruct (checkStuckBuilds_countsOnlyFailures now this) as (H1 & H2 & _ & H4).
    auto.
  - destruct (updateActivity_fields now chatId this) as (_ & -> & _).
    repeat split; lia.
  - destruct (forceRelease_countsOnlyFailures now chatId this) as (H1 & H2 & _ & H4).
    auto.
  - auto.
  - repeat split; lia.
Qed.

(* ------------------------------------------------------------------ *)
(** ** The registry *)

Lemma get_app_other {V} k k' (v : V) (m : JsMap.t V) :
  k' <> k -> JsMap.get k' (m ++ [(k, v)]) = JsMap.get k' m.
Proof.
  intros Hk. induction m as [|[k0 v0] m IH]; simpl.
  - apply chatId_eqb_neq in Hk. rewrite chatId_eqb_sym, Hk. reflexivity.
  - destruct (chatId_eqb k0 k'); [reflexivity | exact IH].
Qed.

(** X3. [acquire] succeeds exactly when the identity is not building and a
    slot is free. It never touches queue, statistics or file. When it
    refuses, the registry is as before (a build of the same identity keeps
    its record and its start time); when it succeeds, the registry has one
    more entry, last in order, for this identity, started and last active
    [now], and every other identity reads as before. *)
Theorem X3_acquire_outcomes :
  forall now c d t u this,
    let r := acquire now c d t u this in
    fst r = negb (JsMap.has c (activeBuilds this)) && negb (isBusy this)
    /\ queue (snd r) = queue this
    /\ stats (snd r) = stats this
    /\ queueFile (snd r) = queueFile this
    /\ (fst r = false -> activeBuilds (snd r) = activeBuilds this)
    /\ (fst r = true ->
        activeBuilds (snd r) = activeBuilds this ++ [(c, BuildInfo.mk now now d t u)]
        /\ JsMap.get c (activeBuilds (snd r)) = Some (BuildInfo.mk now now d t u)
        /\ JsMap.size (activeBuilds (snd r)) = JsMap.size (activeBuilds this) + 1
        /\ JsMap.size (activeBuilds (snd r)) <= maxConcurrent this
        /\ forall c', c' <> c ->
             JsMap.get c' (activeBuilds (snd r)) = JsMap.get c' (activeBuilds this)).
Proof.
  intros now c d t u this r. subst r.
  destruct (acquire_fields now c d t u this) as (Hq & Hs & _ & _ & _ & Hf).
  split; [|split; [exact Hq | split; [exact Hs | split; [exact Hf|]]]].
  - unfold acquire, isBusy.
    destruct (JsMap.has c (activeBuilds this)); [reflexivity|].
    destruct (_ >=? _); reflexivity.
  - destruct (JsMap.has c (activeBuilds this)) eqn:Hh.
    { rewrite acquire_already by assumption. split; [reflexivity | discriminate]. }
    destruct (isBusy this) eqn:B.
    { rewrite acquire_full by assumption. split; [reflexivity | discriminate]. }
    rewrite acquire_ok by assumption. fields.
    split; [discriminate|]. intros _.
    split; [reflexivity|]. split; [apply get_app_fresh; assumption|].
    split; [apply size_app1|]. split.
    + rewrite size_app1. unfold isBusy in B. lia.
    + intros c' Hc'. apply get_app_other. exact Hc'.
Qed.

(** A record is new when it carries the same stamp twice, as [acquire]
    writes it. *)
Definition newlyStarted (kv : ChatId * BuildInfo.t) : Prop :=
  BuildInfo.startTime (snd kv) = BuildInfo.lastActivity (snd kv).

(** A call that leaves records, drops records and adds new records for
    identities that have none, and alters none. *)
Definition onlyAddsAndDrops (this r : BuildQueue) : Prop :=
  (NoDup (activeIds this) -> NoDup (activeIds r))
  /\ (forall kv, In kv (activeBuilds r) ->
                 In kv (activeBuilds this) \/ newlyStarted kv).

Lemma onlyAddsAndDrops_refl this : onlyAddsAndDrops this this.
Proof. split; auto. Qed.

Lemma onlyAddsAndDrops_same this r :
  activeBuilds r = activeBuilds this -> onlyAddsAndDrops this r.
Proof. intros H. unfold onlyAddsAndDrops, activeIds. rewrite H. auto. Qed.

Lemma onlyAddsAndDrops_trans a b c :
  onlyAddsAndDrops a b -> onlyAddsAndDrops b c -> onlyAddsAndDrops a c.
Proof.
  intros [A1 A2] [B1 B2]. split; [auto|].
  intros kv H. destruct (B2 kv H) as [H' | H']; auto.
Qed.

Lemma keys_delete_NoDup {V} k (m : JsMap.t V) :
  NoDup (JsMap.keys m) -> NoDup (JsMap.keys (JsMap.delete k m)).
Proof.
  intros H. eapply subseq_NoDup; [|exact H].
  unfold JsMap.keys, JsMap.delete. apply subseq_map, subseq_filter.
Qed.

Lemma onlyAddsAndDrops_delete c this r :
  activeBuilds r = JsMap.delete c (activeBuilds this) -> onlyAddsAndDrops this r.
Proof.
  intros H. unfold onlyAddsAndDrops, activeIds. rewrite H. split.
  - apply keys_delete_NoDup.
  - intros kv Hin. left. apply delete_In in Hin. tauto.
Qed.

Lemma onlyAddsAndDrops_append this r c b :
  JsMap.has c (activeBuilds this) = false ->
  BuildInfo.startTime b = BuildInfo.lastActivity b ->
  activeBuilds r = activeBuilds this ++ [(c, b)] ->
  onlyAddsAndDrops this r.
Proof.
  intros Hhas Hb H. unfold onlyAddsAndDrops, activeIds. rewrite H. split.
  - intros Hnd. rewrite keys_app. simpl.
    apply has_false_not_In in Hhas.
    apply NoDup_app; [exact Hnd | repeat constructor; auto |].
    intros x Hx [E | []]. subst x. contradiction.
  - intros kv Hin. apply in_app_or in Hin. destruct Hin as [Hin | [E | []]].
    + left. exact Hin.
    + right. subst kv. exact Hb.
Qed.

Lemma processNext_onlyAddsAndDrops now this :
  onlyAddsAndDrops this (processNext now this).
Proof.
  destruct (processNext_active now this) as (added & E & Hlen & _ & Hin).
  destruct added as [|[c b] added].
  - apply onlyAddsAndDrops_same. rewrite E. apply app_nil_r.
  - destruct added; [|simpl in Hlen; lia].
    destruct (Hin c b (or_introl eq_refl)) as (_ & Hhas & T1 & T2).
    apply (onlyAddsAndDrops_append this _ c b); auto. congruence.
Qed.

Lemma release_onlyAddsAndDrops now c ok this :
  onlyAddsAndDrops this (release now c ok this).
Proof.
  destruct (release_cases now c ok this) as [[_ ->] | (build & _ & ->)].
  - apply onlyAddsAndDrops_same. reflexivity.
  - eapply onlyAddsAndDrops_trans; [|apply processNext_onlyAddsAndDrops].
    apply (onlyAddsAndDrops_delete c). apply released_active.
Qed.

Lemma releaseAll_onlyAddsAndDrops now toRelease this :
  onlyAddsAndDrops this (releaseAll now toRelease this).
Proof.
  revert this. induction toRelease as [|[c r] rest IH]; intros this; simpl.
  - apply onlyAddsAndDrops_refl.
  - eapply onlyAddsAndDrops_trans; [apply release_onlyAddsAndDrops | apply IH].
Qed.

Lemma step_onlyAddsAndDrops this op :
  (forall now c, op <> OpUpdateActivity now c) ->
  onlyAddsAndDrops this (step this op).
Proof.
  intros Hop. destruct op; simpl.
  - apply onlyAddsAndDrops_same. reflexivity.
  - apply onlyAddsAndDrops_same. reflexivity.
  - destruct (isBusy this) eqn:B;
      [|destruct (JsMap.has chatId (activeBuilds this)) eqn:Hh].
    + apply onlyAddsAndDrops_same. apply addToQueue_queued. auto.
    + apply onlyAddsAndDrops_same. apply addToQueue_queued. auto.
    + destruct (addToQueue_immediate now chatId buildData type userName this B Hh)
        as (_ & _ & _ & Ha & _).
      eapply onlyAddsAndDrops_append; [exact Hh | | exact Ha]. reflexivity.
  - apply onlyAddsAndDrops_same. apply removeFromQueue_fields.
  - destruct (JsMap.has chatId (activeBuilds this)) eqn:Hh.
    { rewrite acquire_already by assumption. apply onlyAddsAndDrops_same.
      reflexivity. }
    destruct (isBusy this) eqn:B.
    { rewrite acquire_full by assumption. apply onlyAddsAndDrops_same.
      reflexivity. }
    rewrite acquire_ok by assumption.
    eapply onlyAddsAndDrops_append; [exact Hh | | reflexivity]. reflexivity.
  - apply release_onlyAddsAndDrops.
  - apply processNext_onlyAddsAndDrops.
  - unfold checkStuckBuilds. destruct (_ =? 0); [apply onlyAddsAndDrops_refl|].
    destruct (scanStuck now (activeBuilds this) [] this) as [toRelease this1] eqn:E.
    pose proof (scanStuck_fields now (activeBuilds this) [] this) as F.
    rewrite E in F. simpl in F. destruct F as (_ & Fa & _).
    eapply onlyAddsAndDrops_trans; [|apply releaseAll_onlyAddsAndDrops].
    apply onlyAddsAndDrops_same. exact Fa.
  - exfalso. apply (Hop now chatId). reflexivity.
  - rewrite forceRelease_eq. destruct (forceApplies chatId this) eqn:Happ.
    + eapply onlyAddsAndDrops_trans;
        [|eapply onlyAddsAndDrops_trans;
            [apply (processNext_onlyAddsAndDrops now (forced chatId this))|]].
      * unfold forced. destruct chatId as [c|]; [destruct (truthy c)|].
        -- apply (onlyAddsAndDrops_delete c). reflexivity.
        -- split; [intros _; constructor | intros kv []].
        -- split; [intros _; constructor | intros kv []].
      * apply onlyAddsAndDrops_same. reflexivity.
    + apply onlyAddsAndDrops_same. reflexivity.
  - apply onlyAddsAndDrops_same. reflexivity.
  - apply onlyAddsAndDrops_same. reflexivity.
Qed.

Lemma step_unique_ids this op :
  NoDup (activeIds this) -> NoDup (activeIds (step this op)).
Proof.
  destruct op; try (apply step_onlyAddsAndDrops; discriminate).
  simpl. rewrite updateActivity_keys. auto.
Qed.

(** The build a call starts: for its own request when the call is
    [addToQueue] or [acquire], for a request it takes from the queue
    otherwise; it is the record [acquire] writes, with both stamps the
    clock reading of the call. *)
Definition startedBy (op : Op) (this : BuildQueue) (kv : ChatId * BuildInfo.t)
  : Prop :=
  match op with
  | OpAddToQueue now c d t u | OpAcquire now c d t u =>
      kv = (c, BuildInfo.mk now now d t u)
  | OpRelease now _ _ | OpProcessNext now | OpCheckStuckBuilds now
  | OpForceRelease now _ =>
      exists item, In item (queue this)
                   /\ kv = (QueueItem.chatId item, freshBuild now item)
  | _ => False
  end.

(** The identities whose build a call ends itself: the one it is asked to
    release, the ones the sweep finds stuck, all of them for a
    [forceRelease] without a truthy identity. *)
Definition ends (op : Op) (this : BuildQueue) (k : ChatId) : Prop :=
  match op with
  | OpRelease _ c _ => k = c
  | OpCheckStuckBuilds now =>
      exists build, In (k, build) (activeBuilds this) /\ isStuck now build = true
  | OpForceRelease _ (Some c) => if truthy c then k = c else True
  | OpForceRelease _ None => True
  | _ => False
  end.

Lemma has_app_false {V} k (m1 m2 : JsMap.t V) :
  JsMap.has k (m1 ++ m2) = false -> JsMap.has k m1 = false.
Proof.
  rewrite !has_false_not_In, keys_app. intros H Hin. apply H.
  apply in_or_app. left. exact Hin.
Qed.

Lemma has_delete_false {V} k c (m : JsMap.t V) :
  JsMap.has k (JsMap.delete c m) = false -> k = c \/ JsMap.has k m = false.
Proof.
  rewrite delete_has. destruct (chatId_eqb k c) eqn:E.
  - left. apply chatId_eqb_eq. exact E.
  - right. exact H.
Qed.

(** What one [processNext] leaves in the registry: the records that were
    there, and at most the record of a queued request whose identity had
    none. *)
Lemma processNext_started now this kv :
  In kv (activeBuilds (processNext now this)) ->
  In kv (activeBuilds this)
  \/ (exists item, In item (queue this)
                   /\ kv = (QueueItem.chatId item, freshBuild now item))
     /\ JsMap.has (fst kv) (activeBuilds this) = false.
Proof.
  revert kv.
  apply (processNext_induction now (fun this r =>
    forall kv, In kv (activeBuilds r) ->
      In kv (activeBuilds this)
      \/ (exists item, In item (queue this)
                       /\ kv = (QueueItem.chatId item, freshBuild now item))
         /\ JsMap.has (fst kv) (activeBuilds this) = false)).
  - intros this0 _ kv H. left. exact H.
  - intros this0 _ _ kv H. left. exact H.
  - intros this0 nb rest _ _ _ kv H. left. exact H.
  - intros this0 nb rest Hq B Hhas Hcb kv H.
    fields. unfold autoStarting in H. fields.
    apply in_app_or in H. destruct H as [H | [E | []]]; [left; exact H|].
    right. subst kv. split; [|exact Hhas].
    exists nb. rewrite Hq. split; [left|]; reflexivity.
  - intros this0 nb rest Hq B Hhas Hcb IH kv H.
    destruct (IH kv H) as [Hin | [(item & Hi & E) Hfresh]]; fields.
    + left. exact Hin.
    + right. split; [|exact Hfresh].
      exists item. rewrite Hq. split; [right; exact Hi | exact E].
Qed.

Lemma release_started now c ok this kv :
  In kv (activeBuilds (release now c ok this)) ->
  In kv (activeBuilds this)
  \/ (exists item, In item (queue this)
                   /\ kv = (QueueItem.chatId item, freshBuild now item))
     /\ (JsMap.has (fst kv) (activeBuilds this) = false \/ fst kv = c).
Proof.
  destruct (release_cases now c ok this) as [[_ ->] | (build & _ & ->)].
  - intros H. left. exact H.
  - intros H. apply processNext_started in H. fields.
    destruct H as [H | [Hitem Hfresh]].
    + left. apply delete_In in H. tauto.
    + right. split; [exact Hitem|].
      apply has_delete_false in Hfresh. tauto.
Qed.

Lemma release_absent now c ok this k :
  JsMap.has k (activeBuilds (release now c ok this)) = false ->
  JsMap.has k (activeBuilds this) = false \/ k = c.
Proof.
  destruct (release_cases now c ok this) as [[_ ->] | (build & _ & ->)].
  - intros H. left. exact H.
  - destruct (processNext_active now (released now c ok build this))
      as (added & E & _). rewrite E. fields.
    intros H. apply has_app_false, has_delete_false in H. tauto.
Qed.

Lemma releaseAll_started now toRelease this kv :
  In kv (activeBuilds (releaseAll now toRelease this)) ->
  In kv (activeBuilds this)
  \/ (exists item, In item (queue this)
                   /\ kv = (QueueItem.chatId item, freshBuild now item))
     /\ (JsMap.has (fst kv) (activeBuilds this) = false
         \/ In (fst kv) (List.map fst toRelease)).
Proof.
  revert this. induction toRelease as [|[c r] rest IH]; intros this H; simpl in *.
  - left. exact H.
  - destruct (IH _ H) as [Hin | [(item & Hi & E) Hwhy]].
    + apply release_started in Hin.
      destruct Hin as [Hin | [Hitem [Hfresh | Hc]]]; auto.
    + right. split.
      * exists item. split; [|exact E].
        eapply subseq_In; [apply release_queueShrinks | exact Hi].
      * destruct Hwhy as [Hfresh | Hrest]; [|auto].
        apply release_absent in Hfresh. destruct Hfresh; auto.
Qed.

(** No call but the heartbeat alters a record: what is in the registry
    after a call was there before, or is the record the call has written
    for a request, under an identity that had no build or whose build the
    call has ended. *)
Lemma step_started this op kv :
  (forall now c, op <> OpUpdateActivity now c) ->
  In kv (activeBuilds (step this op)) ->
  In kv (activeBuilds this)
  \/ startedBy op this kv
     /\ (JsMap.has (fst kv) (activeBuilds this) = false \/ ends op this (fst kv)).
Proof.
  intros Hop. destruct op; cbn [step].
  - auto.
  - auto.
  - destruct (isBusy this) eqn:B;
      [|destruct (JsMap.has chatId (activeBuilds this)) eqn:Hh].
    + destruct (addToQueue_queued now chatId buildData type userName this)
        as (_ & _ & _ & Ha & _); [auto|]. rewrite Ha. auto.
    + destruct (addToQueue_queued now chatId buildData type userName this)
        as (_ & _ & _ & Ha & _); [auto|]. rewrite Ha. auto.
    + destruct (addToQueue_immediate now chatId buildData type userName this B Hh)
        as (_ & _ & _ & Ha & _). rewrite Ha.
      intros H. apply in_app_or in H. destruct H as [H | [E | []]]; [auto|].
      right. subst kv. split; [reflexivity | left; exact Hh].
  - destruct (removeFromQueue_fields now chatId this) as (-> & _). auto.
  - destruct (JsMap.has chatId (activeBuilds this)) eqn:Hh.
    { rewrite acquire_already by assumption. auto. }
    destruct (isBusy this) eqn:B.
    { rewrite acquire_full by assumption. auto. }
    rewrite acquire_ok by assumption. fields.
    intros H. apply in_app_or in H. destruct H as [H | [E | []]]; [auto|].
    right. subst kv. split; [reflexivity | left; exact Hh].
  - intros H. apply release_started in H. tauto.
  - intros H. apply processNext_started in H. tauto.
  - unfold checkStuckBuilds. destruct (_ =? 0); [auto|].
    pose proof (scanStuck_toRelease now (activeBuilds this) [] this) as T.
    pose proof (scanStuck_fields now (activeBuilds this) [] this) as F.
    destruct (scanStuck now (activeBuilds this) [] this) as [toRelease this1].
    simpl in T, F. destruct F as (Fq & Fa & _).
    intros H. apply releaseAll_started in H. rewrite Fq, Fa in H.
    destruct H as [H | [Hitem [Hfresh | Hflag]]]; [auto | auto |].
    right. split; [exact Hitem|]. right.
    rewrite T in Hflag. apply in_map_iff in Hflag.
    destruct Hflag as ([k b] & Ek & Hin). apply filter_In in Hin.
    simpl in *. subst k. exists b. exact Hin.
  - exfalso. apply (Hop now chatId). reflexivity.
  - rewrite forceRelease_eq. destruct (forceApplies chatId this) eqn:Happ; [|auto].
    fields. intros H. apply processNext_started in H.
    assert (Hq : queue (forced chatId this) = queue this)
      by (unfold forced; destruct chatId as [c|]; [destruct (truthy c)|];
          reflexivity).
    rewrite Hq in H.
    unfold forced in H. destruct chatId as [c|]; [destruct (truthy c) eqn:T|];
      fields.
    + destruct H as [H | [Hitem Hfresh]].
      * left. apply delete_In in H. tauto.
      * right. split; [exact Hitem|]. cbn [ends]. rewrite T.
        apply has_delete_false in Hfresh. tauto.
    + destruct H as [[] | [Hitem _]]. right. cbn [ends]. rewrite T. auto.
    + destruct H as [[] | [Hitem _]]. right. cbn [ends]. auto.
  - auto.
  - auto.
Qed.

(** X4. An identity never holds two slots: if the registry lists each
    identity once, it does so after every sequence of calls (and from the
    constructor on it always does). And no call but the heartbeat
    [updateActivity] alters the record of a running build: after any other
    call every record is one that was there before, or is the record
    [acquire] writes at this call (both stamps the clock reading of the
    call, the payload that of the call's own request or of a request that
    was waiting), under an identity that had no build or whose build this
    very call has ended. *)
Theorem X4_one_build_per_identity :
  (forall ops this, NoDup (activeIds this) -> NoDup (activeIds (run ops this)))
  /\ (forall ops parsed admins file,
        NoDup (activeIds (run ops (constructor parsed admins file))))
  /\ (forall this op kv,
        (forall now c, op <> OpUpdateActivity now c) ->
        In kv (activeBuilds (step this op)) ->
        In kv (activeBuilds this)
        \/ startedBy op this kv
           /\ (JsMap.has (fst kv) (activeBuilds this) = false
               \/ ends op this (fst kv))).
Proof.
  assert (H : forall ops this, NoDup (activeIds this) -> NoDup (activeIds (run ops this))).
  { induction ops as [|op ops IH]; intros this Hnd; simpl; [exact Hnd|].
    apply IH, step_unique_ids, Hnd. }
  split; [exact H|]. split.
  - intros ops parsed admins file. apply H. unfold activeIds.
    destruct (constructor_fields parsed admins file) as (_ & -> & _). constructor.
  - intros this op kv Hop. apply step_started. exact Hop.
Qed.

Lemma X4_one_build_per_identity_witness :
  NoDup (activeIds sweepExample)
  /\ NoDup (activeIds (run [OpCheckStuckBuilds 3000000] sweepExample)).
Proof.
  assert (H : NoDup (activeIds sweepExample)).
  { vm_compute. repeat constructor; simpl; intuition discriminate. }
  split; [exact H|].
  apply (proj1 X4_one_build_per_identity [OpCheckStuckBuilds 3000000] sweepExample H).
Defined.

(* ------------------------------------------------------------------ *)
(** ** Positions and withdrawal *)

Lemma hasPendingBuild_false c this :
  hasPendingBuild c this = false
  <-> Forall (fun item => QueueItem.chatId item <> c) (queue this).
Proof.
  rewrite Forall_forall. split.
  - intros H item Hin E.
    assert (In c (queueIds this)).
    { unfold queueIds. apply in_map_iff. exists item. auto. }
    apply hasPendingBuild_In in H0. congruence.
  - intros H. destruct (hasPendingBuild c this) eqn:E; [|reflexivity].
    apply hasPendingBuild_In in E. unfold queueIds in E. apply in_map_iff in E.
    destruct E as (item & E & Hin). exfalso. apply (H item Hin E).
Qed.

(** [getUserPosition] on a queue split at the first request of the
    identity. *)
Lemma getUserPosition_split c this front x back :
  queue this = front ++ x :: back ->
  Forall (fun item => QueueItem.chatId item <> c) front ->
  QueueItem.chatId x = c ->
  getUserPosition c this = Z.of_nat (List.length front) + 1.
Proof.
  intros Hq Hfront Hx. unfold getUserPosition, findIndex. cbv zeta. rewrite Hq.
  assert (H : forall i, findIndex_from
                (fun item => chatId_eqb (QueueItem.chatId item) c)
                (front ++ x :: back) i = i + Z.of_nat (List.length front)).
  { clear Hq. induction Hfront as [|y l Hy _ IH]; intros i; simpl.
    - apply chatId_eqb_eq in Hx. rewrite Hx. lia.
    - apply chatId_eqb_neq in Hy. rewrite Hy, IH. lia. }
  rewrite H.
  assert (G : (0 + Z.of_nat (List.length front) >=? 0) = true)
    by (apply Z.geb_le; lia).
  rewrite G. lia.
Qed.

Lemma getUserPosition_absent c this :
  Forall (fun item => QueueItem.chatId item <> c) (queue this) ->
  getUserPosition c this = 0.
Proof.
  intros H. unfold getUserPosition, findIndex. cbv zeta.
  assert (E : forall i, findIndex_from
                (fun item => chatId_eqb (QueueItem.chatId item) c)
                (queue this) i = -1).
  { induction H as [|y l Hy _ IH]; intros i; simpl; [reflexivity|].
    apply chatId_eqb_neq in Hy. rewrite Hy. apply IH. }
  rewrite E. reflexivity.
Qed.

(** X5. [getUserPosition] is 0 exactly for an identity with no request
    waiting; otherwise it is between 1 and the length of the queue, and it
    is the 1-based place of the first request of that identity: the request
    at that place is the identity's and no earlier one is. *)
Theorem X5_user_position :
  forall (c : ChatId) (this : BuildQueue),
    let p := getUserPosition c this in
    0 <= p <= Z.of_nat (List.length (queue this))
    /\ (p = 0 <-> hasPendingBuild c this = false)
    /\ (0 < p ->
        exists item,
          nth_error (queue this) (Z.to_nat (p - 1)) = Some item
          /\ QueueItem.chatId item = c
          /\ Forall (fun earlier => QueueItem.chatId earlier <> c)
               (firstn (Z.to_nat (p - 1)) (queue this))).
Proof.
  intros c this p.
  destruct (removeFromQueue_cases 0 c this)
    as [[Hall _] | (front & x & back & Hq & Hfront & Hx & _ & _)].
  - assert (Hp : p = 0) by (apply getUserPosition_absent; exact Hall).
    rewrite Hp. split; [lia|]. split.
    + split; [intros _; apply hasPendingBuild_false; exact Hall | reflexivity].
    + lia.
  - assert (Hp : p = Z.of_nat (List.length front) + 1)
      by (apply (getUserPosition_split c this front x back); assumption).
    rewrite Hp. split; [|split].
    + rewrite Hq, length_app. simpl. lia.
    + split; [lia|]. intros H. apply hasPendingBuild_false in H.
      rewrite Hq in H. apply Forall_app in H. destruct H as [_ H].
      inversion H; subst. contradiction.
    + intros _. exists x.
      replace (Z.to_nat (Z.of_nat (List.length front) + 1 - 1))
        with (List.length front) by lia.
      rewrite Hq. split; [|split; [exact Hx|]].
      * rewrite nth_error_app2 by lia. rewrite Nat.sub_diag. reflexivity.
      * rewrite firstn_length_app. exact Hfront.
Qed.

(** X6. [removeFromQueue] returns whether the identity had a request
    waiting. It takes out the first such request and nothing else (the queue
    was [front ++ request :: back] with no request of the identity in
    [front], and becomes [front ++ back]): the other
    requests keep their order, the registry and the statistics are
    untouched, and every other identity is waiting or not as before. When
    nothing is waiting the object is left exactly as it was. On a queue that
    lists no identity twice the identity is not waiting afterwards, and a
    second call returns false and changes nothing. *)
Theorem X6_remove_from_queue :
  forall (now now' : Z) (c : ChatId) (this : BuildQueue),
    let r := removeFromQueue now c this in
    fst r = hasPendingBuild c this
    /\ subseq (queue (snd r)) (queue this)
    /\ activeBuilds (snd r) = activeBuilds this
    /\ stats (snd r) = stats this
    /\ (fst r = true ->
        S (List.length (queue (snd r))) = List.length (queue this)
        /\ persisted (snd r) = Some (queue (snd r), stats (snd r))
        /\ exists front x back,
             queue this = front ++ x :: back
             /\ Forall (fun item => QueueItem.chatId item <> c) front
             /\ QueueItem.chatId x = c
             /\ queue (snd r) = front ++ back)
    /\ (fst r = false -> snd r = this)
    /\ (forall c', c' <> c ->
          hasPendingBuild c' (snd r) = hasPendingBuild c' this)
    /\ (NoDup (queueIds this) ->
        hasPendingBuild c (snd r) = false
        /\ removeFromQueue now' c (snd r) = (false, snd r)).
Proof.
  intros now now' c this r. subst r.
  destruct (removeFromQueue_fields now c this) as (Fa & Fs & _).
  assert (Hother : forall c', c' <> c ->
            hasPendingBuild c' (snd (removeFromQueue now c this))
            = hasPendingBuild c' this).
  { intros c' Hc'.
    destruct (removeFromQueue_cases now c this)
      as [[_ ->] | (front & x & back & Hq & _ & Hx & _ & Hr)]; [reflexivity|].
    unfold hasPendingBuild. rewrite Hr, Hq, !existsb_app. simpl.
    replace (chatId_eqb (QueueItem.chatId x) c') with false; [reflexivity|].
    symmetry. apply chatId_eqb_neq. congruence. }
  assert (Hagain : NoDup (queueIds this) ->
            hasPendingBuild c (snd (removeFromQueue now c this)) = false
            /\ removeFromQueue now' c (snd (removeFromQueue now c this))
               = (false, snd (removeFromQueue now c this))).
  { intros Hnd. pose proof (removeFromQueue_absent now c this Hnd) as Habs.
    assert (Hp : hasPendingBuild c (snd (removeFromQueue now c this)) = false).
    { destruct (hasPendingBuild c _) eqn:E; [|reflexivity].
      apply hasPendingBuild_In in E. contradiction. }
    split; [exact Hp|].
    destruct (removeFromQueue_cases now' c (snd (removeFromQueue now c this)))
      as [[_ E] | (front & x & back & Hq & _ & Hx & _ & _)]; [exact E|].
    exfalso. apply Habs. unfold queueIds. rewrite Hq, map_app. simpl.
    apply in_or_app. right. left. exact Hx. }
  destruct (removeFromQueue_cases now c this)
    as [[Hall E] | (front & x & back & Hq & Hfront & Hx & Ht & Hr)].
  - rewrite E in *. simpl.
    split; [symmetry; apply hasPendingBuild_false; exact Hall|].
    split; [apply subseq_refl|]. split; [reflexivity|]. split; [reflexivity|].
    split; [discriminate|]. auto.
  - rewrite Ht. split.
    { symmetry. apply hasPendingBuild_In. unfold queueIds.
      rewrite Hq, map_app. simpl. apply in_or_app. right. left. exact Hx. }
    split; [apply removeFromQueue_subseq|]. split; [exact Fa|]. split; [exact Fs|].
    split.
    { intros _. split; [|split].
      - rewrite Hr, Hq, !length_app. simpl. lia.
      - clear Hr. unfold removeFromQueue, findIndex in *. cbv zeta in *.
        destruct (_ >=? 0); [|discriminate].
        unfold persisted. fields. reflexivity.
      - exists front, x, back. auto. }
    split; [discriminate|]. auto.
Qed.

Lemma X6_remove_from_queue_witness :
  NoDup (queueIds callbackBacklog)
  /\ fst (removeFromQueue 9 (IdNum 2) callbackBacklog) = true
  /\ removeFromQueue 10 (IdNum 2) (snd (removeFromQueue 9 (IdNum 2) callbackBacklog))
     = (false, snd (removeFromQueue 9 (IdNum 2) callbackBacklog)).
Proof.
  assert (H : NoDup (queueIds callbackBacklog)).
  { vm_compute. repeat constructor; simpl; intuition discriminate. }
  split; [exact H|]. split; [vm_compute; reflexivity|].
  destruct (X6_remove_from_queue 9 10 (IdNum 2) callbackBacklog)
    as (_ & _ & _ & _ & _ & _ & _ & Hlast).
  apply (Hlast H).
Defined.

(** X7. The position [addToQueue] reports, on a queue in two buckets that
    lists no identity twice. Started at once: 0, and the identity has no
    request waiting. Queued: the 1-based place of the new request, which for
    an ordinary identity is the length of the queue (last of all) and for a
    priority identity is the number of priority requests (last of them,
    ahead of every ordinary request); the counts are taken after an older
    request of the same identity has been withdrawn. *)
Theorem X7_reported_position :
  forall now c d t u this,
    NoDup (queueIds this) ->
    twoBuckets (queue this) ->
    let r := addToQueue now c d t u this in
    let q0 := queue (snd (removeFromQueue now c this)) in
    (immediate (fst r) = true ->
     position (fst r) = 0 /\ hasPendingBuild c (snd r) = false)
    /\ (immediate (fst r) = false ->
        position (fst r) = getUserPosition c (snd r)
        /\ position (fst r)
           = (if isAdmin c this
              then Z.of_nat (List.length (priorityBucket q0)) + 1
              else Z.of_nat (List.length q0) + 1)
        /\ (isAdmin c this = true ->
            position (fst r)
            = Z.of_nat (List.length (priorityBucket (queue (snd r)))))
        /\ (isAdmin c this = false ->
            position (fst r) = Z.of_nat (List.length (queue (snd r))))).
Proof.
  intros now c d t u this Hnd Htb r q0.
  pose proof (removeFromQueue_absent now c this Hnd) as Habs.
  assert (Hq0 : twoBuckets q0).
  { eapply twoBuckets_subseq; [apply removeFromQueue_subseq | exact Htb]. }
  assert (Hnone : Forall (fun item => QueueItem.chatId item <> c) q0).
  { apply Forall_forall. intros item Hin E. apply Habs. unfold queueIds.
    apply in_map_iff. exists item. auto. }
  split.
  - intros Himm.
    destruct (isBusy this) eqn:B;
      [|destruct (JsMap.has c (activeBuilds this)) eqn:Hh].
    + destruct (addToQueue_queued now c d t u this (or_introl B)) as (Hi & _).
      fold r in Hi. congruence.
    + destruct (addToQueue_queued now c d t u this (or_intror Hh)) as (Hi & _).
      fold r in Hi. congruence.
    + destruct (addToQueue_immediate now c d t u this B Hh) as (_ & Hp & Hq & _).
      fold r in Hp, Hq. split; [exact Hp|].
      apply hasPendingBuild_false. rewrite Hq. exact Hnone.
  - intros Himm. apply immediate_false_why in Himm.
    destruct (addToQueue_queued now c d t u this Himm) as (_ & Hq & Hp & _).
    fold r in Hq, Hp. fold q0 in Hq.
    set (item := newItem now c d t u this) in *.
    destruct (enqueue_place item q0) as [Hprio Hnorm].
    destruct (enqueue_buckets item q0 Hq0) as (_ & Hpb & _).
    change (QueueItem.priority item) with (isAdmin c this) in *.
    split; [exact Hp|]. rewrite Hp.
    destruct (isAdmin c this) eqn:Ha.
    + destruct (Hprio eq_refl) as (front & back & E0 & Hfront & Hback & E).
      assert (Hnormal : Forall isNormal back).
      { apply twoBuckets_bucketsOk in Hq0. rewrite E0 in Hq0.
        apply bucketsOk_suffix in Hq0.
        destruct Hback as [-> | (y & back' & -> & Hy)]; [constructor|].
        simpl in Hq0. constructor; [assumption | apply Hq0; assumption]. }
      assert (Hpq : priorityBucket q0 = front).
      { rewrite E0, priorityBucket_app.
        destruct (prio_buckets front Hfront) as [-> _].
        destruct (normal_buckets back Hnormal) as [-> _]. apply app_nil_r. }
      assert (Hpos : getUserPosition c (snd r) = Z.of_nat (List.length front) + 1).
      { apply (getUserPosition_split c (snd r) front item back).
        - rewrite Hq. exact E.
        - rewrite E0 in Hnone. apply Forall_app in Hnone. apply Hnone.
        - reflexivity. }
      rewrite Hpos, Hpq. split; [reflexivity|]. split; [|discriminate].
      intros _. rewrite Hq, Hpb, Hpq, length_app. simpl. lia.
    + assert (Hpos : getUserPosition c (snd r) = Z.of_nat (List.length q0) + 1).
      { apply (getUserPosition_split c (snd r) q0 item []).
        - rewrite Hq. apply Hnorm. reflexivity.
        - exact Hnone.
        - reflexivity. }
      rewrite Hpos. split; [reflexivity|]. split; [discriminate|].
      intros _. rewrite Hq, (Hnorm eq_refl), length_app. simpl. lia.
Qed.

Lemma X7_reported_position_witness :
  NoDup (queueIds scenarioBusy)
  /\ twoBuckets (queue scenarioBusy)
  /\ position (fst (addToQueue 101 (IdNum 2) None TypeUrl "B" scenarioBusy)) = 1.
Proof.
  assert (H1 : NoDup (queueIds scenarioBusy)) by (vm_compute; constructor).
  assert (H2 : twoBuckets (queue scenarioBusy)) by (vm_compute; reflexivity).
  split; [exact H1|]. split; [exact H2|].
  destruct (X7_reported_position 101 (IdNum 2) None TypeUrl "B"%string
              scenarioBusy H1 H2) as (_ & Hq).
  destruct Hq as (_ & Hp & _); [vm_compute; reflexivity|].
  rewrite Hp. vm_compute. reflexivity.
Defined.

(* ------------------------------------------------------------------ *)
(** ** Estimates *)

Lemma Math_ceil_le (x y : Q) : (x <= y)%Q -> Math_ceil x <= Math_ceil y.
Proof. apply Qceiling_resp_le. Qed.

Lemma averageMinutes_nonneg this :
  0 <= totalTime (stats this) ->
  0 <= (if success (stats this) >? 0
        then Math_round (inject_Z (totalTime (stats this))
                         / inject_Z (success (stats this)) / 1000 / 60)%Q
        else 3).
Proof.
  intros Ht. destruct (success (stats this) >? 0) eqn:E; [|lia].
  rewrite Math_round_quotient by lia.
  apply Z.div_pos; lia.
Qed.

(** X8. With at least one slot configured and a cumulative time that is
    not negative, the estimate never gets shorter further back in the
    queue; it is the minimum, one minute, for every position that the free
    slots cover. *)
Theorem X8_estimate_monotone :
  forall (p p' : Z) (this : BuildQueue),
    1 <= maxConcurrent this ->
    0 <= totalTime (stats this) ->
    (p <= p' -> getEstimatedWait p this <= getEstimatedWait p' this)
    /\ (p <= maxConcurrent this - JsMap.size (activeBuilds this) ->
        getEstimatedWait p this = 1).
Proof.
  intros p p' this Hmax Ht.
  pose proof (averageMinutes_nonneg this Ht) as Havg.
  unfold getEstimatedWait. cbv zeta.
  set (avg := if success (stats this) >? 0 then _ else 3) in *.
  set (free := maxConcurrent this - JsMap.size (activeBuilds this)).
  split.
  - intros Hp. apply Z.max_le_compat_l.
    rewrite <- !inject_Z_mult. rewrite !Math_ceil_quotient by lia.
    apply Z.div_le_mono; [lia|]. nia.
  - intros Hp. replace (Z.max 0 (p - free)) with 0 by lia.
    rewrite <- inject_Z_mult. rewrite Math_ceil_quotient by lia.
    rewrite Z.mul_0_l.
    replace ((0 + maxConcurrent this - 1) / maxConcurrent this) with 0; [reflexivity|].
    symmetry. apply Z.div_small. lia.
Qed.

Lemma X8_estimate_monotone_witness :
  1 <= maxConcurrent estimateExample
  /\ 0 <= totalTime (stats estimateExample)
  /\ getEstimatedWait 2 estimateExample <= getEstimatedWait 5 estimateExample.
Proof.
  assert (H1 : 1 <= maxConcurrent estimateExample) by (vm_compute; discriminate).
  assert (H2 : 0 <= totalTime (stats estimateExample)) by (vm_compute; discriminate).
  split; [exact H1|]. split; [exact H2|].
  apply (proj1 (X8_estimate_monotone 2 5 estimateExample H1 H2)). lia.
Defined.

(** X9. The average that [getStats] reports, in seconds: 0 while there is
    no success, otherwise the cumulative time divided by the successes and
    by 1000, rounded to the nearest integer, so that it is within half a
    second of the true average; the three counters are reported as they
    are. *)
Theorem X9_reported_average :
  forall (this : BuildQueue),
    let st := stats this in
    let avg := totalTime (getStats this) in
    success (getStats this) = success st
    /\ failed (getStats this) = failed st
    /\ total (getStats this) = total st
    /\ (success st <= 0 -> avg = 0)
    /\ (0 < success st ->
        avg = (2 * totalTime st + 1000 * success st) / (2000 * success st)
        /\ 2 * totalTime st - 1000 * success st < 2000 * success st * avg
           <= 2 * totalTime st + 1000 * success st).
Proof.
  intros this st avg. subst avg. unfold getStats. cbv zeta. fold st.
  cbn [success failed total totalTime].
  split; [reflexivity|]. split; [reflexivity|]. split; [reflexivity|]. split.
  - intros H. replace (success st >? 0) with false by lia. reflexivity.
  - intros H. replace (success st >? 0) with true by lia.
    assert (E : Math_round (inject_Z (totalTime st) / inject_Z (success st) / 1000)%Q
                = (2 * totalTime st + 1000 * success st) / (2000 * success st)).
    { unfold Math_round. rewrite Zdiv_Qdiv. apply Qfloor_comp.
      rewrite !inject_Z_plus, !inject_Z_mult. field.
      apply inject_Z_nonzero. lia. }
    rewrite E. split; [reflexivity|].
    pose proof (Z.div_mod (2 * totalTime st + 1000 * success st)
                  (2000 * success st) ltac:(lia)) as Hd.
    pose proof (Z.mod_pos_bound (2 * totalTime st + 1000 * success st)
                  (2000 * success st) ltac:(lia)) as Hm.
    lia.
Qed.

(* ------------------------------------------------------------------ *)
(** ** Heartbeats and sweeps *)

(** A record after a heartbeat at [now]. *)
Definition touched (now : Z) (b : BuildInfo.t) : BuildInfo.t :=
  BuildInfo.mk (BuildInfo.startTime b) now (BuildInfo.buildData b)
    (BuildInfo.type b) (BuildInfo.userName b).

(** Does [updateActivity(chatId)] address one running build? *)
Definition addressesOne (chatId : option ChatId) (this : BuildQueue) : bool :=
  match chatId with
  | Some c => truthy c && JsMap.has c (activeBuilds this)
  | None => false
  end.

Lemma get_map_entries {V} (f : ChatId -> V -> V) k (m : JsMap.t V) :
  JsMap.get k (List.map (fun kv => (fst kv, f (fst kv) (snd kv))) m)
  = option_map (f k) (JsMap.get k m).
Proof.
  induction m as [|[k0 v0] m IH]; simpl; [reflexivity|].
  destruct (chatId_eqb k0 k) eqn:E; [|exact IH].
  apply chatId_eqb_eq in E. subst k0. reflexivity.
Qed.

Lemma updateActivity_active now c this :
  activeBuilds (updateActivity now c this)
  = List.map (fun kv =>
                (fst kv,
                 (if addressesOne c this
                  then (fun k b => match c with
                                   | Some id => if chatId_eqb k id
                                                then touched now b else b
                                   | None => b
                                   end)
                  else (fun _ b => touched now b)) (fst kv) (snd kv)))
      (activeBuilds this).
Proof.
  unfold updateActivity, addressesOne, touched. cbv zeta.
  destruct c as [c|]; [destruct (truthy c && JsMap.has c (activeBuilds this))|];
    fields; apply map_ext; intros [k b]; simpl; try reflexivity.
  destruct (chatId_eqb k c); reflexivity.
Qed.

(** X10. A heartbeat changes nothing but last-activity stamps: queue,
    statistics, file and console are as before, the registry lists the same
    identities in the same order, and every build keeps its start time and
    payload. Addressed to an identity that is building (and is not 0 or the
    empty string) it stamps that build alone; in every other case, no
    identity, a falsy one, or one that is not building, it stamps every
    running build. *)
Theorem X10_heartbeat :
  forall (now : Z) (c : option ChatId) (this : BuildQueue),
    let r := updateActivity now c this in
    activeIds r = activeIds this
    /\ queue r = queue this /\ stats r = stats this
    /\ queueFile r = queueFile this /\ trace r = trace this
    /\ (forall k b, JsMap.get k (activeBuilds r) = Some b ->
          exists b0, JsMap.get k (activeBuilds this) = Some b0
                     /\ (b = b0 \/ b = touched now b0))
    /\ (addressesOne c this = false ->
        forall k, JsMap.get k (activeBuilds r)
                  = option_map (touched now) (JsMap.get k (activeBuilds this)))
    /\ (forall id, c = Some id -> addressesOne c this = true ->
          JsMap.get id (activeBuilds r)
          = option_map (touched now) (JsMap.get id (activeBuilds this))
          /\ forall k, k <> id ->
               JsMap.get k (activeBuilds r) = JsMap.get k (activeBuilds this)).
Proof.
  intros now c this r. subst r.
  destruct (updateActivity_fields now c this) as (Fq & Fs & Ff & _ & Ft).
  split; [apply updateActivity_keys|].
  split; [exact Fq|]. split; [exact Fs|]. split; [exact Ff|]. split; [exact Ft|].
  rewrite updateActivity_active.
  split; [|split].
  - intros k b. rewrite get_map_entries.
    destruct (JsMap.get k (activeBuilds this)) as [b0|]; [|discriminate].
    simpl. intros E. inversion E. exists b0. split; [reflexivity|].
    destruct (addressesOne c this); [|auto].
    destruct c as [id|]; [|auto]. destruct (chatId_eqb k id); auto.
  - intros Hno k. rewrite Hno.
    apply (get_map_entries (fun _ b => touched now b)).
  - intros id -> Hyes. rewrite Hyes. split.
    + rewrite (get_map_entries
                 (fun k b => if chatId_eqb k id then touched now b else b)).
      rewrite chatId_eqb_refl. reflexivity.
    + intros k Hk.
      rewrite (get_map_entries
                 (fun k b => if chatId_eqb k id then touched now b else b)).
      apply chatId_eqb_neq in Hk. rewrite Hk.
      destruct (JsMap.get k (activeBuilds this)); reflexivity.
Qed.

(** A scan that finds nothing stuck changes nothing. *)
Lemma scanStuck_none now entries toRelease this :
  Forall (fun kv => isStuck now (snd kv) = false) entries ->
  scanStuck now entries toRelease this = (toRelease, this).
Proof.
  induction 1 as [|[c b] l Hb _ IH]; simpl; [reflexivity|].
  unfold isStuck in Hb. simpl in Hb.
  destruct (stuckReason now b); [discriminate | exact IH].
Qed.

Lemma checkStuckBuilds_none now this :
  Forall (fun kv => isStuck now (snd kv) = false) (activeBuilds this) ->
  checkStuckBuilds now this = this.
Proof.
  intros H. unfold checkStuckBuilds. destruct (_ =? 0); [reflexivity|].
  rewrite (scanStuck_none now _ [] this H). reflexivity.
Qed.

(** What a sweep leaves in the registry. *)
Lemma checkStuckBuilds_registry now this :
  NoDup (activeIds this) ->
  (forall kv, In kv (activeBuilds this) -> isStuck now (snd kv) = false ->
              In kv (activeBuilds (checkStuckBuilds now this)))
  /\ (forall kv, In kv (activeBuilds (checkStuckBuilds now this)) ->
        (In kv (activeBuilds this) /\ isStuck now (snd kv) = false)
        \/ (BuildInfo.startTime (snd kv) = now
            /\ BuildInfo.lastActivity (snd kv) = now)).
Proof.
  intros Hnd.
  destruct (scanStuck now (activeBuilds this) [] this) as [toRelease scanned] eqn:E.
  pose proof (scanStuck_fields now (activeBuilds this) [] this) as F.
  rewrite E in F. simpl in F. destruct F as (_ & Fa & _).
  pose proof (scanStuck_toRelease now (activeBuilds this) [] this) as Hids.
  rewrite E in Hids. simpl in Hids.
  assert (Hr : checkStuckBuilds now this = releaseAll now toRelease scanned).
  { unfold checkStuckBuilds. rewrite E.
    destruct (JsMap.size (activeBuilds this) =? 0) eqn:Z0; [|reflexivity].
    destruct (activeBuilds this); [|unfold JsMap.size in Z0; simpl in Z0; lia].
    simpl in E. inversion E. reflexivity. }
  assert (Hnd' : NoDup (List.map fst toRelease)).
  { rewrite Hids. eapply subseq_NoDup; [|exact Hnd].
    apply subseq_map, subseq_filter. }
  assert (Hact : forall c, In c (List.map fst toRelease) ->
                           JsMap.has c (activeBuilds scanned) = true).
  { intros c Hc. rewrite Hids in Hc. rewrite Fa. apply has_In_keys.
    apply in_map_iff in Hc. destruct Hc as (kv & Ek & Hk).
    apply filter_In in Hk. apply in_map_iff. exists kv. tauto. }
  destruct (releaseAll_effect now toRelease scanned Hnd' Hact)
    as (_ & _ & _ & _ & _ & _ & R7 & R8).
  rewrite Hr, Fa in *. split.
  - intros [c b] Hin Hok. apply (R7 (c, b) Hin). rewrite Hids. simpl.
    intros Hc. apply in_map_iff in Hc. destruct Hc as ([c' b'] & Ec & Hc).
    simpl in Ec. subst c'. apply filter_In in Hc. destruct Hc as [Hc Hst].
    simpl in Hst, Hok.
    assert (b' = b); [|congruence].
    unfold activeIds, JsMap.keys in Hnd.
    clear - Hnd Hin Hc. induction (activeBuilds this) as [|[k v] m IH].
    + contradiction.
    + simpl in Hnd. inversion Hnd as [|x l Hk Hm]; subst.
      destruct Hin as [Hin | Hin], Hc as [Hc | Hc].
      * congruence.
      * inversion Hin; subst. exfalso. apply Hk. apply in_map_iff.
        exists (c, b'). auto.
      * inversion Hc; subst. exfalso. apply Hk. apply in_map_iff.
        exists (c, b). auto.
      * auto.
  - intros kv Hin. destruct (R8 kv Hin) as [[H1 H2] | H]; [left | right; exact H].
    split; [exact H1|]. destruct (isStuck now (snd kv)) eqn:Hst; [|reflexivity].
    exfalso. apply H2. rewrite Hids. apply in_map_iff. exists kv.
    split; [reflexivity|]. apply filter_In. auto.
Qed.

Lemma fresh_not_stuck now b :
  BuildInfo.startTime b = now -> BuildInfo.lastActivity b = now ->
  isStuck now b = false.
Proof.
  intros H1 H2. unfold isStuck, stuckReason. cbv zeta. rewrite H1, H2.
  destruct (now =? 0); rewrite Z.sub_diag; reflexivity.
Qed.

(** X11. A sweep is idempotent at a given time: on a registry that lists
    each identity once, sweeping again at the same clock reading right after
    a sweep releases nothing and changes nothing, whatever the first sweep
    released and whatever it promoted from the queue. *)
Theorem X11_sweep_idempotent :
  forall (now : Z) (this : BuildQueue),
    NoDup (activeIds this) ->
    checkStuckBuilds now (checkStuckBuilds now this) = checkStuckBuilds now this.
Proof.
  intros now this Hnd. apply checkStuckBuilds_none.
  destruct (checkStuckBuilds_registry now this Hnd) as [_ H].
  apply Forall_forall. intros kv Hin.
  destruct (H kv Hin) as [[_ Hok] | [T1 T2]]; [exact Hok|].
  apply fresh_not_stuck; assumption.
Qed.

Lemma X11_sweep_idempotent_witness :
  NoDup (activeIds sweepExample)
  /\ checkStuckBuilds 3000000 (checkStuckBuilds 3000000 sweepExample)
     = checkStuckBuilds 3000000 sweepExample.
Proof.
  assert (H : NoDup (activeIds sweepExample)).
  { vm_compute. repeat constructor; simpl; intuition discriminate. }
  split; [exact H|]. apply (X11_sweep_idempotent 3000000 sweepExample H).
Defined.

Lemma unique_record {V} k (b b' : V) (m : JsMap.t V) :
  NoDup (JsMap.keys m) -> In (k, b) m -> In (k, b') m -> b = b'.
Proof.
  unfold JsMap.keys. induction m as [|[k0 v0] m IH]; intros Hnd H1 H2.
  - contradiction.
  - simpl in Hnd. inversion Hnd as [|x l Hk Hm]; subst.
    destruct H1 as [H1 | H1], H2 as [H2 | H2].
    + congruence.
    + inversion H1; subst. exfalso. apply Hk. apply in_map_iff.
      exists (k, b'). auto.
    + inversion H2; subst. exfalso. apply Hk. apply in_map_iff.
      exists (k, b). auto.
    + auto.
Qed.

Lemma heartbeat_all_entries now this k b' :
  In (k, b') (activeBuilds (updateActivity now None this)) ->
  exists b, In (k, b) (activeBuilds this) /\ b' = touched now b.
Proof.
  unfold updateActivity. cbv zeta. fields. intros H.
  apply in_map_iff in H. destruct H as ([k0 b0] & E & Hin).
  simpl in E. inversion E; subst. exists b0. auto.
Qed.

(** X12. Heartbeats hold off the inactivity budget and nothing else. After
    a heartbeat for all builds at a clock reading [now] other than 0, a
    sweep no later than ten minutes after it releases nothing and changes
    nothing, provided no build is over the 45 minutes of runtime; but a
    build that is over them is dropped by the sweep all the same: the
    heartbeat does not move its start time. *)
Theorem X12_heartbeat_and_budgets :
  forall (now now' : Z) (this : BuildQueue),
    now <> 0 ->
    NoDup (activeIds this) ->
    let beaten := updateActivity now None this in
    (now' - now <= INACTIVITY_TIMEOUT ->
     (forall kv, In kv (activeBuilds this) ->
                 now' - BuildInfo.startTime (snd kv) <= MAX_BUILD_TIME) ->
     checkStuckBuilds now' beaten = beaten)
    /\ (forall k b,
          In (k, b) (activeBuilds this) ->
          MAX_BUILD_TIME < now' - BuildInfo.startTime b ->
          forall b', In (k, b') (activeBuilds (checkStuckBuilds now' beaten)) ->
                     BuildInfo.startTime b' = now'
                     /\ BuildInfo.startTime b' <> BuildInfo.startTime b).
Proof.
  intros now now' this Hnow Hnd beaten.
  assert (Hndb : NoDup (activeIds beaten)).
  { subst beaten. rewrite updateActivity_keys. exact Hnd. }
  split.
  - intros Hidle Hrun. apply checkStuckBuilds_none.
    apply Forall_forall. intros [k b'] Hin.
    destruct (heartbeat_all_entries now this k b' Hin) as (b & Hb & ->).
    specialize (Hrun (k, b) Hb). simpl in *.
    unfold isStuck, stuckReason, touched. cbv zeta. simpl.
    apply Z.eqb_neq in Hnow. rewrite Hnow.
    replace (now' - BuildInfo.startTime b >? MAX_BUILD_TIME) with false by lia.
    replace (now' - now >? INACTIVITY_TIMEOUT) with false by lia.
    reflexivity.
  - intros k b Hb Hover b' Hin.
    destruct (checkStuckBuilds_registry now' beaten Hndb) as [_ H].
    destruct (H (k, b') Hin) as [[H1 H2] | [T1 _]].
    + exfalso. simpl in H2.
      destruct (heartbeat_all_entries now this k b' H1) as (b0 & Hb0 & ->).
      assert (b0 = b) by (apply (unique_record k b0 b (activeBuilds this) Hnd Hb0 Hb)).
      subst b0.
      unfold isStuck, stuckReason, touched in H2. cbv zeta in H2. simpl in H2.
      replace (now' - BuildInfo.startTime b >? MAX_BUILD_TIME) with true in H2
        by lia.
      discriminate.
    + simpl in T1. split; [exact T1|]. unfold MAX_BUILD_TIME in Hover. lia.
Qed.

Lemma X12_heartbeat_and_budgets_witness :
  2600000 <> 0
  /\ NoDup (activeIds sweepExample)
  /\ checkStuckBuilds 2700000 (updateActivity 2600000 None sweepExample)
     = updateActivity 2600000 None sweepExample.
Proof.
  assert (H1 : 2600000 <> 0) by discriminate.
  assert (H2 : NoDup (activeIds sweepExample)).
  { vm_compute. repeat constructor; simpl; intuition discriminate. }
  split; [exact H1|]. split; [exact H2|].
  apply (proj1 (X12_heartbeat_and_budgets 2600000 2700000 sweepExample H1 H2)).
  - vm_compute. discriminate.
  - intros kv Hin. vm_compute in Hin.
    destruct Hin as [<- | [<- | []]]; vm_compute; discriminate.
Defined.

(* ------------------------------------------------------------------ *)
(** ** Serving the queue in order *)

(** The identities for which the start callback was invoked, in order. *)
Definition startedIds (tr : list Event) : list ChatId :=
  flat_map (fun e => match e with
                     | CallBuildStart c _ _ _ => [c]
                     | _ => []
                     end) tr.

(** The executor finishing the build that holds the first slot, at the
    given clock reading. *)
Definition finishCurrent (this : BuildQueue) (now : Z) : BuildQueue :=
  match activeBuilds this with
  | (c, _) :: _ => release now c true this
  | [] => this
  end.

Lemma startedIds_app a b : startedIds (a ++ b) = startedIds a ++ startedIds b.
Proof. unfold startedIds. apply flat_map_app. Qed.

Lemma notify_startedIds this :
  startedIds (trace (notifyQueueUpdates this)) = startedIds (trace this).
Proof.
  unfold notifyQueueUpdates. destruct (onQueueUpdate this); [|reflexivity].
  cbn [trace emitAll]. rewrite startedIds_app.
  unfold queueUpdates. destruct (queue this); simpl; apply app_nil_r.
Qed.

(** One release on a single slot with a start callback: the head of the
    queue takes the slot. *)
Lemma release_single_slot now c ok this build nextBuild rest :
  maxConcurrent this = 1 ->
  activeBuilds this = [(c, build)] ->
  queue this = nextBuild :: rest ->
  onBuildStart this = true ->
  let r := release now c ok this in
  activeBuilds r = [(QueueItem.chatId nextBuild, freshBuild now nextBuild)]
  /\ queue r = rest
  /\ maxConcurrent r = 1
  /\ onBuildStart r = true
  /\ startedIds (trace r) = startedIds (trace this) ++ [QueueItem.chatId nextBuild].
Proof.
  intros Hmax Hact Hq Hcb r.
  assert (Hget : JsMap.get c (activeBuilds this) = Some build).
  { rewrite Hact. simpl. rewrite chatId_eqb_refl. reflexivity. }
  assert (Hr : r = processNext now (released now c ok build this))
    by (apply release_active; exact Hget).
  set (mid := released now c ok build this) in *.
  assert (Hma : activeBuilds mid = []).
  { subst mid. rewrite released_active, Hact. unfold JsMap.delete. simpl.
    rewrite chatId_eqb_refl. reflexivity. }
  assert (Hstart : r = emit (CallBuildStart (QueueItem.chatId nextBuild)
                               (QueueItem.buildData nextBuild)
                               (QueueItem.type nextBuild)
                               (QueueItem.userName nextBuild))
                         (promoted now nextBuild rest mid)).
  { rewrite Hr. apply processNext_start.
    - subst mid. rewrite released_queue. exact Hq.
    - unfold isBusy. rewrite Hma. subst mid. rewrite released_max, Hmax.
      reflexivity.
    - rewrite Hma. reflexivity.
    - subst mid. rewrite released_onBuildStart. exact Hcb. }
  rewrite Hstart. fields. rewrite Hma.
  split; [reflexivity|]. split; [reflexivity|].
  split; [subst mid; rewrite released_max; exact Hmax|].
  split; [subst mid; rewrite released_onBuildStart; exact Hcb|].
  rewrite startedIds_app. simpl. f_equal.
  unfold promoted. rewrite notify_startedIds. unfold autoStarting. fields.
  rewrite !startedIds_app. simpl. rewrite !app_nil_r.
  rewrite startedIds_app. simpl. apply app_nil_r.
Qed.

(** X13. Strict first-in first-out service on one slot. With a start
    callback registered and one build running, each time the running build
    is released the head of the queue takes the slot: after [n] releases,
    [n] at most the length of the queue, the start callback has been
    invoked for the first [n] waiting identities, in queue order, the queue
    is what was behind them, and the last of them holds the slot. *)
Theorem X13_first_in_first_out :
  forall (times : list Z) (this : BuildQueue) (c : ChatId) (build : BuildInfo.t),
    maxConcurrent this = 1 ->
    onBuildStart this = true ->
    activeBuilds this = [(c, build)] ->
    (List.length times <= List.length (queue this))%nat ->
    let r := fold_left finishCurrent times this in
    let n := List.length times in
    startedIds (trace r)
    = startedIds (trace this) ++ List.map QueueItem.chatId (firstn n (queue this))
    /\ queue r = skipn n (queue this)
    /\ (times <> [] ->
        activeIds r = [nth (n - 1) (queueIds this) c]).
Proof.
  induction times as [|now times IH]; intros this c build Hmax Hcb Hact Hlen.
  - simpl. rewrite app_nil_r. repeat split; try reflexivity. congruence.
  - simpl in Hlen. destruct (queue this) as [|nb rest] eqn:Hq; [simpl in Hlen; lia|].
    destruct (release_single_slot now c true this build nb rest Hmax Hact Hq Hcb)
      as (Ra & Rq & Rm & Rcb & Rt).
    assert (Hstep : finishCurrent this now = release now c true this).
    { unfold finishCurrent. rewrite Hact. reflexivity. }
    cbn [fold_left List.length]. rewrite Hstep.
    set (this1 := release now c true this) in *.
    assert (Hlen1 : (List.length times <= List.length (queue this1))%nat).
    { rewrite Rq. simpl in Hlen. lia. }
    destruct (IH this1 (QueueItem.chatId nb) (freshBuild now nb) Rm Rcb Ra Hlen1)
      as (I1 & I2 & I3).
    cbv zeta in I1, I2, I3. cbv zeta.
    split; [|split].
    + rewrite I1, Rt, Rq. cbn [firstn List.map]. rewrite <- app_assoc.
      reflexivity.
    + rewrite I2, Rq. reflexivity.
    + intros _. destruct times as [|now2 times].
      * cbn [fold_left List.length]. unfold activeIds. rewrite Ra.
        unfold queueIds. rewrite Hq. reflexivity.
      * rewrite I3 by discriminate. f_equal. unfold queueIds. rewrite Rq, Hq.
        cbn [List.length List.map].
        replace (S (S (List.length times)) - 1)%nat
          with (S (List.length times)) by lia.
        replace (S (List.length times) - 1)%nat with (List.length times) by lia.
        cbn [nth]. apply nth_indep.
        rewrite length_map. rewrite Rq in Hlen1. simpl in Hlen1. lia.
Qed.

Lemma X13_first_in_first_out_witness :
  maxConcurrent callbackBacklog = 1
  /\ onBuildStart callbackBacklog = true
  /\ startedIds (trace (fold_left finishCurrent [10; 20] callbackBacklog))
     = [IdNum 2; IdNum 3].
Proof.
  assert (H1 : maxConcurrent callbackBacklog = 1) by (vm_compute; reflexivity).
  assert (H2 : onBuildStart callbackBacklog = true) by (vm_compute; reflexivity).
  split; [exact H1|]. split; [exact H2|].
  destruct (X13_first_in_first_out [10; 20] callbackBacklog (IdNum 1)
              (BuildInfo.mk 1 1 None TypeUrl "a") H1 H2)
    as (Hs & _).
  - vm_compute. reflexivity.
  - vm_compute. lia.
  - rewrite Hs. vm_compute. reflexivity.
Defined.

(* ------------------------------------------------------------------ *)
(** ** Submitting and releasing *)

(** X15. Round trip on an idle object. When a slot is free, nothing waits
    and the identity is not building, [addToQueue] at [now] followed by
    [release] at [later] leaves the registry and the (empty) queue as they
    were; [total] has grown by one and, according to the outcome, either
    [success] by one and the cumulative time by [later - now], or [failed]
    by one; and the file holds these statistics. *)
Theorem X15_submit_then_release :
  forall now later c d t u ok this,
    isBusy this = false ->
    JsMap.has c (activeBuilds this) = false ->
    queue this = [] ->
    let r := release later c ok (snd (addToQueue now c d t u this)) in
    immediate (fst (addToQueue now c d t u this)) = true
    /\ activeBuilds r = activeBuilds this
    /\ queue r = []
    /\ stats r
       = (if ok
          then mkStats (success (stats this) + 1) (failed (stats this))
                 (total (stats this) + 1) (totalTime (stats this) + (later - now))
          else mkStats (success (stats this)) (failed (stats this) + 1)
                 (total (stats this) + 1) (totalTime (stats this)))
    /\ persisted r = Some (queue r, stats r).
Proof.
  intros now later c d t u ok this Hbusy Hhas Hq r.
  destruct (addToQueue_immediate now c d t u this Hbusy Hhas)
    as (Hi & _ & Aq & Aa & As & _).
  set (this1 := snd (addToQueue now c d t u this)) in *.
  assert (Hq1 : queue this1 = []).
  { rewrite Aq. destruct (removeFromQueue_cases now c this)
      as [[_ ->] | (front & x & back & E & _)]; [exact Hq|].
    rewrite Hq in E. destruct front; discriminate. }
  assert (Hget : JsMap.get c (activeBuilds this1) = Some (BuildInfo.mk now now d t u)).
  { rewrite Aa. apply get_app_fresh. exact Hhas. }
  assert (Hr : r = processNext later
                     (released later c ok (BuildInfo.mk now now d t u) this1))
    by (apply release_active; exact Hget).
  rewrite processNext_empty in Hr by (rewrite released_queue; exact Hq1).
  split; [exact Hi|]. rewrite Hr. unfold persisted. fields.
  rewrite Aa, delete_app_fresh by assumption. rewrite Hq1, As.
  unfold released. cbv zeta. fields. rewrite As. cbn [BuildInfo.startTime].
  rewrite ?Hq1.
  destruct ok; cbn [success failed total totalTime]; auto.
Qed.

Lemma X15_submit_then_release_witness :
  isBusy freshObject = false
  /\ stats (release 90 (IdNum 7) true
              (snd (addToQueue 30 (IdNum 7) None TypeUrl "u" freshObject)))
     = mkStats 1 0 1 60.
Proof.
  assert (H : isBusy freshObject = false) by (vm_compute; reflexivity).
  split; [exact H|].
  assert (H2 : JsMap.has (IdNum 7) (activeBuilds freshObject) = false)
    by (vm_compute; reflexivity).
  assert (H3 : queue freshObject = []) by (vm_compute; reflexivity).
  destruct (X15_submit_then_release 30 90 (IdNum 7) None TypeUrl "u"%string true
              freshObject H H2 H3)
    as (_ & _ & _ & Hs & _).
  rewrite Hs. vm_compute. reflexivity.
Defined.

(* ------------------------------------------------------------------ *)
(** ** Free slots and waiting requests *)

(** X16. One call of [processNext] starts at most one request, however
    many slots are free. With a start callback registered, a free slot and
    a head that is not building, it starts exactly the head and leaves the
    rest waiting, also when more slots are free: the registry then has one
    more build and, if two slots were free, is still not busy. *)
Theorem X16_one_start_per_call :
  forall (now : Z) (this : BuildQueue),
    let r := processNext now this in
    (List.length (activeBuilds r) <= S (List.length (activeBuilds this)))%nat
    /\ ((List.length (queue this) <= S (List.length (queue r)))%nat
        \/ onBuildStart this = false)
    /\ (forall nextBuild rest,
          queue this = nextBuild :: rest ->
          onBuildStart this = true ->
          isBusy this = false ->
          JsMap.has (QueueItem.chatId nextBuild) (activeBuilds this) = false ->
          queue r = rest
          /\ activeBuilds r
             = activeBuilds this
               ++ [(QueueItem.chatId nextBuild, freshBuild now nextBuild)]
          /\ (JsMap.size (activeBuilds this) + 2 <= maxConcurrent this ->
              isBusy r = false)).
Proof.
  intros now this r. split; [|split].
  - destruct (processNext_active now this) as (added & E & Hlen & _).
    subst r. rewrite E, length_app. lia.
  - destruct (onBuildStart this) eqn:Hcb; [left | right; reflexivity].
    subst r. destruct (queue this) as [|nb rest] eqn:Hq.
    { rewrite processNext_empty by assumption. fields. rewrite Hq. simpl. lia. }
    destruct (isBusy this) eqn:B.
    { rewrite processNext_busy by congruence. fields. rewrite ?Hq. simpl. lia. }
    destruct (JsMap.has (QueueItem.chatId nb) (activeBuilds this)) eqn:Hh.
    + rewrite (processNext_pushback now this nb rest) by assumption.
      unfold autoStarting. fields. rewrite ?Hq. simpl. lia.
    + rewrite (processNext_start now this nb rest) by assumption.
      fields. rewrite ?Hq. simpl. lia.
  - intros nb rest Hq Hcb B Hh. subst r.
    rewrite (processNext_start now this nb rest) by assumption.
    fields. split; [reflexivity|]. split; [reflexivity|].
    intros Hfree. unfold isBusy. fields. rewrite size_app1. lia.
Qed.

(** X17. [addToQueue] looks at the registry only, never at the queue: a
    request whose identity is not building is started at once whenever a
    slot is free, also while other requests wait, which then stay where
    they are. And the constructor starts nothing: a process restarted on a
    saved queue has that queue and an empty registry, so that the first new
    request overtakes every request loaded from the file. *)
Theorem X17_new_request_overtakes :
  (forall now c d t u this,
     isBusy this = false ->
     JsMap.has c (activeBuilds this) = false ->
     hasPendingBuild c this = false ->
     let r := addToQueue now c d t u this in
     immediate (fst r) = true
     /\ queue (snd r) = queue this
     /\ JsMap.get c (activeBuilds (snd r)) = Some (BuildInfo.mk now now d t u))
  /\ (forall parsed admins q st saved now c d t u,
        let this :=
          constructor parsed admins
            (FileDoc (mkDocument (Some q) (Some st) saved)) in
        ~ In c (List.map QueueItem.chatId q) ->
        let r := addToQueue now c d t u this in
        queue this = q
        /\ activeBuilds this = []
        /\ immediate (fst r) = true
        /\ queue (snd r) = q
        /\ activeIds (snd r) = [c]).
Proof.
  assert (Hfirst : forall now c d t u this,
     isBusy this = false ->
     JsMap.has c (activeBuilds this) = false ->
     hasPendingBuild c this = false ->
     let r := addToQueue now c d t u this in
     immediate (fst r) = true
     /\ queue (snd r) = queue this
     /\ activeBuilds (snd r) = activeBuilds this ++ [(c, BuildInfo.mk now now d t u)]).
  { intros now c d t u this B Hh Hp r.
    destruct (addToQueue_immediate now c d t u this B Hh) as (Hi & _ & Hq & Ha & _).
    split; [exact Hi|]. split; [|exact Ha]. fold r in Hq. rewrite Hq.
    destruct (removeFromQueue_cases now c this)
      as [[_ ->] | (front & x & back & E & _ & Hx & _)]; [reflexivity|].
    exfalso. apply hasPendingBuild_false in Hp. rewrite E in Hp.
    apply Forall_app in Hp. destruct Hp as [_ Hp]. inversion Hp; subst.
    contradiction. }
  split.
  - intros now c d t u this B Hh Hp r.
    destruct (Hfirst now c d t u this B Hh Hp) as (H1 & H2 & H3).
    split; [exact H1|]. split; [exact H2|].
    fold r in H3. rewrite H3. apply get_app_fresh. exact Hh.
  - intros parsed admins q st saved now c d t u this Hc r.
    assert (Hq : queue this = q) by reflexivity.
    destruct (constructor_fields parsed admins
                (FileDoc (mkDocument (Some q) (Some st) saved)))
      as (Hm & Ha & _).
    fold this in Hm, Ha.
    assert (B : isBusy this = false).
    { unfold isBusy. rewrite Ha, Hm.
      pose proof (configuredMax_range parsed). unfold JsMap.size. simpl. lia. }
    assert (Hh : JsMap.has c (activeBuilds this) = false) by (rewrite Ha; reflexivity).
    assert (Hp : hasPendingBuild c this = false).
    { destruct (hasPendingBuild c this) eqn:E; [|reflexivity].
      apply hasPendingBuild_In in E. unfold queueIds in E. rewrite Hq in E.
      contradiction. }
    destruct (Hfirst now c d t u this B Hh Hp) as (H1 & H2 & H3).
    fold r in H1, H2, H3.
    split; [exact Hq|]. split; [exact Ha|]. split; [exact H1|].
    split; [rewrite H2; exact Hq|].
    unfold activeIds. rewrite H3, Ha. reflexivity.
Qed.

Lemma X17_new_request_overtakes_witness :
  isBusy (restart None [] callbackBacklog) = false
  /\ queueIds (restart None [] callbackBacklog) = [IdNum 2; IdNum 3]
  /\ immediate (fst (addToQueue 50 (IdNum 8) None TypeUrl "late"
                       (restart None [] callbackBacklog))) = true.
Proof.
  assert (H1 : isBusy (restart None [] callbackBacklog) = false)
    by (vm_compute; reflexivity).
  split; [exact H1|]. split; [vm_compute; reflexivity|].
  destruct X17_new_request_overtakes as [H _].
  apply (H 50 (IdNum 8) None TypeUrl "late"%string _ H1);
    vm_compute; reflexivity.
Defined.

(* ------------------------------------------------------------------ *)
(** ** The web routes ([server.js]) *)

(** The identity a web build reserves its slot under:
    ['web-' + Date.now()]. *)
Definition webIdentity (now : Z) : ChatId := IdStr ("web-" ++ string_of_Z now).

(** What [POST /api/build] does with the queue: at [now] it reserves a slot
    with the defaults of [acquire] ([null], ['url'], ['User']) and answers
    503 when refused; otherwise it builds and, whatever the outcome, ends at
    [finished] with [buildQueue.release()]: the identity is left out, so
    [chatId] is [undefined] and [success] is its default [true]. The result
    tells whether the build ran. *)
Definition webBuildRoute (now finished : Z) (this : BuildQueue)
  : bool * BuildQueue :=
  let '(acquired, this) :=
    acquire now (webIdentity now) None TypeUrl "User" this in
  if negb acquired then (false, this)
  else (true, release finished IdUndefined true this).

(** [release] for one identity leaves the builds of the others. *)
Lemma release_keeps_others now c ok this kv :
  In kv (activeBuilds this) -> fst kv <> c ->
  In kv (activeBuilds (release now c ok this)).
Proof.
  intros Hin Hk.
  destruct (release_cases now c ok this) as [[_ ->] | (build & _ & ->)].
  - exact Hin.
  - destruct (processNext_active now (released now c ok build this))
      as (added & -> & _). fields.
    apply in_or_app. left. apply delete_In. auto.
Qed.

Lemma acquire_keeps now c d t u this kv :
  In kv (activeBuilds this) ->
  In kv (activeBuilds (snd (acquire now c d t u this))).
Proof.
  intros Hin. destruct (JsMap.has c (activeBuilds this)) eqn:Hh.
  { rewrite acquire_already by assumption. exact Hin. }
  destruct (isBusy this) eqn:B.
  { rewrite acquire_full by assumption. exact Hin. }
  rewrite acquire_ok by assumption. fields. apply in_or_app. left. exact Hin.
Qed.

Lemma webBuildRoute_keeps now finished this kv :
  In kv (activeBuilds this) -> fst kv <> IdUndefined ->
  In kv (activeBuilds (snd (webBuildRoute now finished this))).
Proof.
  intros Hin Hk. unfold webBuildRoute.
  pose proof (acquire_keeps now (webIdentity now) None TypeUrl "User"%string
                this kv Hin) as H.
  destruct (acquire now (webIdentity now) None TypeUrl "User" this)
    as [[|] this1]; simpl in *; [|exact H].
  apply release_keeps_others; assumption.
Qed.

Lemma release_undefined_absent now ok this :
  JsMap.has IdUndefined (activeBuilds this) = false ->
  release now IdUndefined ok this = emit (LogReleaseNonExistent IdUndefined) this.
Proof.
  intros H. apply release_inactive. unfold JsMap.has in H.
  destruct (JsMap.get IdUndefined (activeBuilds this)); [discriminate | reflexivity].
Qed.

(** X14. A web build does not give its slot back. The closing [release()]
    names no identity: whenever it runs, every build registered under an
    identity stays registered. So when the route has run a build, its entry
    is still in the registry at the end, and it is still there after any
    later web build. When no build is registered under [undefined], the
    closing call only prints its warning: the registry is the one [acquire]
    left, nothing is counted and the queue is as before; a sweep that runs
    next leaves the entry when it comes within ten minutes of the start and
    drops it when it comes later (started at a clock reading other than 0,
    on a registry listing each identity once). With one slot configured the
    queue is busy after the route, and a web build that comes next is
    refused. *)
Theorem X14_web_build_keeps_its_slot :
  forall (now finished : Z) (this : BuildQueue),
    let r := webBuildRoute now finished this in
    let entry := (webIdentity now, BuildInfo.mk now now None TypeUrl "User"%string) in
    fst r = negb (JsMap.has (webIdentity now) (activeBuilds this))
            && negb (isBusy this)
    /\ (forall s kv, In kv (activeBuilds s) -> fst kv <> IdUndefined ->
          In kv (activeBuilds (release finished IdUndefined true s)))
    /\ (fst r = true ->
        In entry (activeBuilds (snd r))
        /\ (forall later finished',
              In entry (activeBuilds (snd (webBuildRoute later finished' (snd r)))))
        /\ (JsMap.has IdUndefined (activeBuilds this) = false ->
            activeBuilds (snd r) = activeBuilds this ++ [entry]
            /\ stats (snd r) = stats this
            /\ queue (snd r) = queue this
            /\ (NoDup (activeIds this) -> now <> 0 ->
                forall later,
                  (later - now <= INACTIVITY_TIMEOUT ->
                   In entry (activeBuilds (checkStuckBuilds later (snd r))))
                  /\ (INACTIVITY_TIMEOUT < later - now ->
                      ~ In entry (activeBuilds (checkStuckBuilds later (snd r))))))
        /\ (maxConcurrent this = 1 ->
            isBusy (snd r) = true
            /\ forall later finished',
                 fst (webBuildRoute later finished' (snd r)) = false)).
Proof.
  intros now finished this r entry. subst r.
  assert (Hkeep : forall s kv, In kv (activeBuilds s) -> fst kv <> IdUndefined ->
            In kv (activeBuilds (release finished IdUndefined true s))).
  { intros s kv Hin Hk. apply release_keeps_others; assumption. }
  unfold webBuildRoute.
  destruct (JsMap.has (webIdentity now) (activeBuilds this)) eqn:Hh.
  { rewrite acquire_already by assumption. simpl.
    split; [reflexivity|]. split; [exact Hkeep | discriminate]. }
  destruct (isBusy this) eqn:B.
  { rewrite acquire_full by assumption. simpl.
    split; [reflexivity|]. split; [exact Hkeep | discriminate]. }
  rewrite acquire_ok by assumption. cbn [negb andb fst snd].
  split; [reflexivity|]. split; [exact Hkeep|]. intros _. fold entry.
  set (held := emit _ (with_activeBuilds _ this)).
  assert (Hheld : activeBuilds held = activeBuilds this ++ [entry]) by reflexivity.
  assert (Hin0 : In entry (activeBuilds held)).
  { rewrite Hheld. apply in_or_app. right. left. reflexivity. }
  assert (Hin : In entry (activeBuilds (release finished IdUndefined true held))).
  { apply Hkeep; [exact Hin0 | discriminate]. }
  split; [exact Hin|]. split.
  { intros later finished'. fold (webBuildRoute later finished'
      (release finished IdUndefined true held)).
    apply webBuildRoute_keeps; [exact Hin | discriminate]. }
  split.
  - intros Hu.
    assert (Hu' : JsMap.has IdUndefined (activeBuilds held) = false).
    { rewrite Hheld. apply has_false_not_In. rewrite keys_app.
      apply has_false_not_In in Hu. intros H. apply in_app_or in H.
      destruct H as [H | [H | []]]; [contradiction | discriminate]. }
    rewrite (release_undefined_absent finished true held Hu').
    set (after := emit _ held).
    assert (Ha : activeBuilds after = activeBuilds this ++ [entry]) by reflexivity.
    split; [exact Ha|]. split; [reflexivity|]. split; [reflexivity|].
    intros Hnd Hnow later.
    assert (Hnd' : NoDup (activeIds after)).
    { unfold activeIds. rewrite Ha, keys_app. apply has_false_not_In in Hh.
      apply NoDup_app; [exact Hnd | repeat constructor; auto |].
      intros x Hx [E | []]. subst x. contradiction. }
    assert (Hin' : In entry (activeBuilds after)).
    { rewrite Ha. apply in_or_app. right. left. reflexivity. }
    destruct (checkStuckBuilds_registry later after Hnd') as [Hstay Hleft].
    apply Z.eqb_neq in Hnow.
    split.
    + intros Hsoon. apply (Hstay entry Hin'). subst entry.
      unfold isStuck, stuckReason. cbv zeta. simpl. rewrite Hnow.
      unfold MAX_BUILD_TIME, INACTIVITY_TIMEOUT in *.
      replace (later - now >? 45 * 60 * 1000) with false by lia.
      replace (later - now >? 10 * 60 * 1000) with false by lia.
      reflexivity.
    + intros Hlate Hstill.
      destruct (Hleft entry Hstill) as [[_ Hok] | [T1 _]].
      * subst entry. unfold isStuck, stuckReason in Hok. cbv zeta in Hok.
        simpl in Hok. rewrite Hnow in Hok.
        unfold MAX_BUILD_TIME, INACTIVITY_TIMEOUT in *.
        destruct (later - now >? 45 * 60 * 1000); [discriminate|].
        replace (later - now >? 10 * 60 * 1000) with true in Hok by lia.
        discriminate.
      * subst entry. simpl in T1. unfold INACTIVITY_TIMEOUT in Hlate. lia.
  - intros Hmax.
    assert (Hempty : activeBuilds this = []).
    { unfold isBusy, JsMap.size in B. rewrite Hmax in B.
      destruct (activeBuilds this); [reflexivity|]. simpl in B.
      rewrite Z.geb_leb in B. apply Z.leb_gt in B. lia. }
    assert (Hu' : JsMap.has IdUndefined (activeBuilds held) = false)
      by (rewrite Hheld, Hempty; reflexivity).
    rewrite (release_undefined_absent finished true held Hu').
    set (after := emit _ held).
    assert (Ha : activeBuilds after = activeBuilds this ++ [entry]) by reflexivity.
    assert (Hm : maxConcurrent after = maxConcurrent this) by reflexivity.
    assert (Hb : isBusy after = true).
    { unfold isBusy. rewrite Ha, Hm, Hmax, size_app1. unfold JsMap.size.
      apply Z.geb_le. lia. }
    split; [exact Hb|]. intros later finished'. unfold webBuildRoute.
    destruct (JsMap.has (webIdentity later) (activeBuilds after)) eqn:Hl.
    + rewrite acquire_already by assumption. reflexivity.
    + rewrite acquire_full by assumption. reflexivity.
Qed.

Lemma X14_web_build_keeps_its_slot_witness :
  fst (webBuildRoute 1700000000000 1700000090000 freshObject) = true
  /\ isBusy (snd (webBuildRoute 1700000000000 1700000090000 freshObject)) = true
  /\ fst (webBuildRoute 1700000100000 1700000190000
            (snd (webBuildRoute 1700000000000 1700000090000 freshObject))) = false.
Proof.
  assert (H : fst (webBuildRoute 1700000000000 1700000090000 freshObject) = true)
    by (vm_compute; reflexivity).
  split; [exact H|].
  destruct (X14_web_build_keeps_its_slot 1700000000000 1700000090000 freshObject)
    as (_ & _ & Hrun).
  destruct (Hrun H) as (_ & _ & _ & Hone).
  destruct Hone as [Hb Hrefused]; [vm_compute; reflexivity|].
  split; [exact Hb | apply Hrefused].
Defined.
